(** * mchanger: SCSI medium changer protocol engine

    A shallow embedding of the protocol logic of [mchanger.c] (and of the
    element-status flag decoder and element map builder of
    [xl1b_changer.c]): the element-status parser, the element map builder
    with pagination and quirk compensation, the per-element status reader
    and the load / unload / eject orchestration of the public library API.

    Conventions.
    - A C unsigned integer of width w is a [Z] in [0, 2^w); every place where
      the C code truncates is written out with [u8], [u16] or [u32].
    - A response buffer is a [list Z]; [byte_at] reads one [uint8_t] and
      yields 0 past the end of the list, which is what the zero-initialised
      allocations of the C code ([calloc], [memset]) contain there.
    - Two readers index past the end of their allocation
      ([read_mode_sense_element] past buf[255], [read_element_status_info]
      past buf[4095]); what they find there is not the device's answer but
      whatever the host has behind the block, [memory_behind], about which
      nothing is assumed.
    - The device is reached only through [execute_cdb]; the model threads a
      [World] holding the device state and the ordered log of everything the
      code handed to the transport.
    - [malloc]/[calloc]/[realloc] are assumed to succeed. *)

From Stdlib Require Import String ZArith List Bool Lia FinFun.
Import ListNotations.
Open Scope Z_scope.

(** ** Machine integers *)

Definition u8 (x : Z) : Z := x mod 256.
Definition u16 (x : Z) : Z := x mod 65536.
Definition u32 (x : Z) : Z := x mod 4294967296.

(** ** Buffers *)

Definition Buffer := list Z.

(* buf[i] for a uint8_t buffer *)
Definition byte_at (buf : Buffer) (i : Z) : Z :=
  if i <? 0 then 0 else u8 (nth (Z.to_nat i) buf 0).

(* (buf[off] << 8) | buf[off + 1], off being a uint32_t *)
Definition rd16 (buf : Buffer) (off : Z) : Z :=
  u16 (Z.lor (Z.shiftl (byte_at buf off) 8) (byte_at buf (u32 (off + 1)))).

(* (buf[off] << 16) | (buf[off + 1] << 8) | buf[off + 2] *)
Definition rd24 (buf : Buffer) (off : Z) : Z :=
  u32 (Z.lor (Z.lor (Z.shiftl (byte_at buf off) 16)
                    (Z.shiftl (byte_at buf (u32 (off + 1))) 8))
             (byte_at buf (u32 (off + 2)))).

(** ** Element lists and maps *)

Record ElementMap := mkElementMap {
  transports : list Z;
  slots : list Z;
  drives : list Z;
  ie : list Z
}.

Definition empty_map : ElementMap := mkElementMap [] [] [] [].

(* element_list_push: list->addrs[list->count++] = addr *)
Definition element_list_push (l : list Z) (addr : Z) : list Z := l ++ [addr].

Definition count (l : list Z) : Z := Z.of_nat (length l).

Definition total_count (m : ElementMap) : Z :=
  count (transports m) + count (slots m) + count (drives m) + count (ie m).

(* the if / else-if chain on the page's element type *)
Definition push_by_type (type addr : Z) (m : ElementMap) : ElementMap :=
  if type =? 1 then
    mkElementMap (element_list_push (transports m) addr) (slots m) (drives m) (ie m)
  else if type =? 2 then
    mkElementMap (transports m) (element_list_push (slots m) addr) (drives m) (ie m)
  else if type =? 3 then
    mkElementMap (transports m) (slots m) (drives m) (element_list_push (ie m) addr)
  else if type =? 4 then
    mkElementMap (transports m) (slots m) (element_list_push (drives m) addr) (ie m)
  else m.

(** ** Element-status flag decoders (print_flags) *)

Record Flags := mkFlags { flag_except : bool; flag_full : bool }.

(* mchanger.c: print_flags; read_element_status_info decodes "full" with
   the same mask *)
Definition print_flags (flags : Z) : Flags :=
  mkFlags (negb (Z.land flags 0x80 =? 0)) (negb (Z.land flags 0x01 =? 0)).

(** ** parse_element_status_map *)

(* for (uint16_t i = 0; i < desc_len; i++) if (buf[offset + i] != 0x00) ... *)
Definition all_zero (buf : Buffer) (offset desc_len : Z) : bool :=
  forallb (fun i => byte_at buf (u32 (offset + Z.of_nat i)) =? 0)
          (seq 0 (Z.to_nat desc_len)).

(* The inner while loop over the descriptors of one page.  Returns the
   offset and the map at loop exit, or None when the fuel runs out. *)
Fixpoint descriptors_loop (fuel : nat) (buf : Buffer) (type desc_len page_end : Z)
         (offset : Z) (map : ElementMap) : option (Z * ElementMap) :=
  match fuel with
  | O => None
  | S fuel' =>
    if u32 (offset + desc_len) <=? page_end then
      if desc_len <? 2 then Some (page_end, map)
      else
        let elem_addr := rd16 buf offset in
        if (type =? 2) && (elem_addr =? 0) && all_zero buf offset desc_len then
          descriptors_loop fuel' buf type desc_len page_end
                           (u32 (offset + desc_len)) map
        else
          descriptors_loop fuel' buf type desc_len page_end
                           (u32 (offset + desc_len))
                           (push_by_type type elem_addr map)
    else Some (offset, map)
  end.

(* The outer while loop over the element-status pages. *)
Fixpoint pages_loop (fuel : nat) (buf : Buffer) (len : Z)
         (offset : Z) (map : ElementMap) : option ElementMap :=
  match fuel with
  | O => None
  | S fuel' =>
    if u32 (offset + 8) <=? len then
      let type := Z.land (byte_at buf offset) 0x0F in
      let desc_len := rd16 buf (u32 (offset + 2)) in
      let page_bytes := rd24 buf (u32 (offset + 5)) in
      let offset := u32 (offset + 8) in
      if (desc_len =? 0) || (page_bytes =? 0) then Some map
      else
        let page_end := u32 (offset + page_bytes) in
        let page_end := if page_end >? len then len else page_end in
        match descriptors_loop (S (Z.to_nat len)) buf type desc_len page_end
                               offset map with
        | None => None
        | Some (offset, map) =>
          let offset := if offset <? page_end then page_end else offset in
          pages_loop fuel' buf len offset map
        end
    else Some map
  end.

(* Both loops advance the offset, so [S (Z.to_nat len)] iterations are
   enough (lemma [pages_loop_total] below); the [None] branch is dead. *)
Definition parse_element_status_map (buf : Buffer) (len : Z) (map : ElementMap)
  : bool * ElementMap :=
  if len <? 8 then (false, map)
  else
    let map' := match pages_loop (S (Z.to_nat len)) buf len 8 map with
                | Some m => m
                | None => map
                end in
    (total_count map' >? 0, map').

(** ** Status records and result codes *)

(* mchanger.c: ElementStatus *)
Record ElementStatus := mkElementStatus {
  addr : Z;
  full : bool;
  valid_src : bool;
  src_addr : Z
}.

Definition status_zero : ElementStatus := mkElementStatus 0 false false 0.

(* mchanger.h: MChangerElementStatus *)
Module Api.
Record MChangerElementStatus := mkStatus {
  address : Z;
  full : bool;
  except : bool;
  valid_source : bool;
  source_addr : Z
}.
End Api.

Definition MCHANGER_OK : Z := 0.
Definition MCHANGER_ERR_NOT_FOUND : Z := -1.
Definition MCHANGER_ERR_OPEN : Z := -2.
Definition MCHANGER_ERR_SCSI : Z := -3.
Definition MCHANGER_ERR_INVALID : Z := -4.
Definition MCHANGER_ERR_BUSY : Z := -5.
Definition MCHANGER_ERR_EMPTY : Z := -6.

(** ** Transport *)

Inductive BackendType := BACKEND_SCSITASK | BACKEND_SBP2.

(* What the code hands to the outside world, in program order. *)
Inductive Event :=
| EvCdb (cdb : list Z)       (* execute_cdb(handle, cdb, ...) *)
| EvHostEject                (* eject_optical_media() *)
| EvWaitForMount.            (* mchanger_wait_for_mount(...) *)

(* The two command transports and the host the program runs on.  An execute
   function receives the CDB and the buffer length and answers with the
   return code and the bytes the device transferred.  [memory_behind] is
   what lies in the host's memory behind the buffer the last command
   filled: the bytes a read past the end of that buffer finds. *)
Class Transport (Device : Type) := {
  execute_cdb_scsitask : Device -> list Z -> Z -> Z * Buffer * Device;
  execute_cdb_sbp2 : Device -> list Z -> Z -> Z * Buffer * Device;
  eject_optical_media_os : Device -> Device;
  memory_behind : Device -> list Z
}.

Record World (Device : Type) := mkWorld {
  backend : BackendType;
  device : Device;
  issued : list Event
}.
Arguments mkWorld {Device}.
Arguments backend {Device}.
Arguments device {Device}.
Arguments issued {Device}.

Section Engine.
Context {Device : Type} {T : Transport Device}.
Local Abbreviation World := (World Device).

(* execute_cdb: dispatch on handle->backend.  The buffer the caller sees
   holds at most buffer_len transferred bytes over zeroes. *)
Definition execute_cdb (w : World) (cdb : list Z) (buffer_len : Z)
  : Z * Buffer * World :=
  let '(rc, data, d) :=
    match backend w with
    | BACKEND_SCSITASK => execute_cdb_scsitask (device w) cdb buffer_len
    | BACKEND_SBP2 => execute_cdb_sbp2 (device w) cdb buffer_len
    end in
  (rc, firstn (Z.to_nat buffer_len) data,
   mkWorld (backend w) d (issued w ++ [EvCdb cdb])).

(* What an index into a buffer of alloc bytes reaches: the buffer's cells
   (zero where nothing was transferred), then the memory behind them. *)
Definition with_memory_behind (buf : Buffer) (alloc : Z) (behind : list Z)
  : Buffer :=
  firstn (Z.to_nat alloc) (buf ++ repeat 0 (Z.to_nat alloc)) ++ behind.

(* eject_optical_media(); its return value is ignored by every caller
   modelled here *)
Definition eject_optical_media (w : World) : World :=
  mkWorld (backend w) (eject_optical_media_os (device w))
          (issued w ++ [EvHostEject]).

Definition wait_for_mount (w : World) : World :=
  mkWorld (backend w) (device w) (issued w ++ [EvWaitForMount]).

(** ** Commands *)

Definition hi8 (x : Z) : Z := Z.land (Z.shiftr x 8) 0xFF.
Definition lo8 (x : Z) : Z := Z.land x 0xFF.
Definition top8 (x : Z) : Z := Z.land (Z.shiftr x 16) 0xFF.

(* the READ ELEMENT STATUS CDB as the builder and the status reader fill it *)
Definition read_element_status_cdb (element_type start number alloc : Z)
  : list Z :=
  [0xB8; element_type; hi8 start; lo8 start; hi8 number; lo8 number;
   top8 alloc; hi8 alloc; lo8 alloc; 0; 0; 0].

Definition move_medium_cdb (transport source dest : Z) : list Z :=
  [0xA5; 0; hi8 transport; lo8 transport; hi8 source; lo8 source;
   hi8 dest; lo8 dest; 0; 0; 0; 0].

Definition cmd_move_medium (w : World) (transport source dest : Z)
  : Z * World :=
  let '(rc, _, w1) := execute_cdb w (move_medium_cdb transport source dest) 0 in
  (rc, w1).

(** ** MODE SENSE page 0x1D *)

Record ElementAddrAssignment := mkAssign {
  first_transport : Z; num_transport : Z;
  first_storage : Z;   num_storage : Z;
  first_ie : Z;        num_ie : Z;
  first_drive : Z;     num_drive : Z
}.

Definition assign_zero : ElementAddrAssignment := mkAssign 0 0 0 0 0 0 0 0.

Definition mode_sense_cdb : list Z :=
  [0x5A; 0x08; 0x1D; 0x00; 0; 0; 0; hi8 256; lo8 256; 0].

(* read_mode_sense_element(handle, out, false), out non-NULL *)
Definition read_mode_sense_element (w : World) (out : ElementAddrAssignment)
  : Z * ElementAddrAssignment * World :=
  let alloc := 256 in
  let '(rc, buf, w1) := execute_cdb w mode_sense_cdb alloc in
  if negb (rc =? 0) then (rc, out, w1)
  else
    let block_desc_len := rd16 buf 6 in
    let page_offset := u32 (8 + block_desc_len) in
    if u32 (page_offset + 2) >? alloc then (1, out, w1)
    else
      let page_code := Z.land (byte_at buf page_offset) 0x3F in
      let page_len := byte_at buf (u32 (page_offset + 1)) in
      if negb (page_code =? 0x1D) || (page_len <? 16) then (0, out, w1)
      else
        (* const uint8_t *p = &buf[page_offset + 2]; p[0] .. p[15] are read
           with no further check, past buf[255] when page_offset > 238 *)
        let p := u32 (page_offset + 2) in
        let buf := with_memory_behind buf alloc (memory_behind (device w1)) in
        (0,
         mkAssign (rd16 buf p) (rd16 buf (p + 2))
                  (rd16 buf (p + 4)) (rd16 buf (p + 6))
                  (rd16 buf (p + 8)) (rd16 buf (p + 10))
                  (rd16 buf (p + 12)) (rd16 buf (p + 14)),
         w1).

(** ** read_element_status_info *)


(* if (st) { st->addr = a; st->full = false; ... } ; None is a NULL pointer *)
Definition init_status (st : option ElementStatus) (a : Z)
  : option ElementStatus :=
  match st with
  | Some _ => Some (mkElementStatus a false false 0)
  | None => None
  end.

(* if (st && elem_addr == target) { st->full = ...; ... } *)
Definition update_status (st : option ElementStatus) (target elem_addr : Z)
           (f sv : bool) (src : Z) : option ElementStatus :=
  match st with
  | Some s =>
    if elem_addr =? target then Some (mkElementStatus (addr s) f sv src)
    else Some s
  | None => None
  end.

Fixpoint info_descriptors_loop (fuel : nat) (buf : Buffer)
         (desc_len page_end drive_addr slot_addr : Z) (offset : Z)
         (drive_status slot_status : option ElementStatus)
  : option (Z * option ElementStatus * option ElementStatus) :=
  match fuel with
  | O => None
  | S fuel' =>
    if u32 (offset + desc_len) <=? page_end then
      let elem_addr := rd16 buf offset in
      let elem_flags := byte_at buf (u32 (offset + 2)) in
      let f := negb (Z.land elem_flags 0x01 =? 0) in
      let svalid :=
        if desc_len >=? 12
        then negb (Z.land (byte_at buf (u32 (offset + 9))) 0x80 =? 0)
        else false in
      let src :=
        if desc_len >=? 12 then rd16 buf (u32 (offset + 10)) else 0 in
      info_descriptors_loop fuel' buf desc_len page_end drive_addr slot_addr
        (u32 (offset + desc_len))
        (update_status drive_status drive_addr elem_addr f svalid src)
        (update_status slot_status slot_addr elem_addr f svalid src)
    else Some (offset, drive_status, slot_status)
  end.

Fixpoint info_pages_loop (fuel : nat) (buf : Buffer) (len : Z)
         (drive_addr slot_addr : Z) (offset : Z)
         (drive_status slot_status : option ElementStatus)
  : option (option ElementStatus * option ElementStatus) :=
  match fuel with
  | O => None
  | S fuel' =>
    if u32 (offset + 8) <=? len then
      let desc_len := rd16 buf (u32 (offset + 2)) in
      let page_bytes := rd24 buf (u32 (offset + 5)) in
      let offset := u32 (offset + 8) in
      if (desc_len =? 0) || (page_bytes =? 0)
      then Some (drive_status, slot_status)
      else
        let page_end := u32 (offset + page_bytes) in
        let page_end := if page_end >? len then len else page_end in
        match info_descriptors_loop (S (Z.to_nat len)) buf desc_len page_end
                drive_addr slot_addr offset drive_status slot_status with
        | None => None
        | Some (offset, drive_status, slot_status) =>
          let offset := if offset <? page_end then page_end else offset in
          info_pages_loop fuel' buf len drive_addr slot_addr offset
                          drive_status slot_status
        end
    else Some (drive_status, slot_status)
  end.

Definition read_element_status_info (w : World)
           (drive_addr : Z) (drive_status : option ElementStatus)
           (slot_addr : Z) (slot_status : option ElementStatus)
  : Z * option ElementStatus * option ElementStatus * World :=
  let alloc := 4096 in
  let cdb := read_element_status_cdb 0x00 0 0xFFFF alloc in
  let '(rc, buf, w1) := execute_cdb w cdb alloc in
  if negb (rc =? 0) then (rc, drive_status, slot_status, w1)
  else
    let drive_status := init_status drive_status drive_addr in
    let slot_status := init_status slot_status slot_addr in
    let len := alloc in
    (* a descriptor of one or two bytes that ends at buf[len - 1] has its
       address or flag byte read past the block *)
    let buf := with_memory_behind buf alloc (memory_behind (device w1)) in
    match info_pages_loop (S (Z.to_nat len)) buf len drive_addr slot_addr 8
                          drive_status slot_status with
    | Some (ds, ss) => (0, ds, ss, w1)
    | None => (0, drive_status, slot_status, w1)
    end.

(** ** fetch_element_map (mchanger.c) *)

Definition clear_slots (m : ElementMap) : ElementMap :=
  mkElementMap (transports m) [] (drives m) (ie m).

Definition parse_len_of (report_bytes alloc : Z) : Z :=
  if u32 (report_bytes + 8) <=? alloc then u32 (report_bytes + 8) else alloc.

(* The storage-only pagination loop: while (remaining > 0) { ... }.
   Returns the map and the world at loop exit. *)
Fixpoint paginate_loop (fuel : nat) (alloc : Z) (w : World)
         (start_addr remaining : Z) (map : ElementMap)
  : option (ElementMap * World) :=
  match fuel with
  | O => None
  | S fuel' =>
    if remaining >? 0 then
      let cdb := read_element_status_cdb 0x02 start_addr remaining alloc in
      let '(rc, buf, w1) := execute_cdb w cdb alloc in
      if negb (rc =? 0) then Some (map, w1)
      else
        let report_bytes := rd24 buf 5 in
        if report_bytes =? 0 then Some (map, w1)
        else
          let parse_len := parse_len_of report_bytes alloc in
          let before := count (slots map) in
          let map1 := snd (parse_element_status_map buf parse_len map) in
          let added := count (slots map1) - before in
          if added =? 0 then Some (map1, w1)
          else
            let start_addr := u16 (start_addr + u16 added) in
            if added >=? remaining then Some (map1, w1)
            else
              paginate_loop fuel' alloc w1 start_addr
                            (u16 (remaining - u16 added)) map1
    else Some (map, w)
  end.

(* for (uint16_t addr = actual_end; addr < expected_end; addr++)
     element_list_push(&map->slots, addr); *)
Fixpoint fill_loop (fuel : nat) (addr expected_end : Z) (l : list Z)
  : option (list Z) :=
  match fuel with
  | O => None
  | S fuel' =>
    if addr <? expected_end
    then fill_loop fuel' (u16 (addr + 1)) expected_end (element_list_push l addr)
    else Some l
  end.

(* The quirk compensation block.  The loop runs addr from actual_end up to
   expected_end, so expected_end - actual_end + 1 tests suffice. *)
Definition fill_missing_slots (assign : ElementAddrAssignment) (l : list Z)
  : list Z :=
  if count l <? num_storage assign then
    let expected_end := u16 (first_storage assign + num_storage assign) in
    let actual_end := u16 (first_storage assign + u16 (count l)) in
    match fill_loop (S (Z.to_nat (expected_end - actual_end)))
                    actual_end expected_end l with
    | Some l' => l'
    | None => l
    end
  else l.

Definition set_slots (m : ElementMap) (l : list Z) : ElementMap :=
  mkElementMap (transports m) l (drives m) (ie m).

(* The block guarded by
     read_mode_sense_element(...) == 0 && assign.num_storage > 0 *)
Definition rebuild_storage (alloc : Z) (w : World)
           (assign : ElementAddrAssignment) (map : ElementMap)
  : ElementMap * World :=
  let map0 := clear_slots map in
  let '(map1, w1) :=
    match paginate_loop (S (Z.to_nat (num_storage assign))) alloc w
                        (first_storage assign) (num_storage assign) map0 with
    | Some r => r
    | None => (map0, w)
    end in
  (set_slots map1 (fill_missing_slots assign (slots map1)), w1).

(* Second half of fetch_element_map: from the MODE SENSE query to the
   return statement. *)
Definition storage_phase (alloc : Z) (w1 : World) (map1 : ElementMap)
  : Z * ElementMap * World :=
  let '(rc_ms, assign, w2) := read_mode_sense_element w1 assign_zero in
  let '(map2, w3) :=
    if (rc_ms =? 0) && (num_storage assign >? 0)
    then rebuild_storage alloc w2 assign map1
    else (map1, w2) in
  (if total_count map2 >? 0 then 0 else 1, map2, w3).

Definition fetch_element_map (w : World) (map : ElementMap)
  : Z * ElementMap * World :=
  let alloc := 65535 in
  let cdb := read_element_status_cdb 0x00 0 0xFFFF alloc in
  let '(rc, buf, w1) := execute_cdb w cdb alloc in
  if negb (rc =? 0) then (rc, map, w1)
  else
    let report_bytes := rd24 buf 5 in
    if report_bytes =? 0 then (1, map, w1)
    else
      let parse_len := parse_len_of report_bytes alloc in
      let map1 := snd (parse_element_status_map buf parse_len map) in
      storage_phase alloc w1 map1.

(** ** Public API (mchanger.c, library section)

    Pointer arguments ([changer], [out_status]) are non-NULL. *)

(* *st for a status the caller passed by address *)
Definition deref (st : option ElementStatus) : ElementStatus :=
  match st with
  | Some s => s
  | None => status_zero
  end.

(* map.X.count > 0 ? map.X.addrs[0] : 0 *)
Definition first_or_zero (l : list Z) : Z :=
  if count l >? 0 then nth 0 l 0 else 0.

(* map.X.addrs[index - 1] *)
Definition addr_at (l : list Z) (index : Z) : Z :=
  nth (Z.to_nat (index - 1)) l 0.

Definition mchanger_get_slot_status (w : World) (slot : Z)
           (out_status : Api.MChangerElementStatus)
  : Z * Api.MChangerElementStatus * World :=
  if slot <? 1 then (MCHANGER_ERR_INVALID, out_status, w)
  else
    let '(rc, map, w1) := fetch_element_map w empty_map in
    if negb (rc =? 0) then (MCHANGER_ERR_SCSI, out_status, w1)
    else if slot >? count (slots map) then (MCHANGER_ERR_INVALID, out_status, w1)
    else
      let slot_addr := addr_at (slots map) slot in
      let drive_addr := first_or_zero (drives map) in
      let '(rc, _, st, w2) :=
        read_element_status_info w1 drive_addr None
                                 slot_addr (Some status_zero) in
      if negb (rc =? 0) then (MCHANGER_ERR_SCSI, out_status, w2)
      else
        let internal_st := deref st in
        (MCHANGER_OK,
         Api.mkStatus (addr internal_st) (full internal_st) false
                      (valid_src internal_st) (src_addr internal_st),
         w2).

Definition mchanger_get_drive_status (w : World) (drive : Z)
           (out_status : Api.MChangerElementStatus)
  : Z * Api.MChangerElementStatus * World :=
  if drive <? 1 then (MCHANGER_ERR_INVALID, out_status, w)
  else
    let '(rc, map, w1) := fetch_element_map w empty_map in
    if negb (rc =? 0) then (MCHANGER_ERR_SCSI, out_status, w1)
    else if drive >? count (drives map) then (MCHANGER_ERR_INVALID, out_status, w1)
    else
      let drive_addr := addr_at (drives map) drive in
      let '(rc, st, _, w2) :=
        read_element_status_info w1 drive_addr (Some status_zero) 0 None in
      if negb (rc =? 0) then (MCHANGER_ERR_SCSI, out_status, w2)
      else
        let internal_st := deref st in
        (MCHANGER_OK,
         Api.mkStatus (addr internal_st) (full internal_st) false
                      (valid_src internal_st) (src_addr internal_st),
         w2).

(* callback = true stands for a non-NULL MChangerMountCallback *)
Definition mchanger_load_slot_verbose (w : World) (slot drive : Z)
           (callback : bool) : Z * World :=
  if (slot <? 1) || (drive <? 1) then (MCHANGER_ERR_INVALID, w)
  else
    let '(rc, map, w1) := fetch_element_map w empty_map in
    if negb (rc =? 0) then (MCHANGER_ERR_SCSI, w1)
    else if (slot >? count (slots map)) || (drive >? count (drives map))
    then (MCHANGER_ERR_INVALID, w1)
    else
      let transport := first_or_zero (transports map) in
      let slot_addr := addr_at (slots map) slot in
      let drive_addr := addr_at (drives map) drive in
      let '(rc, ds, ss, w2) :=
        read_element_status_info w1 drive_addr (Some status_zero)
                                 slot_addr (Some status_zero) in
      if negb (rc =? 0) then (MCHANGER_ERR_SCSI, w2)
      else
        let drive_st := deref ds in
        let slot_st := deref ss in
        (* Already loaded? *)
        if negb (full slot_st) && full drive_st && valid_src drive_st
           && (src_addr drive_st =? slot_addr)
        then (MCHANGER_OK, w2)
        (* Slot empty and disc not in drive? *)
        else if negb (full slot_st)
                && negb (full drive_st && valid_src drive_st
                         && (src_addr drive_st =? slot_addr))
        then (MCHANGER_ERR_EMPTY, w2)
        else
          (* int rc = 0;  If drive has a different disc, unload it first *)
          let '(rc, w3) :=
            if full drive_st then
              let unload_addr :=
                if valid_src drive_st then src_addr drive_st else slot_addr in
              cmd_move_medium (eject_optical_media w2)
                              transport drive_addr unload_addr
            else (0, w2) in
          if negb (rc =? 0) then (MCHANGER_ERR_SCSI, w3)
          else
            (* Load the disc *)
            let '(rc, w4) := cmd_move_medium w3 transport slot_addr drive_addr in
            if negb (rc =? 0) then (MCHANGER_ERR_SCSI, w4)
            else (MCHANGER_OK, if callback then wait_for_mount w4 else w4).

Definition mchanger_load_slot (w : World) (slot drive : Z) : Z * World :=
  mchanger_load_slot_verbose w slot drive false.

Definition mchanger_unload_drive (w : World) (slot drive : Z) : Z * World :=
  if (slot <? 1) || (drive <? 1) then (MCHANGER_ERR_INVALID, w)
  else
    let '(rc, map, w1) := fetch_element_map w empty_map in
    if negb (rc =? 0) then (MCHANGER_ERR_SCSI, w1)
    else if (slot >? count (slots map)) || (drive >? count (drives map))
    then (MCHANGER_ERR_INVALID, w1)
    else
      let transport := first_or_zero (transports map) in
      let slot_addr := addr_at (slots map) slot in
      let drive_addr := addr_at (drives map) drive in
      let '(rc, w2) :=
        cmd_move_medium (eject_optical_media w1) transport drive_addr slot_addr in
      (if rc =? 0 then MCHANGER_OK else MCHANGER_ERR_SCSI, w2).

Definition mchanger_eject (w : World) (slot drive : Z) : Z * World :=
  if (slot <? 1) || (drive <? 1) then (MCHANGER_ERR_INVALID, w)
  else
    let '(rc, map, w1) := fetch_element_map w empty_map in
    if negb (rc =? 0) then (MCHANGER_ERR_SCSI, w1)
    else if (slot >? count (slots map)) || (drive >? count (drives map))
            || (count (ie map) =? 0)
    then (MCHANGER_ERR_INVALID, w1)
    else
      let transport := first_or_zero (transports map) in
      let slot_addr := addr_at (slots map) slot in
      let drive_addr := addr_at (drives map) drive in
      let ie_addr := nth 0 (ie map) 0 in
      let '(rc, ds, ss, w2) :=
        read_element_status_info w1 drive_addr (Some status_zero)
                                 slot_addr (Some status_zero) in
      if negb (rc =? 0) then (MCHANGER_ERR_SCSI, w2)
      else
        let drive_st := deref ds in
        let slot_st := deref ss in
        (* int rc = 0;  If disc is in drive, unload to slot first *)
        let unload := negb (full slot_st) && full drive_st in
        let '(rc, w3) :=
          if unload
          then cmd_move_medium (eject_optical_media w2)
                               transport drive_addr slot_addr
          else (0, w2) in
        if negb (rc =? 0) then (MCHANGER_ERR_SCSI, w3)
        else
          (* Move from slot to I/E *)
          let '(rc, w4) := cmd_move_medium w3 transport slot_addr ie_addr in
          (if rc =? 0 then MCHANGER_OK else MCHANGER_ERR_SCSI, w4).

End Engine.

(** ** The eject command of main(): where is the disc? (mchanger.c) *)

Definition main_eject_disc_in_drive (slot_st drive_st : ElementStatus)
           (slot_addr : Z) : bool :=
  if negb (full slot_st) && full drive_st then
    if valid_src drive_st && (src_addr drive_st =? slot_addr) then true
    else if negb (valid_src drive_st) then true
    else false
  else false.

(* if (!slot_st.full && !disc_in_drive) { ... rc = 1; goto out; } *)
Definition main_eject_refuses (slot_st drive_st : ElementStatus)
           (slot_addr : Z) : bool :=
  negb (full slot_st)
  && negb (main_eject_disc_in_drive slot_st drive_st slot_addr).

(** ** xl1b_changer.c: the flag decoder and the element map builder *)

Module Xl1b.
Section Builder.
Context {Device : Type} {T : Transport Device}.

Definition print_flags (flags : Z) : Flags :=
  mkFlags (negb (Z.land flags 0x80 =? 0)) (negb (Z.land flags 0x20 =? 0)).

Definition fetch_element_map (w : World Device) (map : ElementMap)
  : Z * ElementMap * World Device :=
  let alloc := 4096 in
  let cdb := read_element_status_cdb 0x00 0 0xFFFF alloc in
  let '(rc, buf, w1) := execute_cdb w cdb alloc in
  if negb (rc =? 0) then (rc, map, w1)
  else
    let report_bytes := rd24 buf 5 in
    if report_bytes =? 0 then (1, map, w1)
    else
      let needed := u32 (report_bytes + 8) in
      let '(rc, alloc, buf, w2) :=
        if (needed >? alloc) && (needed <? 65535) then
          let alloc := needed in
          let cdb := read_element_status_cdb 0x00 0 0xFFFF alloc in
          let '(rc, buf, w2) := execute_cdb w1 cdb alloc in
          (rc, alloc, buf, w2)
        else (rc, alloc, buf, w1) in
      if negb (rc =? 0) then (rc, map, w2)
      else
        let parse_len := parse_len_of report_bytes alloc in
        let '(ok, map1) := parse_element_status_map buf parse_len map in
        (if ok then 0 else 1, map1, w2).

End Builder.
End Xl1b.

(** ** Reading the log *)

Definition opcode (cdb : list Z) : Z := nth 0 cdb 0.

Definition is_move_medium (e : Event) : bool :=
  match e with
  | EvCdb cdb => opcode cdb =? 0xA5
  | _ => false
  end.

(* a READ ELEMENT STATUS whose element type code is "all" *)
Definition is_all_types_query (e : Event) : bool :=
  match e with
  | EvCdb cdb => (opcode cdb =? 0xB8) && (nth 1 cdb 0 =? 0x00)
  | _ => false
  end.

(* a READ ELEMENT STATUS restricted to storage elements, or a MODE SENSE *)
Definition is_storage_phase_cdb (e : Event) : bool :=
  match e with
  | EvCdb cdb =>
    ((opcode cdb =? 0xB8) && (nth 1 cdb 0 =? 0x02)) || (opcode cdb =? 0x5A)
  | _ => false
  end.

Definition moves (l : list Event) : list Event := filter is_move_medium l.

(* lo, lo + 1, ..., hi *)
Definition addr_range (lo hi : Z) : list Z :=
  map (fun i => lo + Z.of_nat i) (seq 0 (Z.to_nat (hi - lo + 1))).

Definition storage_assignment (first number : Z) : ElementAddrAssignment :=
  mkAssign 0 0 first number 0 0 0 0.

(** ** Scripted devices for the examples

    A scripted changer answers from fixed tables: one reply to the
    all-types READ ELEMENT STATUS, one reply per starting address to the
    storage-only READ ELEMENT STATUS, one reply to MODE SENSE and a return
    code per (source, destination) for MOVE MEDIUM. *)

Record Canned := mkCanned {
  all_types_reply : Z * Buffer;
  storage_reply : Z -> Z * Buffer;
  mode_sense_reply : Z * Buffer;
  move_reply : Z -> Z -> Z
}.

Definition be16 (cdb : list Z) (i : nat) : Z :=
  nth i cdb 0 * 256 + nth (S i) cdb 0.

Definition canned_execute (d : Canned) (cdb : list Z) (buffer_len : Z)
  : Z * Buffer * Canned :=
  if opcode cdb =? 0xB8 then
    if nth 1 cdb 0 =? 0x00 then (all_types_reply d, d)
    else (storage_reply d (be16 cdb 2), d)
  else if opcode cdb =? 0x5A then (mode_sense_reply d, d)
  else if opcode cdb =? 0xA5 then (move_reply d (be16 cdb 4) (be16 cdb 6), [], d)
  else (1, [], d).

#[export] Instance canned_transport : Transport Canned := {
  execute_cdb_scsitask := canned_execute;
  execute_cdb_sbp2 := canned_execute;
  eject_optical_media_os := fun d => d;
  memory_behind := fun _ => []
}.

Definition fresh (d : Canned) : World Canned := mkWorld BACKEND_SCSITASK d [].

(* a 12-byte element descriptor *)
Definition descriptor (address flags svalid source : Z) : Buffer :=
  [hi8 address; lo8 address; flags; 0; 0; 0; 0; 0; 0; svalid;
   hi8 source; lo8 source].

Definition plain (address flags : Z) : Buffer := descriptor address flags 0 0.

(* an element-status page of 12-byte descriptors *)
Definition status_page (type : Z) (descs : list Buffer) : Buffer :=
  let bytes := 12 * Z.of_nat (length descs) in
  [type; 0; 0; 12; 0; top8 bytes; hi8 bytes; lo8 bytes] ++ concat descs.

(* a whole READ ELEMENT STATUS response; the header announces its length *)
Definition status_report (pages : list Buffer) : Buffer :=
  let body := concat pages in
  let n := Z.of_nat (length body) in
  [0; 0; 0; 0; 0; top8 n; hi8 n; lo8 n] ++ body.

(* a MODE SENSE(10) response carrying page 0x1D for the storage range *)
Definition mode_sense_report (first_s num_s : Z) : Buffer :=
  [0; 24; 0; 0; 0; 0; 0; 0;
   0x1D; 0x12; 0; 0; 0; 1;
   hi8 first_s; lo8 first_s; hi8 num_s; lo8 num_s;
   0; 0x10; 0; 1; 0x01; 0x00; 0; 1].

Definition no_reply : Z * Buffer := (1, []).

Definition moves_succeed (source dest : Z) : Z := 0.

(* One transport 0x0000, six slots 0x1000..0x1005, one I/E port 0x0010 and
   one drive 0x0100; the statuses of slot 6 and of the drive are given. *)
Definition jukebox (slot6 drive : Buffer) (move : Z -> Z -> Z) : Canned :=
  let report :=
    status_report
      [status_page 1 [plain 0x0000 0];
       status_page 2 [plain 0x1000 1; plain 0x1001 1; plain 0x1002 1;
                      plain 0x1003 1; plain 0x1004 1; slot6];
       status_page 3 [plain 0x0010 0];
       status_page 4 [drive]] in
  mkCanned (0, report) (fun _ => no_reply) no_reply move.

(** ** Vocabulary of the statements *)

(* two buffers hold the same first len bytes *)
Definition agree (b1 b2 : Buffer) (len : Z) : Prop :=
  forall i, 0 <= i < len -> byte_at b1 i = byte_at b2 i.

(* largest parse length for which offset + desc_len cannot wrap in 32 bits *)
Definition PARSE_LEN_MAX : Z := 4294901760.

Section Statements.
Context {Device : Type} {T : Transport Device}.
Local Abbreviation World := (World Device).

Definition all_types_cdb : list Z := read_element_status_cdb 0x00 0 0xFFFF 65535.

(* The builder's first query answered buf, which announces a non-empty
   report, and the MODE SENSE query that follows returned rc_ms and assign. *)
Definition builder_reads (w : World) (map : ElementMap) (buf : Buffer)
           (w1 : World) (rc_ms : Z) (assign : ElementAddrAssignment)
           (w2 : World) : Prop :=
  execute_cdb w all_types_cdb 65535 = (0, buf, w1)
  /\ rd24 buf 5 <> 0
  /\ read_mode_sense_element w1 assign_zero = (rc_ms, assign, w2).

(* the map the builder holds after parsing the all-types response *)
Definition all_types_map (buf : Buffer) (map : ElementMap) : ElementMap :=
  snd (parse_element_status_map buf (parse_len_of (rd24 buf 5) 65535) map).

(* A call with these 1-based indices gets past the range checks with the
   element map [map] and reads the statuses drive_st and slot_st. *)
Definition reads_status (w : World) (slot drive : Z) (map : ElementMap)
           (drive_st slot_st : ElementStatus) (w2 : World) : Prop :=
  exists w1,
    fetch_element_map w empty_map = (0, map, w1)
    /\ 1 <= slot <= count (slots map)
    /\ 1 <= drive <= count (drives map)
    /\ read_element_status_info w1 (addr_at (drives map) drive) (Some status_zero)
                                (addr_at (slots map) slot) (Some status_zero)
       = (0, Some drive_st, Some slot_st, w2).

(* the drive holds the medium that came from this slot address *)
Definition sourced_from (drive_st : ElementStatus) (slot_addr : Z) : bool :=
  full drive_st && valid_src drive_st && (src_addr drive_st =? slot_addr).

(** *** The claims read literally, for the counterexamples *)

(* Quirk compensation, in the spec's words: the synthetic addresses run
   from last_returned_address + 1 to first + number - 1, there are
   number - discovered of them and the final list has number entries. *)
Definition quirk_claim_as_stated (a : ElementAddrAssignment)
           (discovered final : list Z) : Prop :=
  count discovered < num_storage a ->
  exists synth,
    final = discovered ++ synth
    /\ count synth = num_storage a - count discovered
    /\ synth = addr_range (last discovered 0 + 1)
                          (first_storage a + num_storage a - 1)
    /\ count final = num_storage a.

(* Load no-op law, in the spec's words: a drive that is full with a valid
   source equal to the slot's address makes load succeed without a move. *)
Definition load_noop_claim_as_stated (w : World) (slot drive : Z) : Prop :=
  forall map drive_st slot_st w2,
    reads_status w slot drive map drive_st slot_st w2 ->
    sourced_from drive_st (addr_at (slots map) slot) = true ->
    exists w', mchanger_load_slot w slot drive = (MCHANGER_OK, w')
               /\ moves (issued w') = moves (issued w).

(* Load ordering, in the spec's words: a drive occupied by another slot's
   medium makes load issue an unload move out of the drive first, then
   either stop with an error or issue the load move. *)
Definition load_ordering_claim_as_stated (w : World) (slot drive : Z) : Prop :=
  forall map drive_st slot_st w2,
    reads_status w slot drive map drive_st slot_st w2 ->
    full drive_st = true ->
    sourced_from drive_st (addr_at (slots map) slot) = false ->
    exists rc w' t dest tail,
      mchanger_load_slot w slot drive = (rc, w')
      /\ moves (issued w')
         = moves (issued w)
           ++ EvCdb (move_medium_cdb t (addr_at (drives map) drive) dest) :: tail
      /\ ((tail = [] /\ rc <> MCHANGER_OK)
          \/ tail = [EvCdb (move_medium_cdb t (addr_at (slots map) slot)
                                            (addr_at (drives map) drive))]).

(* Out-of-range invariant, in the spec's words: an index that is 0 or above
   the discovered count yields InvalidArgument and nothing is issued. *)
Definition out_of_range_claim_as_stated (op : World -> Z -> Z -> Z * World)
           (w : World) (slot drive : Z) : Prop :=
  forall rc map w1,
    fetch_element_map w empty_map = (rc, map, w1) ->
    slot = 0 \/ slot > count (slots map)
    \/ drive = 0 \/ drive > count (drives map) ->
    op w slot drive = (MCHANGER_ERR_INVALID, w).

(* Rebuild rule, in the spec's words: when the all-types query returned at
   least the declared number of storage elements, its storage list is the
   final one. *)
Definition rebuild_claim_as_stated (w : World) : Prop :=
  forall buf w1 assign w2 rc m w',
    builder_reads w empty_map buf w1 0 assign w2 ->
    fetch_element_map w empty_map = (rc, m, w') ->
    num_storage assign <= count (slots (all_types_map buf empty_map)) ->
    slots m = slots (all_types_map buf empty_map).

(* Re-issue rule, in the spec's words: a declared byte count above the
   allocation makes the builder issue the all-types query again with an
   allocation of byte count + 8. *)
Definition reissue_claim_as_stated (w : World) : Prop :=
  forall buf w1 rc m w',
    execute_cdb w all_types_cdb 65535 = (0, buf, w1) ->
    rd24 buf 5 > 65535 ->
    fetch_element_map w empty_map = (rc, m, w') ->
    In (EvCdb (read_element_status_cdb 0x00 0 0xFFFF (rd24 buf 5 + 8)))
       (issued w').

(* Eject rule, in the spec's words: slot empty and medium not in the drive
   makes eject fail with Empty without a move. *)
Definition eject_empty_claim_as_stated (w : World) (slot drive : Z) : Prop :=
  forall map drive_st slot_st w2,
    reads_status w slot drive map drive_st slot_st w2 ->
    count (ie map) > 0 ->
    full slot_st = false ->
    full drive_st = false
    \/ (full drive_st = true /\ valid_src drive_st = true
        /\ src_addr drive_st <> addr_at (slots map) slot) ->
    exists w', mchanger_eject w slot drive = (MCHANGER_ERR_EMPTY, w')
               /\ moves (issued w') = moves (issued w).

End Statements.

(** *** Devices of the examples *)

(* Slot 6 reports empty, the drive holds the medium of slot 6. *)
Definition loaded_jukebox : Canned :=
  jukebox (plain 0x1005 0) (descriptor 0x0100 0x01 0x80 0x1005) moves_succeed.

(* Slot 6 reports full and the drive claims the medium of slot 6 as well. *)
Definition stale_source_jukebox : Canned :=
  jukebox (plain 0x1005 1) (descriptor 0x0100 0x01 0x80 0x1005) moves_succeed.

(* Slot 6 is full, the drive holds the medium of slot 2 (0x1001). *)
Definition busy_jukebox (move : Z -> Z -> Z) : Canned :=
  jukebox (plain 0x1005 1) (descriptor 0x0100 0x01 0x80 0x1001) move.

(* every move out of the drive fails *)
Definition unload_fails (source dest : Z) : Z := if source =? 0x0100 then 2 else 0.

(* Slot 6 is empty, the drive holds the medium of slot 2 (0x1001). *)
Definition foreign_jukebox : Canned :=
  jukebox (plain 0x1005 0) (descriptor 0x0100 0x01 0x80 0x1001) moves_succeed.

(* Slot 6 and the drive are both empty. *)
Definition empty_jukebox : Canned :=
  jukebox (plain 0x1005 0) (plain 0x0100 0) moves_succeed.

(* Slot 6 is full with the exception bit set (flags 0x81); so is the drive. *)
Definition exception_jukebox : Canned :=
  jukebox (plain 0x1005 0x81) (plain 0x0100 0x81) moves_succeed.

Definition storage_descriptors (lo hi : Z) : list Buffer :=
  map (fun a => plain a 1) (addr_range lo hi).

(* MODE SENSE declares 50 slots from 0x1000; the all-types query lists 30
   of them; the storage-only query at 0x1000 lists 40 and later pages are
   empty. *)
Definition under_reporting_changer : Canned :=
  mkCanned
    (0, status_report [status_page 1 [plain 0x0000 0];
                       status_page 2 (storage_descriptors 0x1000 0x101D);
                       status_page 4 [plain 0x0100 0]])
    (fun start =>
       if start =? 0x1000
       then (0, status_report [status_page 2 (storage_descriptors 0x1000 0x1027)])
       else (0, []))
    (0, mode_sense_report 0x1000 50)
    moves_succeed.

(* MODE SENSE declares 4 slots from 0x1000; the storage-only query lists
   0x1000 and 0x1002 only. *)
Definition gap_changer : Canned :=
  mkCanned
    (0, status_report [status_page 2 [plain 0x1000 1; plain 0x1002 1]])
    (fun start =>
       if start =? 0x1000
       then (0, status_report [status_page 2 [plain 0x1000 1; plain 0x1002 1]])
       else (0, []))
    (0, mode_sense_report 0x1000 4)
    moves_succeed.

(* The all-types query lists three slots, MODE SENSE declares two, and the
   device rejects storage-only queries. *)
Definition all_types_only_changer : Canned :=
  mkCanned
    (0, status_report [status_page 2 [plain 0x1000 1; plain 0x1001 1;
                                      plain 0x1002 1]])
    (fun _ => no_reply)
    (0, mode_sense_report 0x1000 2)
    moves_succeed.

(* The all-types response announces 65536 bytes, more than the 65535
   requested; MODE SENSE is rejected. *)
Definition oversized_changer : Canned :=
  mkCanned
    (0, [0; 0; 0; 1; 0; 0x01; 0x00; 0x00] ++ status_page 2 [plain 0x1000 1])
    (fun _ => no_reply)
    no_reply
    moves_succeed.

(* MODE SENSE is rejected, so the all-types storage list stands. *)
Definition no_mode_sense_changer : Canned :=
  mkCanned
    (0, status_report [status_page 2 [plain 0x1000 1; plain 0x1001 1]])
    (fun _ => no_reply)
    no_reply
    moves_succeed.

(* a one-slot response and the same bytes followed by stale data *)
Definition short_report : Buffer := status_report [status_page 2 [plain 0x1000 1]].
Definition short_report_stale : Buffer := short_report ++ [2; 0; 0; 12; 0xFF].


(** ** The growable address list with its capacity (element_list_push) *)

Definition u64 (x : Z) : Z := x mod 18446744073709551616.

Module Growable.

(* ElementList: addrs[0 .. count) are the cells written so far; cap is the
   number of cells allocated *)
Record ElementList := mkList {
  addrs : list Z;
  count : Z;
  cap : Z
}.

(* ElementList list = {0} *)
Definition empty : ElementList := mkList [] 0 0.

(* realloc_ok tells whether realloc, if it is called, returns a block *)
Definition element_list_push (realloc_ok : bool) (el : ElementList) (addr : Z)
  : ElementList :=
  if count el =? cap el then
    let new_cap := if cap el =? 0 then 32 else u64 (cap el * 2) in
    if realloc_ok
    then mkList (addrs el ++ [addr]) (u64 (count el + 1)) new_cap
    else el
  else mkList (addrs el ++ [addr]) (u64 (count el + 1)) (cap el).

(* pushing a sequence of addresses, realloc always succeeding *)
Definition push_all (el : ElementList) (l : list Z) : ElementList :=
  fold_left (element_list_push true) l el.

End Growable.

(** ** Names of the element types *)

Definition element_type_name (type : Z) : String.string :=
  if type =? 0x01 then "transport"%string
  else if type =? 0x02 then "storage"%string
  else if type =? 0x03 then "import/export"%string
  else if type =? 0x04 then "drive"%string
  else "unknown"%string.

(* parse_element_type(s, &out): Some v for "*out = v; return true" *)
Definition parse_element_type (s : String.string) : option Z :=
  if String.eqb s "all" then Some 0x00
  else if String.eqb s "transport" then Some 0x01
  else if String.eqb s "storage" then Some 0x02
  else if String.eqb s "ie" then Some 0x03
  else if String.eqb s "drive" then Some 0x04
  else None.

(** ** INQUIRY strings (mchanger_inquiry) *)

(* while (len > 0 && v[len - 1] == ' ') v[--len] = '\0'; the new len *)
Fixpoint trim_trailing_spaces (v : list Z) (len : nat) : nat :=
  match len with
  | O => O
  | S n => if nth n v 0 =? 32 then trim_trailing_spaces v n else len
  end.

(* buf[off .. off + n) *)
Definition bytes_at (buf : Buffer) (off : Z) (n : nat) : list Z :=
  map (fun i => byte_at buf (off + Z.of_nat i)) (seq 0 n).

(* One output string of mchanger_inquiry: the characters in front of the
   terminating NUL, for a field of the given width at offset off copied into
   a caller's array of out_len > 0 characters. *)
Definition inquiry_field (buf : Buffer) (off width out_len : Z) : list Z :=
  let len := Z.to_nat (if out_len - 1 <? width then out_len - 1 else width) in
  let v := bytes_at buf off len in
  firstn (trim_trailing_spaces v len) v.

(* a caller's character array: None for a NULL pointer, else the characters
   it holds in front of the NUL and its size *)
Definition fill_field (buf : Buffer) (off width : Z)
           (out : option (list Z)) (out_len : Z) : option (list Z) :=
  match out with
  | Some old => if out_len >? 0 then Some (inquiry_field buf off width out_len)
                else Some old
  | None => None
  end.

(** ** More of the engine: diagnostics commands and the rest of the API *)

Inductive SlotMismatch :=
| NoMismatch            (* nothing is printed *)
| MissingMagazines      (* "Warning: Device capacity is ... Check that all
                            magazines are properly installed." *)
| CapacityNote.         (* "Note: MODE SENSE reports max capacity of ..." *)

(* mchanger.h: MChangerElementMap, a NULL pointer with count 0 being [] *)
Record MChangerElementMap := mkPublicMap {
  slot_addrs : list Z;
  drive_addrs : list Z;
  transport_addrs : list Z;
  ie_addrs : list Z
}.

Section Diagnostics.
Context {Device : Type} {T : Transport Device}.
Local Abbreviation World := (World Device).

(* cmd_read_element_status; what it prints is not part of the model *)
Definition cmd_read_element_status (w : World)
           (element_type start number alloc : Z) : Z * World :=
  let cdb := read_element_status_cdb (Z.land element_type 0x0F) start number alloc in
  let '(rc, buf, w1) := execute_cdb w cdb alloc in
  if negb (rc =? 0) && negb (element_type =? 0x00) then
    let cdb := read_element_status_cdb 0x00 0 0xFFFF alloc in
    let '(rc, buf, w2) := execute_cdb w1 cdb alloc in
    (rc, w2)
  else (rc, w1).

(* the for loop of cmd_probe_storage over uint16_t offset *)
Fixpoint probe_loop (fuel : nat) (w : World) (assign : ElementAddrAssignment)
         (step offset : Z) : option World :=
  match fuel with
  | O => None
  | S fuel' =>
    if offset <? num_storage assign then
      let start := u16 (first_storage assign + offset) in
      let number := u16 (num_storage assign - offset) in
      let number := if number >? step then step else number in
      let cdb := read_element_status_cdb 0x02 start number 4096 in
      let '(rc, buf, w1) := execute_cdb w cdb 4096 in
      probe_loop fuel' w1 assign step (u16 (offset + step))
    else Some w
  end.

(* cmd_probe_storage; None when the loop is still running after fuel
   iterations *)
Definition cmd_probe_storage (fuel : nat) (w : World) : option (Z * World) :=
  let '(rc, assign, w1) := read_mode_sense_element w assign_zero in
  if negb (rc =? 0) then Some (rc, w1)
  else if num_storage assign =? 0 then Some (1, w1)
  else
    let step := if num_storage assign >? 40 then 40 else num_storage assign in
    match probe_loop fuel w1 assign step 0 with
    | Some w2 => Some (0, w2)
    | None => None
    end.

(* warn_if_slot_mismatch, returning which message goes to stderr *)
Definition warn_if_slot_mismatch (w : World) (map : ElementMap)
  : SlotMismatch * World :=
  let '(rc, assign, w1) := read_mode_sense_element w assign_zero in
  if negb (rc =? 0) then (NoMismatch, w1)
  else if (num_storage assign >? 0) && (count (slots map) >? 0)
          && negb (num_storage assign =? count (slots map))
  then if count (slots map) <? num_storage assign / 2
       then (MissingMagazines, w1)
       else (CapacityNote, w1)
  else (NoMismatch, w1).

(* the "list-map" command of main() once the device is open *)
Definition main_list_map (w : World) : Z * SlotMismatch * World :=
  let '(rc, map, w1) := fetch_element_map w empty_map in
  if rc =? 0 then
    let '(m, w2) := warn_if_slot_mismatch w1 map in (rc, m, w2)
  else (rc, NoMismatch, w1).

(* if (count > 0) { out = malloc(...); memcpy(...); out_count = count; } *)
Definition copy_list (l : list Z) : list Z :=
  if count l >? 0 then l else [].

(* mchanger_get_element_map: memset(out_map, 0, ...) comes first *)
Definition mchanger_get_element_map (w : World) (out_map : MChangerElementMap)
  : Z * MChangerElementMap * World :=
  let out_map := mkPublicMap [] [] [] [] in
  let '(rc, internal_map, w1) := fetch_element_map w empty_map in
  if negb (rc =? 0) then (MCHANGER_ERR_SCSI, out_map, w1)
  else
    (MCHANGER_OK,
     mkPublicMap (copy_list (slots internal_map)) (copy_list (drives internal_map))
                 (copy_list (transports internal_map)) (copy_list (ie internal_map)),
     w1).

Definition inquiry_cdb : list Z := [0x12; 0; 0; 0; 96; 0].

(* mchanger_inquiry: vendor at bytes 8..15, product at 16..31, revision at
   32..35 of the 96-byte response *)
Definition mchanger_inquiry (w : World)
           (vendor : option (list Z)) (vendor_len : Z)
           (product : option (list Z)) (product_len : Z)
           (revision : option (list Z)) (revision_len : Z)
  : Z * option (list Z) * option (list Z) * option (list Z) * World :=
  let '(rc, buf, w1) := execute_cdb w inquiry_cdb 96 in
  if negb (rc =? 0) then (MCHANGER_ERR_SCSI, vendor, product, revision, w1)
  else
    (MCHANGER_OK,
     fill_field buf 8 8 vendor vendor_len,
     fill_field buf 16 16 product product_len,
     fill_field buf 32 4 revision revision_len,
     w1).

End Diagnostics.

(** ** The media commands of main() (mchanger.c)

    Each definition is the body of one command branch, from the point where
    its options have been parsed; console output and the wait for the Enter
    key of "insert" are not part of the model. *)

(* the global options of the command line, and what confirm_move() returns
   when it is called (whether the operator types "yes") *)
Record CommandLine := mkCommandLine {
  dry_run : bool;
  confirm : bool;
  g_verbose : bool;
  typed_yes : bool
}.

(* the slot index (1-based) of the first entry equal to a, 0 if none:
   for (i = 0; i < count; i++) if (addrs[i] == a) { index = i + 1; break; } *)
Fixpoint find_slot_index (l : list Z) (a : Z) (i : Z) : Z :=
  match l with
  | [] => 0
  | x :: rest => if x =? a then i + 1 else find_slot_index rest a (i + 1)
  end.

(* a READ ELEMENT STATUS or a MODE SENSE *)
Definition is_status_query (e : Event) : bool :=
  match e with
  | EvCdb cdb => (opcode cdb =? 0xB8) || (opcode cdb =? 0x5A)
  | _ => false
  end.

Section CommandLineCommands.
Context {Device : Type} {T : Transport Device}.
Local Abbreviation World := (World Device).

(* confirm && !confirm_move() *)
Definition declined (cl : CommandLine) : bool :=
  confirm cl && negb (typed_yes cl).

(* "move" *)
Definition main_move (cl : CommandLine) (w : World)
           (have_transport : bool) (transport : Z)
           (have_source : bool) (source : Z)
           (have_dest : bool) (dest : Z) : Z * World :=
  if negb have_transport || negb have_source || negb have_dest then (1, w)
  else if dry_run cl then (0, w)
  else if declined cl then (1, w)
  else cmd_move_medium w transport source dest.

(* "load" and "load-slot" *)
Definition main_load (cl : CommandLine) (w : World)
           (have_slot : bool) (slot_index drive_index : Z)
           (have_transport : bool) (transport : Z) : Z * World :=
  if negb have_slot then (1, w)
  else
    let '(rc, map, w1) := fetch_element_map w empty_map in
    if negb (rc =? 0) then (rc, w1)
    else if (slot_index =? 0) || (slot_index >? count (slots map))
            || (drive_index =? 0) || (drive_index >? count (drives map))
    then (1, w1)
    else if negb have_transport && (count (transports map) =? 0) then (1, w1)
    else
      let transport :=
        if have_transport then transport else nth 0 (transports map) 0 in
      let slot_addr := addr_at (slots map) slot_index in
      let drive_addr := addr_at (drives map) drive_index in
      let '(rc, ds, ss, w2) :=
        read_element_status_info w1 drive_addr (Some status_zero)
                                 slot_addr (Some status_zero) in
      if negb (rc =? 0) then (rc, w2)
      else
        let drive_st := deref ds in
        let target_slot_st := deref ss in
        if negb (full target_slot_st)
           && full drive_st && valid_src drive_st
           && (src_addr drive_st =? slot_addr)
        then (rc, w2)                       (* already in the drive *)
        else if negb (full target_slot_st) then (1, w2)    (* slot is empty *)
        else
          let '(rc, w3) :=
            if full drive_st then
              let unload_slot_addr :=
                if valid_src drive_st then src_addr drive_st else 0 in
              let unload_slot_index :=
                if valid_src drive_st
                then find_slot_index (slots map) (src_addr drive_st) 0
                else 0 in
              if (unload_slot_addr =? 0) || (unload_slot_index =? 0) then (1, w2)
              else if dry_run cl then (rc, w2)
              else if declined cl then (1, w2)
              else
                let '(rc, w3) :=
                  cmd_move_medium (eject_optical_media w2)
                                  transport drive_addr unload_slot_addr in
                if negb (rc =? 0) then (rc, w3)
                else cmd_move_medium w3 transport slot_addr drive_addr
            else
              if dry_run cl then (rc, w2)
              else if declined cl then (1, w2)
              else cmd_move_medium w2 transport slot_addr drive_addr in
          (* if (g_verbose && rc == 0 && !dry_run) wait_and_print_mounted_disc();
             every goto out above leaves with rc != 0 *)
          (rc,
           if g_verbose cl && (rc =? 0) && negb (dry_run cl)
           then wait_for_mount w3 else w3).

(* "unload" and "unload-drive" *)
Definition main_unload (cl : CommandLine) (w : World)
           (have_slot : bool) (slot_index drive_index : Z)
           (have_transport : bool) (transport : Z) : Z * World :=
  if negb have_slot then (1, w)
  else
    let '(rc, map, w1) := fetch_element_map w empty_map in
    if negb (rc =? 0) then (rc, w1)
    else if (slot_index =? 0) || (slot_index >? count (slots map))
            || (drive_index =? 0) || (drive_index >? count (drives map))
    then (1, w1)
    else if negb have_transport && (count (transports map) =? 0) then (1, w1)
    else
      let transport :=
        if have_transport then transport else nth 0 (transports map) 0 in
      let slot_addr := addr_at (slots map) slot_index in
      let drive_addr := addr_at (drives map) drive_index in
      if dry_run cl then (rc, w1)
      else if declined cl then (1, w1)
      else cmd_move_medium (eject_optical_media w1) transport drive_addr slot_addr.

(* "eject" *)
Definition main_eject (cl : CommandLine) (w : World)
           (have_slot : bool) (slot_index : Z)
           (have_drive : bool) (drive_index : Z)
           (have_transport : bool) (transport : Z) : Z * World :=
  if negb have_slot then (1, w)
  else
    let '(rc, map, w1) := fetch_element_map w empty_map in
    if negb (rc =? 0) then (rc, w1)
    else if (slot_index =? 0) || (slot_index >? count (slots map)) then (1, w1)
    else
      let drive_index := if negb have_drive then 1 else drive_index in
      if (drive_index =? 0) || (drive_index >? count (drives map)) then (1, w1)
      else if count (ie map) =? 0 then (1, w1)
      else if negb have_transport && (count (transports map) =? 0) then (1, w1)
      else
        let transport :=
          if have_transport then transport else nth 0 (transports map) 0 in
        let slot_addr := addr_at (slots map) slot_index in
        let drive_addr := addr_at (drives map) drive_index in
        let ie_addr := nth 0 (ie map) 0 in
        let '(rc, ds, ss, w2) :=
          read_element_status_info w1 drive_addr (Some status_zero)
                                   slot_addr (Some status_zero) in
        if negb (rc =? 0) then (rc, w2)
        else
          let drive_st := deref ds in
          let slot_st := deref ss in
          let disc_in_drive := main_eject_disc_in_drive slot_st drive_st slot_addr in
          if main_eject_refuses slot_st drive_st slot_addr then (1, w2)
          else if disc_in_drive then
            if dry_run cl then (rc, w2)
            else if declined cl then (1, w2)
            else
              let '(rc, w3) :=
                cmd_move_medium (eject_optical_media w2)
                                transport drive_addr slot_addr in
              if negb (rc =? 0) then (rc, w3)
              else cmd_move_medium w3 transport slot_addr ie_addr
          else
            if dry_run cl then (rc, w2)
            else if declined cl then (1, w2)
            else cmd_move_medium w2 transport slot_addr ie_addr.

(* "insert": I/E port -> slot *)
Definition main_insert (cl : CommandLine) (w : World)
           (have_slot : bool) (slot_index : Z)
           (have_transport : bool) (transport : Z) : Z * World :=
  if negb have_slot then (1, w)
  else
    let '(rc, map, w1) := fetch_element_map w empty_map in
    if negb (rc =? 0) then (rc, w1)
    else if (slot_index =? 0) || (slot_index >? count (slots map)) then (1, w1)
    else if count (ie map) =? 0 then (1, w1)
    else if negb have_transport && (count (transports map) =? 0) then (1, w1)
    else
      let transport :=
        if have_transport then transport else nth 0 (transports map) 0 in
      let slot_addr := addr_at (slots map) slot_index in
      let ie_addr := nth 0 (ie map) 0 in
      if dry_run cl then (rc, w1)
      else if declined cl then (1, w1)
      else cmd_move_medium w1 transport ie_addr slot_addr.

(* "retrieve": slot -> I/E port *)
Definition main_retrieve (cl : CommandLine) (w : World)
           (have_slot : bool) (slot_index : Z)
           (have_transport : bool) (transport : Z) : Z * World :=
  if negb have_slot then (1, w)
  else
    let '(rc, map, w1) := fetch_element_map w empty_map in
    if negb (rc =? 0) then (rc, w1)
    else if (slot_index =? 0) || (slot_index >? count (slots map)) then (1, w1)
    else if count (ie map) =? 0 then (1, w1)
    else if negb have_transport && (count (transports map) =? 0) then (1, w1)
    else
      let transport :=
        if have_transport then transport else nth 0 (transports map) 0 in
      let slot_addr := addr_at (slots map) slot_index in
      let ie_addr := nth 0 (ie map) 0 in
      if dry_run cl then (rc, w1)
      else if declined cl then (1, w1)
      else cmd_move_medium w1 transport slot_addr ie_addr.

End CommandLineCommands.

(** ** main(): from the opened handle to the branch of a command *)

(* the options --force and --no-tur *)
Record StartupOptions := mkStartup {
  force : bool;
  skip_tur : bool
}.

Definition test_unit_ready_cdb : list Z := [0x00; 0; 0; 0; 0; 0].

Section Main.
Context {Device : Type} {T : Transport Device}.
Local Abbreviation World := (World Device).

Definition cmd_test_unit_ready (w : World) : Z * World :=
  let '(rc, _, w1) := execute_cdb w test_unit_ready_cdb 0 in
  (rc, w1).

(* main() once the handle is open, for a command other than sanity-check
   and test-unit-ready whose branch is [branch]:
     if (!skip_tur && ...) { int tur = cmd_test_unit_ready(&handle);
                             if (tur != 0 && !force) { rc = 1; goto out; } }
   and then the branch *)
Definition main (o : StartupOptions) (w : World) (branch : World -> Z * World)
  : Z * World :=
  if negb (skip_tur o) then
    let '(tur, w1) := cmd_test_unit_ready w in
    if negb (tur =? 0) && negb (force o) then (1, w1)
    else branch w1
  else branch w.

(* the prelude lets the command through and its branch starts in wb *)
Definition prelude_passes (o : StartupOptions) (w wb : World) : Prop :=
  (skip_tur o = true /\ wb = w)
  \/ (skip_tur o = false
      /\ exists tur, cmd_test_unit_ready w = (tur, wb)
                     /\ (tur = 0 \/ force o = true)).

(* TEST UNIT READY fails and --force is not given: main() ends in ws *)
Definition prelude_stops (o : StartupOptions) (w ws : World) : Prop :=
  skip_tur o = false /\ force o = false
  /\ exists tur, cmd_test_unit_ready w = (tur, ws) /\ tur <> 0.

End Main.

(* what main() issues before the branch *)
Definition prelude_events (o : StartupOptions) : list Event :=
  if skip_tur o then [] else [EvCdb test_unit_ready_cdb].

(** ** Vocabulary of the further properties *)

Definition is_u16 (a : Z) : Prop := 0 <= a < 65536.
Definition is_byte (b : Z) : Prop := 0 <= b < 256.

(* l' is l followed by 16-bit addresses *)
Definition extended_by_u16 (l l' : list Z) : Prop :=
  exists added, l' = l ++ added /\ Forall is_u16 added.

(* the 24-bit big-endian field at bytes i, i + 1, i + 2 of a CDB *)
Definition be24 (cdb : list Z) (i : nat) : Z :=
  nth i cdb 0 * 65536 + nth (S i) cdb 0 * 256 + nth (S (S i)) cdb 0.

(* every list of m' is the list of m followed by 16-bit addresses *)
Definition map_extended (m m' : ElementMap) : Prop :=
  extended_by_u16 (transports m) (transports m')
  /\ extended_by_u16 (slots m) (slots m')
  /\ extended_by_u16 (drives m) (drives m')
  /\ extended_by_u16 (ie m) (ie m').

(* a storage-only READ ELEMENT STATUS with a 65535-byte allocation that asks
   for the rest of the declared range first .. first + number - 1 *)
Definition asks_for_rest (first number : Z) (e : Event) : Prop :=
  exists start remaining,
    e = EvCdb (read_element_status_cdb 0x02 start remaining 65535)
    /\ 0 < remaining <= number
    /\ u16 (start + remaining) = u16 (first + number).

(* the queries cmd_probe_storage sends for a declared range, in order *)
Definition probe_queries (first number step : Z) : list Event :=
  map (fun k =>
         let offset := step * Z.of_nat k in
         EvCdb (read_element_status_cdb
                  0x02 (u16 (first + offset))
                  (if number - offset >? step then step else number - offset)
                  4096))
      (seq 0 (Z.to_nat ((number + step - 1) / step))).

(* the two statuses read_element_status_info maintains for the addresses da
   and sa: they keep their addresses, hold 16-bit sources, and agree when
   the two addresses are the same *)
Definition status_pair_ok (da sa : Z) (d s : ElementStatus) : Prop :=
  addr d = da /\ addr s = sa
  /\ is_u16 (src_addr d) /\ is_u16 (src_addr s)
  /\ (da = sa ->
      full d = full s /\ valid_src d = valid_src s /\ src_addr d = src_addr s).

(* the big-endian pair at bytes off, off + 1 of a buffer *)
Definition be_pair (buf : Buffer) (off : Z) : Z :=
  256 * byte_at buf off + byte_at buf (off + 1).

(* A scripted changer that answers like [script] for its first [answers]
   commands and rejects every later one. *)
Record Fading := mkFading {
  answers : nat;
  script : Canned
}.

Definition fading_execute (d : Fading) (cdb : list Z) (buffer_len : Z)
  : Z * Buffer * Fading :=
  match answers d with
  | O => (1, [], d)
  | S n =>
    let '(rc, buf, c) := canned_execute (script d) cdb buffer_len in
    (rc, buf, mkFading n c)
  end.

#[export] Instance fading_transport : Transport Fading := {
  execute_cdb_scsitask := fading_execute;
  execute_cdb_sbp2 := fading_execute;
  eject_optical_media_os := fun d => d;
  memory_behind := fun _ => []
}.

Definition fresh_fading (n : nat) (c : Canned) : World Fading :=
  mkWorld BACKEND_SCSITASK (mkFading n c) [].

(* MODE SENSE declares 65535 slots from address 0; nothing else answers. *)
Definition boundless_changer : Canned :=
  mkCanned no_reply (fun _ => no_reply) (0, mode_sense_report 0 0xFFFF)
           moves_succeed.

(* The shape element_list_push maintains: count cells are written, they fit
   the allocation, and the allocation is 0 or 32 doubled some number of
   times, never more than twice what is used beyond the first 32 cells. *)
Definition list_invariant (el : Growable.ElementList) : Prop :=
  Growable.count el = Z.of_nat (length (Growable.addrs el))
  /\ Growable.count el <= Growable.cap el
  /\ (Growable.cap el = 0
      \/ exists k : nat, Growable.cap el = 32 * 2 ^ Z.of_nat k)
  /\ Growable.cap el <= Z.max 32 (2 * Growable.count el).

(* a jukebox without medium transport element in its report: slots
   0x1000 and 0x1001 (full), one I/E port 0x0010, one drive 0x0100 (empty) *)
Definition no_transport_jukebox : Canned :=
  mkCanned
    (0, status_report [status_page 2 [plain 0x1000 1; plain 0x1001 1];
                       status_page 3 [plain 0x0010 0];
                       status_page 4 [plain 0x0100 0]])
    (fun _ => no_reply)
    no_reply
    moves_succeed.

(* 350 slots from 0x1000: the all-types report takes 4216 bytes *)
Definition large_changer : Canned :=
  mkCanned
    (0, status_report [status_page 2 (storage_descriptors 0x1000 0x115D)])
    (fun _ => no_reply)
    no_reply
    moves_succeed.

(* A changer that answers each command from its CDB alone. *)
Definition Oracle : Type := list Z -> Z * Buffer.

Definition oracle_execute (d : Oracle) (cdb : list Z) (buffer_len : Z)
  : Z * Buffer * Oracle :=
  (d cdb, d).

#[export] Instance oracle_transport : Transport Oracle := {
  execute_cdb_scsitask := oracle_execute;
  execute_cdb_sbp2 := oracle_execute;
  eject_optical_media_os := fun d => d;
  memory_behind := fun _ => []
}.

Definition fresh_oracle (d : Oracle) : World Oracle :=
  mkWorld BACKEND_SCSITASK d [].

(* an INQUIRY response: vendor "ACME" padded to 8 characters, product
   "DISC CHANGER" padded to 16, revision "1.0 " *)
Definition acme_identity : Buffer :=
  [8; 0x80; 2; 2; 91; 0; 0; 0;
   65; 67; 77; 69; 32; 32; 32; 32;
   68; 73; 83; 67; 32; 67; 72; 65; 78; 71; 69; 82; 32; 32; 32; 32;
   49; 46; 48; 32].

(* answers INQUIRY only *)
Definition acme_changer : Oracle :=
  fun cdb => if opcode cdb =? 0x12 then (0, acme_identity) else (1, []).

(* What one output array of mchanger_inquiry holds afterwards: a NULL
   pointer or an array of size 0 is left alone; otherwise the array holds
   the first min(out_len - 1, width) bytes of the field without their
   trailing spaces, and the terminating NUL fits. *)
Definition trimmed_copy (buf : Buffer) (off width : Z)
           (out : option (list Z)) (out_len : Z) (res : option (list Z)) : Prop :=
  match out with
  | None => res = None
  | Some old =>
    if out_len <=? 0 then res = Some old
    else exists s k,
        res = Some s
        /\ bytes_at buf off (Z.to_nat (Z.min (out_len - 1) width))
           = s ++ repeat 32 k
        /\ last s 0 <> 32
        /\ Z.of_nat (length s) < out_len
  end.





(* every event is a READ ELEMENT STATUS or a MODE SENSE: nothing is moved,
   no host-OS eject is triggered, no mount is waited for *)
Definition status_queries_only (l : list Event) : Prop :=
  Forall (fun e => is_status_query e = true) l.

(* from w to w' nothing but READ ELEMENT STATUS and MODE SENSE commands
   was issued *)
Definition only_queried {Device : Type} (w w' : World Device) : Prop :=
  exists l, issued w' = issued w ++ l /\ status_queries_only l.

(* the result codes of the library *)
Definition load_codes : list Z :=
  [MCHANGER_OK; MCHANGER_ERR_INVALID; MCHANGER_ERR_SCSI; MCHANGER_ERR_EMPTY].

Definition move_codes : list Z :=
  [MCHANGER_OK; MCHANGER_ERR_INVALID; MCHANGER_ERR_SCSI].

(* every event is a storage-only READ ELEMENT STATUS or a MODE SENSE *)
Definition only_storage_phase (l : list Event) : Prop :=
  Forall (fun e => is_storage_phase_cdb e = true) l.

(** * Properties *)

(** ** Machine integers and bit masks *)

Lemma u32_small (x : Z) : 0 <= x < 4294967296 -> u32 x = x.
Proof. intros H. unfold u32. apply Z.mod_small. exact H. Qed.

Lemma u16_small (x : Z) : 0 <= x < 65536 -> u16 x = x.
Proof. intros H. unfold u16. apply Z.mod_small. exact H. Qed.

Lemma u16_range (x : Z) : 0 <= u16 x < 65536.
Proof. unfold u16. apply Z.mod_pos_bound. lia. Qed.

Lemma rd16_range (buf : Buffer) (off : Z) : 0 <= rd16 buf off < 65536.
Proof. unfold rd16. apply u16_range. Qed.

Lemma count_nonneg (l : list Z) : 0 <= count l.
Proof. unfold count. lia. Qed.

Lemma count_app (l1 l2 : list Z) : count (l1 ++ l2) = count l1 + count l2.
Proof. unfold count. rewrite length_app. lia. Qed.

Lemma land_pow2_testbit (a n : Z) :
  0 <= n -> negb (Z.land a (2 ^ n) =? 0) = Z.testbit a n.
Proof.
  intros Hn. destruct (Z.testbit a n) eqn:E.
  - apply negb_true_iff, Z.eqb_neq. intros H0.
    assert (H : Z.testbit (Z.land a (2 ^ n)) n = true).
    { rewrite Z.land_spec, E, Z.pow2_bits_true by exact Hn. reflexivity. }
    rewrite H0, Z.bits_0 in H. discriminate.
  - apply negb_false_iff, Z.eqb_eq, Z.bits_inj'. intros m Hm.
    rewrite Z.land_spec, Z.bits_0.
    destruct (Z.eq_dec n m) as [->|Hne].
    + rewrite E. reflexivity.
    + rewrite Z.pow2_bits_false by exact Hne. apply andb_false_r.
Qed.

(** ** The two flag decoders *)

(** C8: the flag decoders of mchanger.c and xl1b_changer.c are not
    equivalent.  mchanger.c reads "full" from bit 0 (mask 0x01) of the flag
    byte and xl1b_changer.c from bit 5 (mask 0x20), so on the flag bytes
    0x20 and 0x01 they report opposite values of "full"; both read
    "exception" from bit 7 (mask 0x80) and agree on it for every byte. *)
Theorem print_flags_full_bit_disagrees :
  (forall flags, flag_full (print_flags flags) = Z.testbit flags 0)
  /\ (forall flags, flag_full (Xl1b.print_flags flags) = Z.testbit flags 5)
  /\ flag_full (print_flags 0x20) = false
  /\ flag_full (Xl1b.print_flags 0x20) = true
  /\ flag_full (print_flags 0x01) = true
  /\ flag_full (Xl1b.print_flags 0x01) = false
  /\ (forall flags, flag_except (print_flags flags) = Z.testbit flags 7)
  /\ (forall flags,
        flag_except (print_flags flags) = flag_except (Xl1b.print_flags flags)).
Proof.
  repeat split; try reflexivity; intros flags; cbn [print_flags Xl1b.print_flags
    flag_full flag_except].
  - change 1 with (2 ^ 0). apply land_pow2_testbit. lia.
  - change 32 with (2 ^ 5). apply land_pow2_testbit. lia.
  - change 128 with (2 ^ 7). apply land_pow2_testbit. lia.
Qed.

(* read_element_status_info decodes "full" exactly as mchanger.c's
   print_flags does *)
Lemma info_full_is_print_flags (flags : Z) :
  negb (Z.land flags 0x01 =? 0) = flag_full (print_flags flags).
Proof. reflexivity. Qed.

(** ** The element-status parser *)

Section Parser.
Variables (b1 b2 : Buffer) (len : Z).
Hypothesis same_bytes : agree b1 b2 len.
Hypothesis len_in_range : len <= PARSE_LEN_MAX.

Lemma byte_at_same (i : Z) : 0 <= i < len -> byte_at b1 i = byte_at b2 i.
Proof. apply same_bytes. Qed.

Lemma rd16_same (off : Z) : 0 <= off -> off + 1 < len -> rd16 b1 off = rd16 b2 off.
Proof.
  intros H0 H1. unfold rd16, PARSE_LEN_MAX in *.
  rewrite (u32_small (off + 1)) by lia.
  rewrite !byte_at_same by lia. reflexivity.
Qed.

Lemma rd24_same (off : Z) : 0 <= off -> off + 2 < len -> rd24 b1 off = rd24 b2 off.
Proof.
  intros H0 H1. unfold rd24, PARSE_LEN_MAX in *.
  rewrite (u32_small (off + 1)), (u32_small (off + 2)) by lia.
  rewrite !byte_at_same by lia. reflexivity.
Qed.

Lemma all_zero_same (offset desc_len : Z) :
  0 <= offset -> offset + desc_len <= len ->
  all_zero b1 offset desc_len = all_zero b2 offset desc_len.
Proof.
  intros H0 H1. unfold all_zero.
  assert (E : forall l,
             (forall i, In i l -> (i < Z.to_nat desc_len)%nat) ->
             forallb (fun i => byte_at b1 (u32 (offset + Z.of_nat i)) =? 0) l
             = forallb (fun i => byte_at b2 (u32 (offset + Z.of_nat i)) =? 0) l).
  { induction l as [|i l IH]; intros Hl; [reflexivity|]. cbn [forallb].
    assert (Hi : (i < Z.to_nat desc_len)%nat) by (apply Hl; left; reflexivity).
    unfold PARSE_LEN_MAX in *.
    rewrite (u32_small (offset + Z.of_nat i)) by lia.
    rewrite byte_at_same by lia.
    rewrite IH; [reflexivity|]. intros j Hj. apply Hl. right. exact Hj. }
  apply E. intros i Hi. apply in_seq in Hi. lia.
Qed.

(* The inner loop terminates within the fuel, reads only the first len
   bytes, and leaves the offset inside the buffer. *)
Lemma descriptors_loop_same (fuel : nat) :
  forall type desc_len page_end offset map,
    0 <= desc_len < 65536 -> page_end <= len -> 0 <= offset <= len ->
    Z.max 0 (page_end - offset) < Z.of_nat fuel ->
    exists o m,
      descriptors_loop fuel b1 type desc_len page_end offset map = Some (o, m)
      /\ descriptors_loop fuel b2 type desc_len page_end offset map = Some (o, m)
      /\ offset <= o <= len.
Proof.
  induction fuel as [|fuel IH]; intros type desc_len page_end offset map Hd Hp Ho Hf.
  - cbn in Hf. lia.
  - cbn [descriptors_loop]. unfold PARSE_LEN_MAX in *.
    rewrite (u32_small (offset + desc_len)) by lia.
    destruct (offset + desc_len <=? page_end) eqn:Hin.
    + apply Z.leb_le in Hin.
      destruct (desc_len <? 2) eqn:Hsmall.
      * exists page_end, map. repeat split; lia.
      * apply Z.ltb_ge in Hsmall.
        rewrite <- (rd16_same offset) by lia.
        rewrite <- (all_zero_same offset desc_len) by lia.
        destruct ((type =? 2) && (rd16 b1 offset =? 0) && all_zero b1 offset desc_len).
        -- destruct (IH type desc_len page_end (offset + desc_len) map)
             as (o & m & E1 & E2 & Ho'); try lia.
           exists o, m. repeat split; auto; lia.
        -- destruct (IH type desc_len page_end (offset + desc_len)
                        (push_by_type type (rd16 b1 offset) map))
             as (o & m & E1 & E2 & Ho'); try lia.
           exists o, m. repeat split; auto; lia.
    + exists offset, map. repeat split; lia.
Qed.

Lemma pages_loop_same (fuel : nat) :
  forall offset map,
    0 <= offset <= len ->
    Z.max 0 (len - offset) < Z.of_nat fuel ->
    exists m,
      pages_loop fuel b1 len offset map = Some m
      /\ pages_loop fuel b2 len offset map = Some m.
Proof.
  induction fuel as [|fuel IH]; intros offset map Ho Hf.
  - cbn in Hf. lia.
  - cbn [pages_loop]. unfold PARSE_LEN_MAX in *.
    rewrite (u32_small (offset + 8)), (u32_small (offset + 2)),
      (u32_small (offset + 5)) by lia.
    destruct (offset + 8 <=? len) eqn:Hin; [|exists map; split; reflexivity].
    apply Z.leb_le in Hin.
    rewrite <- (byte_at_same offset), <- (rd16_same (offset + 2)),
      <- (rd24_same (offset + 5)) by lia.
    set (type := Z.land (byte_at b1 offset) 15).
    set (desc_len := rd16 b1 (offset + 2)).
    set (page_bytes := rd24 b1 (offset + 5)).
    destruct ((desc_len =? 0) || (page_bytes =? 0));
      [exists map; split; reflexivity|].
    set (page_end := if u32 (offset + 8 + page_bytes) >? len then len
                     else u32 (offset + 8 + page_bytes)).
    assert (Hpe : page_end <= len).
    { subst page_end. destruct (u32 (offset + 8 + page_bytes) >? len) eqn:G; [lia|].
      rewrite Z.gtb_ltb in G. apply Z.ltb_ge in G. exact G. }
    destruct (descriptors_loop_same (S (Z.to_nat len)) type desc_len page_end
                (offset + 8) map) as (o & m & E1 & E2 & Ho');
      try (subst desc_len; apply rd16_range); try lia.
    rewrite E1, E2.
    apply IH; destruct (o <? page_end) eqn:G;
      try apply Z.ltb_lt in G; lia.
Qed.

Lemma parse_element_status_map_same (map : ElementMap) :
  parse_element_status_map b1 len map = parse_element_status_map b2 len map.
Proof.
  unfold parse_element_status_map.
  destruct (len <? 8) eqn:Hlen; [reflexivity|]. apply Z.ltb_ge in Hlen.
  destruct (pages_loop_same (S (Z.to_nat len)) 8 map) as (m & E1 & E2); try lia.
  rewrite E1, E2. reflexivity.
Qed.

End Parser.

(* the fuel handed to the outer loop is never exhausted *)
Lemma pages_loop_total (buf : Buffer) (len : Z) (map : ElementMap) :
  8 <= len <= PARSE_LEN_MAX ->
  exists m, pages_loop (S (Z.to_nat len)) buf len 8 map = Some m.
Proof.
  intros H.
  destruct (pages_loop_same buf buf len (fun _ _ => eq_refl) (proj2 H)
              (S (Z.to_nat len)) 8 map) as (m & E & _); try lia.
  exists m. exact E.
Qed.

(* the stop conditions of the outer loop *)
Lemma pages_loop_stops_when_exhausted (fuel : nat) (buf : Buffer)
      (len offset : Z) (map : ElementMap) :
  u32 (offset + 8) > len ->
  pages_loop (S fuel) buf len offset map = Some map.
Proof.
  intros H. cbn [pages_loop].
  destruct (u32 (offset + 8) <=? len) eqn:E; [apply Z.leb_le in E; lia|reflexivity].
Qed.

Lemma pages_loop_stops_on_zero (fuel : nat) (buf : Buffer)
      (len offset : Z) (map : ElementMap) :
  rd16 buf (u32 (offset + 2)) = 0 \/ rd24 buf (u32 (offset + 5)) = 0 ->
  pages_loop (S fuel) buf len offset map = Some map.
Proof.
  intros H. cbn [pages_loop].
  destruct (u32 (offset + 8) <=? len); [|reflexivity].
  destruct H as [-> | ->]; [reflexivity|].
  rewrite orb_true_r. reflexivity.
Qed.

(* an all-zero storage descriptor at address 0x0000 is skipped *)
Lemma descriptors_loop_skips_padding (fuel : nat) (buf : Buffer)
      (desc_len page_end offset : Z) (map : ElementMap) :
  u32 (offset + desc_len) <= page_end -> 2 <= desc_len ->
  rd16 buf offset = 0 -> all_zero buf offset desc_len = true ->
  descriptors_loop (S fuel) buf 2 desc_len page_end offset map
  = descriptors_loop fuel buf 2 desc_len page_end (u32 (offset + desc_len)) map.
Proof.
  intros H1 H2 H3 H4. cbn [descriptors_loop].
  destruct (u32 (offset + desc_len) <=? page_end) eqn:E;
    [|apply Z.leb_gt in E; lia].
  destruct (desc_len <? 2) eqn:E2; [apply Z.ltb_lt in E2; lia|].
  rewrite H3, H4. reflexivity.
Qed.

(** C9: parsing an element status response is deterministic.  Two parses
    of the same bytes (two buffers that hold the same first len bytes,
    whatever lies beyond) into fresh empty maps return the same success
    flag and the same four address lists, in the same order; the page loop
    terminates within its fuel, so the result is the one the stop
    conditions and the padding rule of the two loops produce. *)
Theorem parse_element_status_map_deterministic (b1 b2 : Buffer) (len : Z) :
  len <= PARSE_LEN_MAX ->
  agree b1 b2 len ->
  parse_element_status_map b1 len empty_map
  = parse_element_status_map b2 len empty_map
  /\ (8 <= len ->
      exists m, pages_loop (S (Z.to_nat len)) b1 len 8 empty_map = Some m
                /\ pages_loop (S (Z.to_nat len)) b2 len 8 empty_map = Some m).
Proof.
  intros Hlen Hsame. split.
  - apply parse_element_status_map_same; assumption.
  - intros H8. apply pages_loop_same; try assumption; lia.
Qed.

(** ** The parser only appends *)

Lemma push_by_type_slots (type a : Z) (m : ElementMap) :
  exists l, slots (push_by_type type a m) = slots m ++ l.
Proof.
  unfold push_by_type, element_list_push.
  destruct (type =? 1); [exists []; cbn; now rewrite app_nil_r|].
  destruct (type =? 2); [exists [a]; reflexivity|].
  destruct (type =? 3); [exists []; cbn; now rewrite app_nil_r|].
  destruct (type =? 4); exists []; cbn; now rewrite app_nil_r.
Qed.

Lemma descriptors_loop_slots (fuel : nat) (buf : Buffer) (type desc_len page_end : Z) :
  forall offset map o m,
    descriptors_loop fuel buf type desc_len page_end offset map = Some (o, m) ->
    exists l, slots m = slots map ++ l.
Proof.
  induction fuel as [|fuel IH]; intros offset map o m H; [discriminate|].
  cbn [descriptors_loop] in H.
  destruct (u32 (offset + desc_len) <=? page_end).
  - destruct (desc_len <? 2).
    + injection H as _ <-. exists []. now rewrite app_nil_r.
    + destruct ((type =? 2) && (rd16 buf offset =? 0) && all_zero buf offset desc_len).
      * eapply IH; eassumption.
      * apply IH in H. destruct H as [l Hl].
        destruct (push_by_type_slots type (rd16 buf offset) map) as [l' Hl'].
        exists (l' ++ l). rewrite Hl, Hl', app_assoc. reflexivity.
  - injection H as _ <-. exists []. now rewrite app_nil_r.
Qed.

Lemma pages_loop_slots (fuel : nat) (buf : Buffer) (len : Z) :
  forall offset map m,
    pages_loop fuel buf len offset map = Some m ->
    exists l, slots m = slots map ++ l.
Proof.
  induction fuel as [|fuel IH]; intros offset map m H; [discriminate|].
  cbn [pages_loop] in H.
  destruct (u32 (offset + 8) <=? len);
    [|injection H as <-; exists []; now rewrite app_nil_r].
  destruct ((rd16 buf (u32 (offset + 2)) =? 0) || (rd24 buf (u32 (offset + 5)) =? 0));
    [injection H as <-; exists []; now rewrite app_nil_r|].
  match type of H with
  | match ?d with _ => _ end = _ => destruct d as [[o m1]|] eqn:D; [|discriminate]
  end.
  apply descriptors_loop_slots in D. destruct D as [l1 Hl1].
  apply IH in H. destruct H as [l2 Hl2].
  exists (l1 ++ l2). rewrite Hl2, Hl1, app_assoc. reflexivity.
Qed.

Lemma parse_element_status_map_slots (buf : Buffer) (len : Z) (map : ElementMap) :
  exists l, slots (snd (parse_element_status_map buf len map)) = slots map ++ l.
Proof.
  unfold parse_element_status_map.
  destruct (len <? 8); [exists []; cbn; now rewrite app_nil_r|]. cbn [snd].
  destruct (pages_loop (S (Z.to_nat len)) buf len 8 map) as [m|] eqn:E.
  - eapply pages_loop_slots. exact E.
  - exists []. now rewrite app_nil_r.
Qed.

(** ** What the engine hands to the transport *)

Section EngineFacts.
Context {Device : Type} {T : Transport Device}.
Implicit Types (w : World Device) (map : ElementMap).

Lemma execute_cdb_issued w cdb n rc buf w' :
  execute_cdb w cdb n = (rc, buf, w') ->
  issued w' = issued w ++ [EvCdb cdb].
Proof.
  unfold execute_cdb. intros H.
  destruct (match backend w with
            | BACKEND_SCSITASK => execute_cdb_scsitask (device w) cdb n
            | BACKEND_SBP2 => execute_cdb_sbp2 (device w) cdb n
            end) as [[r d] dv].
  injection H as _ _ <-. reflexivity.
Qed.

Lemma cmd_move_medium_issued w t s d rc w' :
  cmd_move_medium w t s d = (rc, w') ->
  issued w' = issued w ++ [EvCdb (move_medium_cdb t s d)].
Proof.
  unfold cmd_move_medium. intros H.
  destruct (execute_cdb w (move_medium_cdb t s d) 0) as [[r b] w1] eqn:E.
  injection H as _ <-. eapply execute_cdb_issued. exact E.
Qed.

Lemma read_mode_sense_element_issued w out rc a w' :
  read_mode_sense_element w out = (rc, a, w') ->
  issued w' = issued w ++ [EvCdb mode_sense_cdb].
Proof.
  unfold read_mode_sense_element. intros H.
  destruct (execute_cdb w mode_sense_cdb 256) as [[r b] w1] eqn:E.
  apply execute_cdb_issued in E.
  repeat match type of H with
         | (if ?c then _ else _) = _ => destruct c
         end; injection H as _ _ <-; exact E.
Qed.

(* what MODE SENSE declares is a pair of 16-bit numbers *)
Lemma read_mode_sense_element_range w rc a w' :
  read_mode_sense_element w assign_zero = (rc, a, w') ->
  0 <= first_storage a < 65536 /\ 0 <= num_storage a < 65536.
Proof.
  unfold read_mode_sense_element. intros H.
  destruct (execute_cdb w mode_sense_cdb 256) as [[r b] w1].
  repeat match type of H with
         | (if ?c then _ else _) = _ => destruct c
         end; injection H as _ <- _; cbn; try lia.
  split; apply rd16_range.
Qed.

Lemma read_element_status_info_issued w da ds sa ss rc ds' ss' w' :
  read_element_status_info w da ds sa ss = (rc, ds', ss', w') ->
  issued w' = issued w ++ [EvCdb (read_element_status_cdb 0x00 0 0xFFFF 4096)].
Proof.
  unfold read_element_status_info. intros H.
  destruct (execute_cdb w (read_element_status_cdb 0 0 65535 4096) 4096)
    as [[r b] w1] eqn:E.
  apply execute_cdb_issued in E.
  destruct (negb (r =? 0)); [injection H as _ _ _ <-; exact E|].
  destruct (info_pages_loop _ _ _ _ _ _ _ _) as [[x y]|];
    injection H as _ _ _ <-; exact E.
Qed.

Lemma paginate_loop_issued (fuel : nat) (alloc : Z) :
  forall w start remaining map m w',
    paginate_loop fuel alloc w start remaining map = Some (m, w') ->
    exists l, issued w' = issued w ++ l /\ only_storage_phase l.
Proof.
  induction fuel as [|fuel IH]; intros w start remaining map m w' H; [discriminate|].
  cbn [paginate_loop] in H.
  destruct (remaining >? 0);
    [|injection H as _ <-; exists []; split; [now rewrite app_nil_r|constructor]].
  destruct (execute_cdb w (read_element_status_cdb 2 start remaining alloc) alloc)
    as [[r b] w1] eqn:E.
  apply execute_cdb_issued in E.
  assert (Hone : only_storage_phase
                   [EvCdb (read_element_status_cdb 2 start remaining alloc)]).
  { constructor; [reflexivity|constructor]. }
  repeat match type of H with
         | (if ?c then _ else _) = _ => destruct c
         end;
    try (injection H as _ <-; eexists; split; [exact E|exact Hone]).
  apply IH in H. destruct H as (l & Hl & Fl).
  exists (EvCdb (read_element_status_cdb 2 start remaining alloc) :: l). split.
  - rewrite Hl, E, <- app_assoc. reflexivity.
  - constructor; [reflexivity|exact Fl].
Qed.

(* with a positive remaining count the loop opens with a storage-only
   query at the declared first address *)
Lemma paginate_loop_first (fuel : nat) (alloc : Z) w start remaining map m w' :
  0 < remaining ->
  paginate_loop (S fuel) alloc w start remaining map = Some (m, w') ->
  exists l, issued w'
            = issued w ++ EvCdb (read_element_status_cdb 2 start remaining alloc) :: l.
Proof.
  intros Hpos H. cbn [paginate_loop] in H.
  destruct (remaining >? 0) eqn:G; [|rewrite Z.gtb_ltb in G; apply Z.ltb_ge in G; lia].
  destruct (execute_cdb w (read_element_status_cdb 2 start remaining alloc) alloc)
    as [[r b] w1] eqn:E.
  apply execute_cdb_issued in E.
  repeat match type of H with
         | (if ?c then _ else _) = _ => destruct c
         end;
    try (injection H as _ <-; exists []; exact E).
  apply paginate_loop_issued in H. destruct H as (l & Hl & _).
  exists l. rewrite Hl, E, <- app_assoc. reflexivity.
Qed.

(* the remaining count strictly decreases, so the fuel is never exhausted *)
Lemma paginate_loop_total (fuel : nat) (alloc : Z) :
  forall w start remaining map,
    0 <= remaining < 65536 -> remaining < Z.of_nat fuel ->
    exists r, paginate_loop fuel alloc w start remaining map = Some r.
Proof.
  induction fuel as [|fuel IH]; intros w start remaining map Hr Hf; [lia|].
  cbn [paginate_loop].
  destruct (remaining >? 0); [|eexists; reflexivity].
  destruct (execute_cdb w (read_element_status_cdb 2 start remaining alloc) alloc)
    as [[r b] w1].
  destruct (negb (r =? 0)); [eexists; reflexivity|].
  destruct (rd24 b 5 =? 0); [eexists; reflexivity|].
  destruct (parse_element_status_map_slots b (parse_len_of (rd24 b 5) alloc) map)
    as [l Hl].
  rewrite Hl, count_app.
  replace (count (slots map) + count l - count (slots map)) with (count l) by lia.
  pose proof (count_nonneg l) as Hn.
  destruct (count l =? 0) eqn:E0; [eexists; reflexivity|]. apply Z.eqb_neq in E0.
  destruct (count l >=? remaining) eqn:Ege; [eexists; reflexivity|].
  rewrite Z.geb_leb in Ege. apply Z.leb_gt in Ege.
  rewrite (u16_small (count l)) by lia.
  rewrite (u16_small (remaining - count l)) by lia.
  apply IH; lia.
Qed.

End EngineFacts.

(** ** Quirk compensation *)

Lemma addr_range_empty (lo hi : Z) : hi < lo -> addr_range lo hi = [].
Proof.
  intros H. unfold addr_range.
  replace (Z.to_nat (hi - lo + 1)) with 0%nat by lia. reflexivity.
Qed.

Lemma addr_range_cons (lo hi : Z) :
  lo <= hi -> addr_range lo hi = lo :: addr_range (lo + 1) hi.
Proof.
  intros H. unfold addr_range.
  replace (Z.to_nat (hi - lo + 1)) with (S (Z.to_nat (hi - (lo + 1) + 1))) by lia.
  cbn [seq map]. f_equal; [lia|].
  rewrite <- seq_shift, map_map. apply map_ext. intros i. lia.
Qed.

Lemma addr_range_count (lo hi : Z) :
  lo <= hi + 1 -> count (addr_range lo hi) = hi - lo + 1.
Proof.
  intros H. unfold count, addr_range. rewrite length_map, length_seq. lia.
Qed.

Lemma addr_range_NoDup (lo hi : Z) : NoDup (addr_range lo hi).
Proof.
  unfold addr_range. apply Injective_map_NoDup; [|apply seq_NoDup].
  intros i j H. lia.
Qed.

Lemma fill_loop_spec (fuel : nat) :
  forall addr expected_end l,
    0 <= addr -> expected_end <= 65535 ->
    Z.max 0 (expected_end - addr) < Z.of_nat fuel ->
    fill_loop fuel addr expected_end l
    = Some (l ++ addr_range addr (expected_end - 1)).
Proof.
  induction fuel as [|fuel IH]; intros addr e l Ha He Hf; [lia|].
  cbn [fill_loop].
  destruct (addr <? e) eqn:E.
  - apply Z.ltb_lt in E. rewrite (u16_small (addr + 1)) by lia.
    rewrite IH by lia. unfold element_list_push.
    rewrite (addr_range_cons addr) by lia.
    rewrite <- app_assoc. reflexivity.
  - apply Z.ltb_ge in E. rewrite addr_range_empty by lia.
    rewrite app_nil_r. reflexivity.
Qed.

(* Without 16-bit wrap-around of first + number, the block appends the
   consecutive addresses first + count .. first + number - 1. *)
Lemma fill_missing_slots_spec (a : ElementAddrAssignment) (l : list Z) :
  0 <= first_storage a -> first_storage a + num_storage a <= 65535 ->
  count l < num_storage a ->
  fill_missing_slots a l
  = l ++ addr_range (first_storage a + count l)
                    (first_storage a + num_storage a - 1).
Proof.
  intros HF HN Hc. pose proof (count_nonneg l) as Hl.
  unfold fill_missing_slots.
  destruct (count l <? num_storage a) eqn:E; [|apply Z.ltb_ge in E; lia].
  rewrite (u16_small (count l)), (u16_small (first_storage a + count l)),
    (u16_small (first_storage a + num_storage a)) by lia.
  rewrite fill_loop_spec by lia. reflexivity.
Qed.

(* the compensation loop never exhausts its fuel *)
Lemma fill_loop_total (a : ElementAddrAssignment) (l : list Z) :
  let expected_end := u16 (first_storage a + num_storage a) in
  let actual_end := u16 (first_storage a + u16 (count l)) in
  exists l', fill_loop (S (Z.to_nat (expected_end - actual_end)))
                       actual_end expected_end l = Some l'.
Proof.
  intros e s.
  pose proof (u16_range (first_storage a + num_storage a)) as He.
  pose proof (u16_range (first_storage a + u16 (count l))) as Hs.
  eexists. apply fill_loop_spec; subst e s; lia.
Qed.

Lemma fill_missing_slots_enough (a : ElementAddrAssignment) (l : list Z) :
  num_storage a <= count l -> fill_missing_slots a l = l.
Proof.
  intros H. unfold fill_missing_slots.
  destruct (count l <? num_storage a) eqn:E; [apply Z.ltb_lt in E; lia|reflexivity].
Qed.

Lemma addr_range_app (n : nat) :
  forall lo hi,
    lo + Z.of_nat n <= hi + 1 ->
    addr_range lo (lo + Z.of_nat n - 1) ++ addr_range (lo + Z.of_nat n) hi
    = addr_range lo hi.
Proof.
  induction n as [|n IH]; intros lo hi H.
  - rewrite addr_range_empty by lia. cbn [app]. f_equal. lia.
  - rewrite (addr_range_cons lo (lo + Z.of_nat (S n) - 1)) by lia.
    rewrite (addr_range_cons lo hi) by lia.
    cbn [app]. f_equal.
    replace (lo + Z.of_nat (S n)) with (lo + 1 + Z.of_nat n) by lia.
    apply IH. lia.
Qed.

(** ** The element map builder *)

Section BuilderFacts.
Context {Device : Type} {T : Transport Device}.
Implicit Types (w : World Device) (map : ElementMap).

Lemma only_storage_phase_no_moves (l : list Event) :
  only_storage_phase l -> moves l = [].
Proof.
  unfold only_storage_phase, moves. induction 1 as [|e l He _ IH]; [reflexivity|].
  cbn [filter]. rewrite IH.
  destruct e as [cdb| |]; cbn in He |- *; try reflexivity.
  destruct (opcode cdb =? 165) eqn:E; [|reflexivity].
  apply Z.eqb_eq in E. rewrite E in He. discriminate.
Qed.

Lemma only_storage_phase_not_all_types (l : list Event) :
  only_storage_phase l -> Forall (fun e => is_all_types_query e = false) l.
Proof.
  unfold only_storage_phase. apply Forall_impl. intros [cdb| |] He; cbn in He |- *;
    try reflexivity.
  destruct (opcode cdb =? 184) eqn:E1; [|reflexivity].
  destruct (nth 1 cdb 0 =? 0) eqn:E2; [|reflexivity].
  apply Z.eqb_eq in E1, E2. rewrite E1, E2 in He. discriminate.
Qed.

Lemma rebuild_storage_issued alloc w a map m w' :
  rebuild_storage alloc w a map = (m, w') ->
  exists l, issued w' = issued w ++ l /\ only_storage_phase l.
Proof.
  unfold rebuild_storage. intros H.
  destruct (paginate_loop _ _ _ _ _ _) as [[m1 w1]|] eqn:P.
  - injection H as _ <-. eapply paginate_loop_issued. exact P.
  - injection H as _ <-. exists []. split; [now rewrite app_nil_r|constructor].
Qed.

Lemma storage_phase_issued alloc w1 map1 rc m w' :
  storage_phase alloc w1 map1 = (rc, m, w') ->
  exists l, issued w' = issued w1 ++ l /\ only_storage_phase l.
Proof.
  unfold storage_phase. intros H.
  destruct (read_mode_sense_element w1 assign_zero) as [[rc_ms a] w2] eqn:M.
  apply read_mode_sense_element_issued in M.
  assert (Hms : only_storage_phase [EvCdb mode_sense_cdb])
    by (constructor; [reflexivity|constructor]).
  destruct ((rc_ms =? 0) && (num_storage a >? 0)).
  - destruct (rebuild_storage alloc w2 a map1) as [m2 w3] eqn:R.
    injection H as _ _ <-.
    apply rebuild_storage_issued in R. destruct R as (l & Hl & Fl).
    exists (EvCdb mode_sense_cdb :: l). split.
    + rewrite Hl, M, <- app_assoc. reflexivity.
    + constructor; [reflexivity|exact Fl].
  - injection H as _ _ <-. eexists. split; [exact M|exact Hms].
Qed.

(* Everything the builder issues: one all-types READ ELEMENT STATUS with a
   65535-byte allocation, then MODE SENSE and storage-only queries. *)
Lemma fetch_element_map_issued w map rc m w' :
  fetch_element_map w map = (rc, m, w') ->
  exists l,
    issued w' = issued w ++ EvCdb (read_element_status_cdb 0x00 0 0xFFFF 65535) :: l
    /\ only_storage_phase l.
Proof.
  unfold fetch_element_map. intros H.
  destruct (execute_cdb w (read_element_status_cdb 0 0 65535 65535) 65535)
    as [[r b] w1] eqn:E.
  apply execute_cdb_issued in E.
  destruct (negb (r =? 0));
    [injection H as _ _ <-; exists []; split; [exact E|constructor]|].
  destruct (rd24 b 5 =? 0);
    [injection H as _ _ <-; exists []; split; [exact E|constructor]|].
  apply storage_phase_issued in H. destruct H as (l & Hl & Fl).
  exists l. split; [|exact Fl].
  rewrite Hl, E, <- app_assoc. reflexivity.
Qed.

Lemma fetch_element_map_no_moves w map rc m w' :
  fetch_element_map w map = (rc, m, w') ->
  moves (issued w') = moves (issued w).
Proof.
  intros H. apply fetch_element_map_issued in H. destruct H as (l & -> & Fl).
  unfold moves. rewrite filter_app. cbn [filter is_move_medium].
  change (filter is_move_medium l) with (moves l).
  rewrite (only_storage_phase_no_moves l Fl).
  cbn. apply app_nil_r.
Qed.

Lemma read_element_status_info_no_moves w da ds sa ss rc ds' ss' w' :
  read_element_status_info w da ds sa ss = (rc, ds', ss', w') ->
  moves (issued w') = moves (issued w).
Proof.
  intros H. apply read_element_status_info_issued in H. rewrite H.
  unfold moves. rewrite filter_app. cbn. apply app_nil_r.
Qed.

Lemma fetch_element_map_unfold w map buf w1 :
  execute_cdb w (read_element_status_cdb 0x00 0 0xFFFF 65535) 65535 = (0, buf, w1) ->
  rd24 buf 5 <> 0 ->
  fetch_element_map w map
  = storage_phase 65535 w1
      (snd (parse_element_status_map buf (parse_len_of (rd24 buf 5) 65535) map)).
Proof.
  intros E Hrb. unfold fetch_element_map. rewrite E. cbn [negb Z.eqb].
  destruct (rd24 buf 5 =? 0) eqn:Z0; [apply Z.eqb_eq in Z0; contradiction|].
  reflexivity.
Qed.

End BuilderFacts.

Lemma byte_at_range (buf : Buffer) (i : Z) : 0 <= byte_at buf i < 256.
Proof.
  unfold byte_at, u8. destruct (i <? 0); [lia|]. apply Z.mod_pos_bound. lia.
Qed.

(* below alloc the view is the buffer *)
Lemma byte_at_within (buf : Buffer) (alloc : Z) (behind : list Z) (i : Z) :
  i < alloc -> byte_at (with_memory_behind buf alloc behind) i = byte_at buf i.
Proof.
  intros Hi. unfold byte_at, with_memory_behind.
  destruct (i <? 0) eqn:N; [reflexivity|]. apply Z.ltb_ge in N. f_equal.
  assert (Hn : (Z.to_nat i < Z.to_nat alloc)%nat) by lia.
  rewrite app_nth1
    by (rewrite length_firstn, length_app, repeat_length; lia).
  rewrite nth_firstn. rewrite (proj2 (Nat.ltb_lt _ _) Hn).
  destruct (Nat.lt_ge_cases (Z.to_nat i) (length buf)) as [L|G].
  - apply app_nth1. exact L.
  - rewrite app_nth2 by exact G. rewrite nth_repeat.
    symmetry. apply nth_overflow. exact G.
Qed.

Lemma rd16_within (buf : Buffer) (alloc : Z) (behind : list Z) (off : Z) :
  0 <= off -> off + 2 <= alloc -> alloc <= 4294967296 ->
  rd16 (with_memory_behind buf alloc behind) off = rd16 buf off.
Proof.
  intros H0 H1 H2. unfold rd16. rewrite (u32_small (off + 1)) by lia.
  rewrite !byte_at_within by lia. reflexivity.
Qed.

Lemma lor_le_add (a b : Z) : 0 <= a -> 0 <= b -> 0 <= Z.lor a b <= a + b.
Proof.
  intros Ha Hb. split; [apply Z.lor_nonneg; split; assumption|].
  pose proof (Z.add_lor_land a b) as H.
  assert (0 <= Z.land a b) by (apply Z.land_nonneg; left; exact Ha). lia.
Qed.

(* a 24-bit big-endian field *)
Lemma rd24_range (buf : Buffer) (off : Z) : 0 <= rd24 buf off < 16777216.
Proof.
  unfold rd24.
  pose proof (byte_at_range buf off) as B0.
  pose proof (byte_at_range buf (u32 (off + 1))) as B1.
  pose proof (byte_at_range buf (u32 (off + 2))) as B2.
  rewrite !Z.shiftl_mul_pow2 by lia.
  set (x := byte_at buf off * 2 ^ 16) in *.
  set (y := byte_at buf (u32 (off + 1)) * 2 ^ 8) in *.
  assert (Hx : 0 <= x <= 255 * 65536) by (subst x; lia).
  assert (Hy : 0 <= y <= 255 * 256) by (subst y; lia).
  pose proof (lor_le_add x y (proj1 Hx) (proj1 Hy)) as Hxy.
  pose proof (lor_le_add (Z.lor x y) (byte_at buf (u32 (off + 2)))
                (proj1 Hxy) (proj1 B2)) as Hxyz.
  rewrite u32_small; lia.
Qed.

(* a report that does not fit the allocation is parsed up to the allocation *)
Lemma parse_len_of_clamps (report_bytes alloc : Z) :
  0 <= report_bytes < 16777216 -> report_bytes + 8 > alloc ->
  parse_len_of report_bytes alloc = alloc.
Proof.
  intros Hr H. unfold parse_len_of. rewrite u32_small by lia.
  destruct (report_bytes + 8 <=? alloc) eqn:E; [apply Z.leb_le in E; lia|reflexivity].
Qed.

Lemma parse_len_of_fits (report_bytes alloc : Z) :
  0 <= report_bytes < 16777216 -> report_bytes + 8 <= alloc ->
  parse_len_of report_bytes alloc = report_bytes + 8.
Proof.
  intros Hr H. unfold parse_len_of. rewrite u32_small by lia.
  destruct (report_bytes + 8 <=? alloc) eqn:E; [reflexivity|apply Z.leb_gt in E; lia].
Qed.

Section BuilderClaims.
Context {Device : Type} {T : Transport Device}.
Implicit Types (w : World Device) (map : ElementMap).

(* What the compensation appends.  When MODE SENSE declares N > 0 storage
   elements from first address F with F + N <= 65535, and the storage-only
   pagination ends with d < N discovered addresses, the builder appends
   exactly the N - d consecutive addresses F + d, ..., F + N - 1, so that
   the final storage list has exactly N entries; when the discovered list
   is F, ..., F + d - 1 the final list is F, ..., F + N - 1.  With d >= N
   nothing is appended. *)
Lemma fetch_element_map_quirk_compensation w map buf w1 assign w2 :
  builder_reads w map buf w1 0 assign w2 ->
  0 < num_storage assign ->
  first_storage assign + num_storage assign <= 65535 ->
  let F := first_storage assign in
  let N := num_storage assign in
  exists paged w' rc m,
    paginate_loop (S (Z.to_nat N)) 65535 w2 F N
                  (clear_slots (all_types_map buf map)) = Some (paged, w')
    /\ fetch_element_map w map = (rc, m, w')
    /\ (count (slots paged) < N ->
        slots m = slots paged ++ addr_range (F + count (slots paged)) (F + N - 1)
        /\ count (addr_range (F + count (slots paged)) (F + N - 1))
           = N - count (slots paged)
        /\ NoDup (addr_range (F + count (slots paged)) (F + N - 1))
        /\ count (slots m) = N
        /\ (slots paged = addr_range F (F + count (slots paged) - 1) ->
            slots m = addr_range F (F + N - 1)))
    /\ (N <= count (slots paged) -> slots m = slots paged).
Proof.
  intros (E & Hrb & M) HN HFN F N.
  destruct (read_mode_sense_element_range _ _ _ _ M) as [HF HNr].
  destruct (paginate_loop_total (S (Z.to_nat N)) 65535 w2 F N
              (clear_slots (all_types_map buf map))) as [[paged w'] P];
    [subst N; lia|subst N; lia|].
  exists paged, w'.
  rewrite (fetch_element_map_unfold w map buf w1 E Hrb).
  fold (all_types_map buf map).
  unfold storage_phase. rewrite M. cbn [Z.eqb andb].
  destruct (num_storage assign >? 0) eqn:G;
    [|rewrite Z.gtb_ltb in G; apply Z.ltb_ge in G; lia].
  unfold rebuild_storage. fold F N. rewrite P.
  eexists. eexists. split; [reflexivity|]. split; [reflexivity|].
  cbn [slots set_slots]. pose proof (count_nonneg (slots paged)) as Hd. split.
  - intros Hlt. rewrite fill_missing_slots_spec by (fold F N; lia). fold F N.
    assert (Hc : count (addr_range (F + count (slots paged)) (F + N - 1))
                 = N - count (slots paged))
      by (rewrite addr_range_count; lia).
    repeat split.
    + exact Hc.
    + apply addr_range_NoDup.
    + rewrite count_app, Hc. lia.
    + intros Hcontig. rewrite Hcontig at 1.
      replace (F + count (slots paged) - 1)
        with (F + Z.of_nat (length (slots paged)) - 1) by reflexivity.
      apply (addr_range_app (length (slots paged)) F (F + N - 1)).
      unfold count in Hlt. lia.
  - intros Hge. apply fill_missing_slots_enough. exact Hge.
Qed.

(** C7 (amended): the initial all-types READ ELEMENT STATUS is issued once,
    with an allocation of 65535 bytes, and is never issued again: every
    later command of the builder is a MODE SENSE or a storage-only READ
    ELEMENT STATUS.  When the byte count declared in the response header
    plus 8 exceeds that allocation, the builder parses the same response up
    to the allocation length (65535 bytes) and goes on to the storage
    phase. *)
Theorem fetch_element_map_never_reissues w map rc m w' :
  fetch_element_map w map = (rc, m, w') ->
  (exists l,
      issued w' = issued w ++ EvCdb all_types_cdb :: l
      /\ Forall (fun e => is_all_types_query e = false) l)
  /\ (forall buf w1,
         execute_cdb w all_types_cdb 65535 = (0, buf, w1) ->
         rd24 buf 5 + 8 > 65535 ->
         storage_phase 65535 w1 (snd (parse_element_status_map buf 65535 map))
         = (rc, m, w')).
Proof.
  intros H. split.
  - destruct (fetch_element_map_issued _ _ _ _ _ H) as (l & Hl & Fl).
    exists l. split; [exact Hl|].
    apply only_storage_phase_not_all_types. exact Fl.
  - intros buf w1 E Hbig.
    pose proof (rd24_range buf 5) as Hr.
    rewrite (fetch_element_map_unfold w map buf w1 E) in H by lia.
    rewrite parse_len_of_clamps in H by lia. exact H.
Qed.

End BuilderClaims.

(** ** The public operations *)

Lemma gtb_false (a b : Z) : a <= b -> (a >? b) = false.
Proof. intros H. rewrite Z.gtb_ltb. apply Z.ltb_ge. exact H. Qed.

Lemma gtb_true (a b : Z) : b < a -> (a >? b) = true.
Proof. intros H. rewrite Z.gtb_ltb. apply Z.ltb_lt. exact H. Qed.

Lemma moves_app (l1 l2 : list Event) : moves (l1 ++ l2) = moves l1 ++ moves l2.
Proof. unfold moves. apply filter_app. Qed.

Ltac reduce_call :=
  cbv beta iota zeta; cbn [negb orb andb Z.eqb deref fst snd].

Section ApiClaims.
Context {Device : Type} {T : Transport Device}.
Implicit Types (w : World Device) (map : ElementMap).

Lemma reads_status_no_moves w slot drive map drive_st slot_st w2 :
  reads_status w slot drive map drive_st slot_st w2 ->
  moves (issued w2) = moves (issued w).
Proof.
  intros (w1 & F & _ & _ & R).
  rewrite (read_element_status_info_no_moves _ _ _ _ _ _ _ _ _ R).
  eapply fetch_element_map_no_moves. exact F.
Qed.

Lemma move_after_host_eject w t s d rc w' :
  cmd_move_medium (eject_optical_media w) t s d = (rc, w') ->
  moves (issued w') = moves (issued w) ++ [EvCdb (move_medium_cdb t s d)].
Proof.
  intros H. apply cmd_move_medium_issued in H. rewrite H.
  cbn [eject_optical_media issued]. rewrite !moves_app. cbn. now rewrite app_nil_r.
Qed.

Lemma move_appends w t s d rc w' :
  cmd_move_medium w t s d = (rc, w') ->
  moves (issued w') = moves (issued w) ++ [EvCdb (move_medium_cdb t s d)].
Proof.
  intros H. apply cmd_move_medium_issued in H. rewrite H, moves_app. reflexivity.
Qed.

(** C2 (amended): load no-op law.  When the target slot's element status
    reports empty and the drive's element status reports full with a valid
    source address equal to the target slot's element address, load returns
    success and issues no MOVE MEDIUM command. *)
Theorem load_noop_when_slot_empty w slot drive callback map drive_st slot_st w2 :
  reads_status w slot drive map drive_st slot_st w2 ->
  full slot_st = false ->
  sourced_from drive_st (addr_at (slots map) slot) = true ->
  mchanger_load_slot_verbose w slot drive callback = (MCHANGER_OK, w2)
  /\ moves (issued w2) = moves (issued w).
Proof.
  intros H Hslot Hsrc. split; [|eapply reads_status_no_moves; exact H].
  destruct H as (w1 & F & [Hs1 Hs2] & [Hd1 Hd2] & R).
  unfold sourced_from in Hsrc.
  apply andb_true_iff in Hsrc. destruct Hsrc as [Hsrc Heq].
  apply andb_true_iff in Hsrc. destruct Hsrc as [Hfull Hvalid].
  unfold mchanger_load_slot_verbose.
  rewrite (proj2 (Z.ltb_ge slot 1)), (proj2 (Z.ltb_ge drive 1)) by lia.
  rewrite F. reduce_call.
  rewrite (gtb_false slot), (gtb_false drive) by lia.
  rewrite R. reduce_call.
  rewrite Hslot, Hfull, Hvalid, Heq. reflexivity.
Qed.

(** C3 (amended): load ordering.  When the target slot reports full and
    the drive is occupied by a medium from a different slot, load issues
    the unload MOVE MEDIUM (drive to the recorded source slot, or to the
    target slot when no source is recorded) first.  If that move fails,
    load returns ScsiError and the unload is the only MOVE MEDIUM issued;
    if it succeeds, the load MOVE MEDIUM (slot to drive) follows it and
    these two are the only moves. *)
Theorem load_unloads_before_loading w slot drive callback map drive_st slot_st w2 :
  reads_status w slot drive map drive_st slot_st w2 ->
  full slot_st = true ->
  full drive_st = true ->
  sourced_from drive_st (addr_at (slots map) slot) = false ->
  let t := first_or_zero (transports map) in
  let slot_addr := addr_at (slots map) slot in
  let drive_addr := addr_at (drives map) drive in
  let unload_addr := if valid_src drive_st then src_addr drive_st else slot_addr in
  exists rc_u w3,
    cmd_move_medium (eject_optical_media w2) t drive_addr unload_addr = (rc_u, w3)
    /\ (rc_u <> 0 ->
        mchanger_load_slot_verbose w slot drive callback = (MCHANGER_ERR_SCSI, w3)
        /\ moves (issued w3)
           = moves (issued w) ++ [EvCdb (move_medium_cdb t drive_addr unload_addr)])
    /\ (rc_u = 0 ->
        exists rc w',
          mchanger_load_slot_verbose w slot drive callback = (rc, w')
          /\ moves (issued w')
             = moves (issued w)
               ++ [EvCdb (move_medium_cdb t drive_addr unload_addr);
                   EvCdb (move_medium_cdb t slot_addr drive_addr)]
          /\ (rc = MCHANGER_OK \/ rc = MCHANGER_ERR_SCSI)).
Proof.
  intros H Hslot Hdrive _ t slot_addr drive_addr unload_addr.
  pose proof (reads_status_no_moves _ _ _ _ _ _ _ H) as Hm.
  destruct H as (w1 & F & [Hs1 Hs2] & [Hd1 Hd2] & R).
  destruct (cmd_move_medium (eject_optical_media w2) t drive_addr unload_addr)
    as [rc_u w3] eqn:U.
  exists rc_u, w3. split; [reflexivity|].
  pose proof (move_after_host_eject _ _ _ _ _ _ U) as Hu. rewrite Hm in Hu.
  assert (Hcall : mchanger_load_slot_verbose w slot drive callback
                  = if negb (rc_u =? 0) then (MCHANGER_ERR_SCSI, w3)
                    else let '(rc, w4) := cmd_move_medium w3 t slot_addr drive_addr in
                         if negb (rc =? 0) then (MCHANGER_ERR_SCSI, w4)
                         else (MCHANGER_OK,
                               if callback then wait_for_mount w4 else w4)).
  { unfold mchanger_load_slot_verbose.
    rewrite (proj2 (Z.ltb_ge slot 1)), (proj2 (Z.ltb_ge drive 1)) by lia.
    rewrite F. reduce_call.
    rewrite (gtb_false slot), (gtb_false drive) by lia.
    rewrite R. reduce_call.
    rewrite Hslot, Hdrive. reduce_call.
    fold t slot_addr drive_addr. fold unload_addr. rewrite U. reflexivity. }
  rewrite Hcall. split.
  - intros Hne. apply Z.eqb_neq in Hne. rewrite Hne. split; [reflexivity|exact Hu].
  - intros ->. cbn [Z.eqb negb].
    destruct (cmd_move_medium w3 t slot_addr drive_addr) as [rc_l w4] eqn:L.
    pose proof (move_appends _ _ _ _ _ _ L) as Hl. rewrite Hu, <- app_assoc in Hl.
    destruct (negb (rc_l =? 0)).
    + exists MCHANGER_ERR_SCSI, w4. repeat split; auto.
    + exists MCHANGER_OK, (if callback then wait_for_mount w4 else w4).
      repeat split; auto.
      destruct callback; [|exact Hl].
      cbn [wait_for_mount issued]. rewrite moves_app, Hl. cbn. now rewrite app_nil_r.
Qed.

End ApiClaims.

Section RangeAndStatusClaims.
Context {Device : Type} {T : Transport Device}.
Implicit Types (w : World Device) (map : ElementMap).

(** C4 (amended): out-of-range indices.  With a slot or drive index of 0
    (or below), load, unload and eject each return InvalidArgument without
    issuing any SCSI command.  With both indices at least 1 and one of them
    above the discovered count, each of them first runs the element map
    discovery (one all-types READ ELEMENT STATUS, then MODE SENSE and
    storage-only READ ELEMENT STATUS commands) and, discovery succeeding,
    returns InvalidArgument without issuing any MOVE MEDIUM or any further
    command. *)
Theorem out_of_range_indices_rejected w slot drive :
  (slot < 1 \/ drive < 1 ->
   mchanger_load_slot w slot drive = (MCHANGER_ERR_INVALID, w)
   /\ mchanger_unload_drive w slot drive = (MCHANGER_ERR_INVALID, w)
   /\ mchanger_eject w slot drive = (MCHANGER_ERR_INVALID, w))
  /\ (forall map w1,
         1 <= slot -> 1 <= drive ->
         fetch_element_map w empty_map = (0, map, w1) ->
         slot > count (slots map) \/ drive > count (drives map) ->
         mchanger_load_slot w slot drive = (MCHANGER_ERR_INVALID, w1)
         /\ mchanger_unload_drive w slot drive = (MCHANGER_ERR_INVALID, w1)
         /\ mchanger_eject w slot drive = (MCHANGER_ERR_INVALID, w1)
         /\ moves (issued w1) = moves (issued w)
         /\ exists l, issued w1 = issued w ++ EvCdb all_types_cdb :: l
                      /\ only_storage_phase l).
Proof.
  split.
  - intros Hlow.
    assert (G : (slot <? 1) || (drive <? 1) = true).
    { apply orb_true_iff. destruct Hlow; [left|right]; apply Z.ltb_lt; assumption. }
    unfold mchanger_load_slot, mchanger_load_slot_verbose, mchanger_unload_drive,
      mchanger_eject.
    rewrite G. repeat split.
  - intros map w1 Hs Hd F Hhigh.
    assert (G : (slot >? count (slots map)) || (drive >? count (drives map)) = true).
    { apply orb_true_iff. destruct Hhigh; [left|right]; apply gtb_true; lia. }
    unfold mchanger_load_slot, mchanger_load_slot_verbose, mchanger_unload_drive,
      mchanger_eject.
    rewrite (proj2 (Z.ltb_ge slot 1)), (proj2 (Z.ltb_ge drive 1)) by lia.
    rewrite F. reduce_call. rewrite G. reduce_call.
    repeat split.
    + eapply fetch_element_map_no_moves. exact F.
    + eapply fetch_element_map_issued. exact F.
Qed.

(* a failed discovery is reported as ScsiError, whatever the indices *)
Lemma failed_discovery_is_scsi_error w slot drive rc map w1 :
  1 <= slot -> 1 <= drive ->
  fetch_element_map w empty_map = (rc, map, w1) -> rc <> 0 ->
  mchanger_load_slot w slot drive = (MCHANGER_ERR_SCSI, w1)
  /\ mchanger_unload_drive w slot drive = (MCHANGER_ERR_SCSI, w1)
  /\ mchanger_eject w slot drive = (MCHANGER_ERR_SCSI, w1).
Proof.
  intros Hs Hd F Hrc. apply Z.eqb_neq in Hrc.
  unfold mchanger_load_slot, mchanger_load_slot_verbose, mchanger_unload_drive,
    mchanger_eject.
  rewrite (proj2 (Z.ltb_ge slot 1)), (proj2 (Z.ltb_ge drive 1)) by lia.
  rewrite F. reduce_call. rewrite Hrc. repeat split.
Qed.

(* mchanger_eject has no path that answers Empty *)
Lemma mchanger_eject_never_empty w slot drive :
  fst (mchanger_eject w slot drive) <> MCHANGER_ERR_EMPTY.
Proof.
  unfold mchanger_eject.
  repeat match goal with
         | |- context [if ?c then _ else _] => destruct c
         | |- context [let '(_, _) := ?p in _] => destruct p as [? ?]
         end; cbn [fst]; discriminate.
Qed.

(** C10: a successful mchanger_get_slot_status or mchanger_get_drive_status
    returns a status whose exception field is false, whatever the device
    answered and whatever the caller's structure held before. *)
Theorem status_except_always_false w index out st w' :
  (mchanger_get_slot_status w index out = (MCHANGER_OK, st, w') ->
   Api.except st = false)
  /\ (mchanger_get_drive_status w index out = (MCHANGER_OK, st, w') ->
      Api.except st = false).
Proof.
  split; intros H;
    [unfold mchanger_get_slot_status in H|unfold mchanger_get_drive_status in H];
    repeat match type of H with
           | (if ?c then _ else _) = _ => destruct c
           | (let '(_, _) := ?p in _) = _ => destruct p as [? ?]
           end;
    unfold MCHANGER_OK, MCHANGER_ERR_INVALID, MCHANGER_ERR_SCSI in H;
    try discriminate H;
    injection H as <- _; reflexivity.
Qed.

End RangeAndStatusClaims.

(* the eject command of main() refuses exactly where the claim asks for it *)
Lemma main_eject_refuses_when_not_in_drive (slot_st drive_st : ElementStatus)
      (slot_addr : Z) :
  full slot_st = false ->
  full drive_st = false
  \/ (full drive_st = true /\ valid_src drive_st = true
      /\ src_addr drive_st <> slot_addr) ->
  main_eject_refuses slot_st drive_st slot_addr = true.
Proof.
  intros Hs [Hd | (Hd & Hv & Hne)];
    unfold main_eject_refuses, main_eject_disc_in_drive; rewrite Hs, Hd.
  - reflexivity.
  - rewrite Hv. apply Z.eqb_neq in Hne. rewrite Hne. reflexivity.
Qed.

(** ** The laws on the scripted devices *)

Ltac concrete :=
  vm_compute; first [reflexivity | discriminate | (intro; discriminate)].

(* reads_status on a scripted device, f being the fetch_element_map call *)
Ltac concrete_reads f :=
  exists (snd f);
  split; [concrete|];
  split; [split; concrete|];
  split; [split; concrete|concrete].

(* builder_reads on a scripted device *)
Ltac concrete_builder :=
  split; [concrete|split; concrete].

Lemma agree_prefix (b t : Buffer) (len : Z) :
  len <= Z.of_nat (length b) -> agree b (b ++ t) len.
Proof.
  intros H i Hi. unfold byte_at.
  destruct (i <? 0); [reflexivity|].
  rewrite app_nth1 by lia. reflexivity.
Qed.

(* A one-slot report and the same 28 bytes followed by stale data parse
   alike. *)
Lemma parse_element_status_map_deterministic_witness :
  parse_element_status_map short_report 28 empty_map
  = parse_element_status_map short_report_stale 28 empty_map
  /\ snd (parse_element_status_map short_report 28 empty_map)
     = mkElementMap [] [0x1000] [] [].
Proof.
  split; [|reflexivity].
  apply (parse_element_status_map_deterministic short_report short_report_stale 28).
  - concrete.
  - apply agree_prefix. concrete.
Defined.

(* MODE SENSE declares 50 slots from 0x1000 and pagination finds 40: the
   builder appends 0x1028 .. 0x1031. *)
Lemma fetch_element_map_quirk_compensation_witness :
  exists paged rc m w',
    fetch_element_map (fresh under_reporting_changer) empty_map = (rc, m, w')
    /\ slots paged = addr_range 0x1000 0x1027
    /\ slots m = slots paged ++ addr_range 0x1028 0x1031
    /\ slots m = addr_range 0x1000 0x1031
    /\ count (slots m) = 50.
Proof.
  pose (w := fresh under_reporting_changer).
  pose (x := execute_cdb w all_types_cdb 65535).
  pose (y := read_mode_sense_element (snd x) assign_zero).
  destruct (fetch_element_map_quirk_compensation
              w empty_map (snd (fst x)) (snd x) (snd (fst y)) (snd y))
    as (paged & w' & rc & m & P & F & Hlt & _).
  - concrete_builder.
  - concrete.
  - concrete.
  - assert (Hp : slots paged = addr_range 0x1000 0x1027).
    { vm_compute in P. injection P as <- _. reflexivity. }
    destruct Hlt as (A & _ & _ & C & D); [rewrite Hp; concrete|].
    exists paged, rc, m, w'. rewrite Hp in A, D. rewrite Hp.
    split; [exact F|]. split; [reflexivity|]. split; [exact A|].
    split; [apply D; reflexivity|exact C].
Defined.

(* The all-types query lists three slots, MODE SENSE declares two: the
   list is rebuilt all the same and ends with two entries. *)
Lemma fetch_element_map_rebuilds_storage_counterexample :
  slots (all_types_map
           (snd (fst (execute_cdb (fresh all_types_only_changer)
                                  all_types_cdb 65535))) empty_map)
  = [0x1000; 0x1001; 0x1002]
  /\ slots (snd (fst (fetch_element_map (fresh all_types_only_changer) empty_map)))
     = [0x1000; 0x1001]
  /\ ~ rebuild_claim_as_stated (fresh all_types_only_changer).
Proof.
  split; [reflexivity|]. split; [reflexivity|].
  intros H.
  pose (w := fresh all_types_only_changer).
  pose (x := execute_cdb w all_types_cdb 65535).
  pose (y := read_mode_sense_element (snd x) assign_zero).
  pose (f := fetch_element_map w empty_map).
  specialize (H (snd (fst x)) (snd x) (snd (fst y)) (snd y)
                (fst (fst f)) (snd (fst f)) (snd f)).
  assert (E : slots (snd (fst f))
              = slots (all_types_map (snd (fst x)) empty_map)).
  { apply H; [concrete_builder|concrete|concrete]. }
  vm_compute in E. discriminate E.
Defined.

(* A response announcing 65536 bytes is parsed up to 65535 bytes. *)
Lemma fetch_element_map_never_reissues_witness :
  exists rc m w',
    fetch_element_map (fresh oversized_changer) empty_map = (rc, m, w')
    /\ issued w' = [EvCdb all_types_cdb; EvCdb mode_sense_cdb]
    /\ storage_phase 65535
         (snd (execute_cdb (fresh oversized_changer) all_types_cdb 65535))
         (snd (parse_element_status_map
                 (snd (fst (execute_cdb (fresh oversized_changer)
                                        all_types_cdb 65535)))
                 65535 empty_map))
       = (rc, m, w').
Proof.
  pose (w := fresh oversized_changer).
  pose (x := execute_cdb w all_types_cdb 65535).
  pose (f := fetch_element_map w empty_map).
  destruct (fetch_element_map_never_reissues
              w empty_map (fst (fst f)) (snd (fst f)) (snd f))
    as [(l & Hl & _) Hparse]; [concrete|].
  exists (fst (fst f)), (snd (fst f)), (snd f).
  split; [concrete|]. split; [concrete|].
  apply (Hparse (snd (fst x)) (snd x)); concrete.
Defined.

(* A response announcing 65536 bytes is followed by MODE SENSE, not by a
   second all-types query. *)
Lemma fetch_element_map_never_reissues_counterexample :
  rd24 (snd (fst (execute_cdb (fresh oversized_changer) all_types_cdb 65535))) 5
  = 65536
  /\ issued (snd (fetch_element_map (fresh oversized_changer) empty_map))
     = [EvCdb all_types_cdb; EvCdb mode_sense_cdb]
  /\ ~ reissue_claim_as_stated (fresh oversized_changer).
Proof.
  split; [reflexivity|]. split; [reflexivity|].
  intros H.
  pose (w := fresh oversized_changer).
  pose (x := execute_cdb w all_types_cdb 65535).
  pose (f := fetch_element_map w empty_map).
  specialize (H (snd (fst x)) (snd x) (fst (fst f)) (snd (fst f)) (snd f)).
  assert (E : In (EvCdb (read_element_status_cdb 0 0 65535
                           (rd24 (snd (fst x)) 5 + 8))) (issued (snd f))).
  { apply H; concrete. }
  vm_compute in E. destruct E as [E|[E|[]]]; discriminate E.
Defined.

(* Slot 6 empty and its medium in the drive: load(6, 1) is a no-op. *)
Lemma load_noop_when_slot_empty_witness :
  exists w2,
    mchanger_load_slot_verbose (fresh loaded_jukebox) 6 1 false = (MCHANGER_OK, w2)
    /\ moves (issued w2) = [].
Proof.
  pose (w := fresh loaded_jukebox).
  pose (f := fetch_element_map w empty_map).
  pose (map := snd (fst f)).
  pose (r := read_element_status_info (snd f)
               (addr_at (drives map) 1) (Some status_zero)
               (addr_at (slots map) 6) (Some status_zero)).
  exists (snd r).
  apply (load_noop_when_slot_empty w 6 1 false map
           (deref (snd (fst (fst r)))) (deref (snd (fst r))) (snd r)).
  - concrete_reads f.
  - concrete.
  - concrete.
Defined.

(* Slot 6 full while the drive records slot 6 as its source: load(6, 1)
   unloads and loads. *)
Lemma load_noop_when_slot_empty_counterexample :
  fst (mchanger_load_slot (fresh stale_source_jukebox) 6 1) = MCHANGER_OK
  /\ moves (issued (snd (mchanger_load_slot (fresh stale_source_jukebox) 6 1)))
     = [EvCdb (move_medium_cdb 0 0x0100 0x1005);
        EvCdb (move_medium_cdb 0 0x1005 0x0100)]
  /\ ~ load_noop_claim_as_stated (fresh stale_source_jukebox) 6 1.
Proof.
  split; [reflexivity|]. split; [reflexivity|].
  intros H.
  pose (w := fresh stale_source_jukebox).
  pose (f := fetch_element_map w empty_map).
  pose (map := snd (fst f)).
  pose (r := read_element_status_info (snd f)
               (addr_at (drives map) 1) (Some status_zero)
               (addr_at (slots map) 6) (Some status_zero)).
  destruct (H map (deref (snd (fst (fst r)))) (deref (snd (fst r))) (snd r))
    as (w' & L & M).
  - concrete_reads f.
  - concrete.
  - vm_compute in L. injection L as <-. vm_compute in M. discriminate M.
Defined.

(* Slot 6 full, the drive holding the medium of slot 2: unload then load;
   with a failing unload, the unload alone. *)
Lemma load_unloads_before_loading_witness :
  (exists w',
      mchanger_load_slot_verbose (fresh (busy_jukebox moves_succeed)) 6 1 false
      = (MCHANGER_OK, w')
      /\ moves (issued w')
         = [EvCdb (move_medium_cdb 0 0x0100 0x1001);
            EvCdb (move_medium_cdb 0 0x1005 0x0100)])
  /\ (exists w',
         mchanger_load_slot_verbose (fresh (busy_jukebox unload_fails)) 6 1 false
         = (MCHANGER_ERR_SCSI, w')
         /\ moves (issued w') = [EvCdb (move_medium_cdb 0 0x0100 0x1001)]).
Proof.
  split.
  - pose (w := fresh (busy_jukebox moves_succeed)).
    pose (f := fetch_element_map w empty_map).
    pose (map := snd (fst f)).
    pose (r := read_element_status_info (snd f)
                 (addr_at (drives map) 1) (Some status_zero)
                 (addr_at (slots map) 6) (Some status_zero)).
    destruct (load_unloads_before_loading w 6 1 false map
                (deref (snd (fst (fst r)))) (deref (snd (fst r))) (snd r))
      as (rc_u & w3 & U & _ & Hok);
      [concrete_reads f|concrete|concrete|concrete|].
    vm_compute in U. injection U as <- <-.
    destruct Hok as (rc & w' & L & M & _); [reflexivity|].
    assert (Hrc : rc = MCHANGER_OK).
    { pose proof L as L'. vm_compute in L'. injection L' as <- _. reflexivity. }
    subst rc. exists w'. split; [exact L|exact M].
  - pose (w := fresh (busy_jukebox unload_fails)).
    pose (f := fetch_element_map w empty_map).
    pose (map := snd (fst f)).
    pose (r := read_element_status_info (snd f)
                 (addr_at (drives map) 1) (Some status_zero)
                 (addr_at (slots map) 6) (Some status_zero)).
    destruct (load_unloads_before_loading w 6 1 false map
                (deref (snd (fst (fst r)))) (deref (snd (fst r))) (snd r))
      as (rc_u & w3 & U & Hfail & _);
      [concrete_reads f|concrete|concrete|concrete|].
    vm_compute in U. injection U as <- <-.
    destruct Hfail as [L M]; [discriminate|].
    eexists. split; [exact L|exact M].
Defined.

(* Slot 6 empty, the drive holding the medium of slot 2: load(6, 1) answers
   Empty and moves nothing. *)
Lemma load_unloads_before_loading_counterexample :
  mchanger_load_slot (fresh foreign_jukebox) 6 1
  = (MCHANGER_ERR_EMPTY,
     mkWorld BACKEND_SCSITASK foreign_jukebox
             [EvCdb all_types_cdb; EvCdb mode_sense_cdb;
              EvCdb (read_element_status_cdb 0x00 0 0xFFFF 4096)])
  /\ ~ load_ordering_claim_as_stated (fresh foreign_jukebox) 6 1.
Proof.
  split; [reflexivity|].
  intros H.
  pose (w := fresh foreign_jukebox).
  pose (f := fetch_element_map w empty_map).
  pose (map := snd (fst f)).
  pose (r := read_element_status_info (snd f)
               (addr_at (drives map) 1) (Some status_zero)
               (addr_at (slots map) 6) (Some status_zero)).
  destruct (H map (deref (snd (fst (fst r)))) (deref (snd (fst r))) (snd r))
    as (rc & w' & t & dest & tail & L & M & _).
  - concrete_reads f.
  - concrete.
  - concrete.
  - vm_compute in L. injection L as <- <-. vm_compute in M. discriminate M.
Defined.

(* Index 0 is refused at once; slot 7 of 6 is refused after discovery. *)
Lemma out_of_range_indices_rejected_witness :
  mchanger_load_slot (fresh empty_jukebox) 0 1
  = (MCHANGER_ERR_INVALID, fresh empty_jukebox)
  /\ mchanger_eject (fresh empty_jukebox) 6 0
     = (MCHANGER_ERR_INVALID, fresh empty_jukebox)
  /\ mchanger_unload_drive (fresh empty_jukebox) 7 1
     = (MCHANGER_ERR_INVALID,
        mkWorld BACKEND_SCSITASK empty_jukebox
                [EvCdb all_types_cdb; EvCdb mode_sense_cdb]).
Proof.
  pose (w := fresh empty_jukebox).
  pose (f := fetch_element_map w empty_map).
  split; [|split].
  - apply (out_of_range_indices_rejected w 0 1). left. concrete.
  - apply (out_of_range_indices_rejected w 6 0). right. concrete.
  - destruct (out_of_range_indices_rejected w 7 1) as [_ Hhigh].
    destruct (Hhigh (snd (fst f)) (snd f)) as (_ & U & _);
      [concrete|concrete|concrete|left; concrete|].
    exact U.
Defined.

(* load(7, 1) on a six-slot changer has issued two commands when it
   answers InvalidArgument. *)
Lemma out_of_range_indices_rejected_counterexample :
  mchanger_load_slot (fresh empty_jukebox) 7 1
  = (MCHANGER_ERR_INVALID,
     mkWorld BACKEND_SCSITASK empty_jukebox
             [EvCdb all_types_cdb; EvCdb mode_sense_cdb])
  /\ ~ out_of_range_claim_as_stated mchanger_load_slot (fresh empty_jukebox) 7 1.
Proof.
  split; [reflexivity|].
  intros H.
  pose (w := fresh empty_jukebox).
  pose (f := fetch_element_map w empty_map).
  assert (E : mchanger_load_slot w 7 1 = (MCHANGER_ERR_INVALID, w)).
  { apply (H (fst (fst f)) (snd (fst f)) (snd f)); [concrete|].
    right. left. concrete. }
  vm_compute in E. discriminate E.
Defined.

(* Flag byte 0x81 on slot 6 and on the drive: full is reported, the
   exception is not. *)
Lemma status_except_always_false_witness :
  (exists st w',
      mchanger_get_slot_status (fresh exception_jukebox) 6
                               (Api.mkStatus 0 false true false 0)
      = (MCHANGER_OK, st, w')
      /\ Api.full st = true /\ Api.except st = false)
  /\ (exists st w',
         mchanger_get_drive_status (fresh exception_jukebox) 1
                                   (Api.mkStatus 0 false true false 0)
         = (MCHANGER_OK, st, w')
         /\ Api.full st = true /\ Api.except st = false).
Proof.
  pose (w := fresh exception_jukebox).
  pose (out := Api.mkStatus 0 false true false 0).
  pose (s := mchanger_get_slot_status w 6 out).
  pose (d := mchanger_get_drive_status w 1 out).
  split.
  - exists (snd (fst s)), (snd s). split; [concrete|]. split; [concrete|].
    apply (proj1 (status_except_always_false w 6 out (snd (fst s)) (snd s))).
    concrete.
  - exists (snd (fst d)), (snd d). split; [concrete|]. split; [concrete|].
    apply (proj2 (status_except_always_false w 1 out (snd (fst d)) (snd d))).
    concrete.
Defined.

(** C5 (the library's mchanger_eject at the failing inputs): with slot 6
    empty and the drive empty, mchanger_eject moves the empty slot to the
    import/export port and reports success; with slot 6 empty and the drive
    holding the medium of slot 2, it unloads that medium into slot 6, moves
    it to the import/export port and reports success.  In both cases the
    claim asks for Empty and no MOVE MEDIUM, which is what the eject command
    of main() does. *)
Theorem mchanger_eject_ignores_empty_slot :
  (exists w',
      mchanger_eject (fresh empty_jukebox) 6 1 = (MCHANGER_OK, w')
      /\ moves (issued w') = [EvCdb (move_medium_cdb 0 0x1005 0x0010)])
  /\ (exists w',
         mchanger_eject (fresh foreign_jukebox) 6 1 = (MCHANGER_OK, w')
         /\ moves (issued w')
            = [EvCdb (move_medium_cdb 0 0x0100 0x1005);
               EvCdb (move_medium_cdb 0 0x1005 0x0010)])
  /\ ~ eject_empty_claim_as_stated (fresh empty_jukebox) 6 1
  /\ ~ eject_empty_claim_as_stated (fresh foreign_jukebox) 6 1.
Proof.
  split;
    [exists (snd (mchanger_eject (fresh empty_jukebox) 6 1)); split; concrete|].
  split;
    [exists (snd (mchanger_eject (fresh foreign_jukebox) 6 1)); split; concrete|].
  split; intros H.
  - pose (w := fresh empty_jukebox).
    pose (f := fetch_element_map w empty_map).
    pose (map := snd (fst f)).
    pose (r := read_element_status_info (snd f)
                 (addr_at (drives map) 1) (Some status_zero)
                 (addr_at (slots map) 6) (Some status_zero)).
    destruct (H map (deref (snd (fst (fst r)))) (deref (snd (fst r))) (snd r))
      as (w' & L & _);
      [concrete_reads f|concrete|concrete|left; concrete|].
    vm_compute in L. discriminate L.
  - pose (w := fresh foreign_jukebox).
    pose (f := fetch_element_map w empty_map).
    pose (map := snd (fst f)).
    pose (r := read_element_status_info (snd f)
                 (addr_at (drives map) 1) (Some status_zero)
                 (addr_at (slots map) 6) (Some status_zero)).
    destruct (H map (deref (snd (fst (fst r)))) (deref (snd (fst r))) (snd r))
      as (w' & L & _);
      [concrete_reads f|concrete|concrete|
       right; split; [concrete|split; concrete]|].
    vm_compute in L. discriminate L.
Qed.

(** ** Supporting facts *)

(* first + number = 65536 wraps the 16-bit end address to 0: nothing is
   appended, which is why the quirk compensation law asks for
   first + number <= 65535 *)
Lemma fill_missing_slots_wraps :
  fill_missing_slots (storage_assignment 0xFFF0 16) [] = [].
Proof. reflexivity. Qed.

Section StatusReader.
Context {Device : Type} {T : Transport Device}.
Implicit Types (w : World Device).

Lemma update_status_some (s : ElementStatus) (target a : Z) (f sv : bool) (src : Z) :
  exists s', update_status (Some s) target a f sv src = Some s'.
Proof. unfold update_status. destruct (a =? target); eexists; reflexivity. Qed.

(* the descriptor loop of the status reader terminates within its fuel and
   keeps both status structures *)
Lemma info_descriptors_loop_total (fuel : nat) (buf : Buffer) (len : Z) :
  forall desc_len page_end da sa offset d s,
    len <= PARSE_LEN_MAX ->
    0 < desc_len < 65536 -> page_end <= len -> 0 <= offset <= len ->
    Z.max 0 (page_end - offset) < Z.of_nat fuel ->
    exists o d' s',
      info_descriptors_loop fuel buf desc_len page_end da sa offset
                            (Some d) (Some s)
      = Some (o, Some d', Some s')
      /\ offset <= o <= len.
Proof.
  induction fuel as [|fuel IH];
    intros desc_len page_end da sa offset d s Hlen Hd Hp Ho Hf.
  - cbn in Hf. lia.
  - cbn [info_descriptors_loop]. unfold PARSE_LEN_MAX in *.
    rewrite (u32_small (offset + desc_len)) by lia.
    destruct (offset + desc_len <=? page_end) eqn:Hin.
    + apply Z.leb_le in Hin.
      match goal with
      | |- context [update_status (Some d) da ?a ?f ?sv ?src] =>
        destruct (update_status_some d da a f sv src) as [d1 ->];
        destruct (update_status_some s sa a f sv src) as [s1 ->]
      end.
      destruct (IH desc_len page_end da sa (offset + desc_len) d1 s1)
        as (o & d' & s' & E & Ho'); try lia.
      exists o, d', s'. split; [exact E|lia].
    + exists offset, d, s. split; [reflexivity|lia].
Qed.

Lemma info_pages_loop_total (fuel : nat) (buf : Buffer) (len : Z) :
  forall da sa offset d s,
    len <= PARSE_LEN_MAX -> 0 <= offset <= len ->
    Z.max 0 (len - offset) < Z.of_nat fuel ->
    exists d' s',
      info_pages_loop fuel buf len da sa offset (Some d) (Some s)
      = Some (Some d', Some s').
Proof.
  induction fuel as [|fuel IH]; intros da sa offset d s Hlen Ho Hf.
  - cbn in Hf. lia.
  - cbn [info_pages_loop]. unfold PARSE_LEN_MAX in *.
    rewrite (u32_small (offset + 8)), (u32_small (offset + 2)),
      (u32_small (offset + 5)) by lia.
    destruct (offset + 8 <=? len) eqn:Hin; [|exists d, s; reflexivity].
    apply Z.leb_le in Hin.
    set (desc_len := rd16 buf (offset + 2)).
    set (page_bytes := rd24 buf (offset + 5)).
    destruct (desc_len =? 0) eqn:D0; [exists d, s; reflexivity|].
    apply Z.eqb_neq in D0. cbn [orb].
    destruct (page_bytes =? 0); [exists d, s; reflexivity|].
    set (page_end := if u32 (offset + 8 + page_bytes) >? len then len
                     else u32 (offset + 8 + page_bytes)).
    assert (Hpe : page_end <= len).
    { subst page_end. destruct (u32 (offset + 8 + page_bytes) >? len) eqn:G; [lia|].
      rewrite Z.gtb_ltb in G. apply Z.ltb_ge in G. exact G. }
    pose proof (rd16_range buf (offset + 2)) as Hr. fold desc_len in Hr.
    destruct (info_descriptors_loop_total (S (Z.to_nat len)) buf len desc_len
                page_end da sa (offset + 8) d s)
      as (o & d1 & s1 & E & Ho'); unfold PARSE_LEN_MAX; try lia.
    rewrite E.
    apply IH; unfold PARSE_LEN_MAX; destruct (o <? page_end) eqn:G;
      try apply Z.ltb_lt in G; lia.
Qed.

(* the status reader always hands back the two structures it was given,
   and the default branch of its definition is never taken *)
Lemma read_element_status_info_some w da sa rc ds ss w' :
  read_element_status_info w da (Some status_zero) sa (Some status_zero)
  = (rc, ds, ss, w') ->
  exists d s, ds = Some d /\ ss = Some s.
Proof.
  unfold read_element_status_info. intros H.
  destruct (execute_cdb w (read_element_status_cdb 0 0 65535 4096) 4096)
    as [[r b] w1].
  destruct (negb (r =? 0)).
  - injection H as _ <- <- _. eexists. eexists. split; reflexivity.
  - cbn [init_status] in H.
    destruct (info_pages_loop_total (S (Z.to_nat 4096))
                (with_memory_behind b 4096 (memory_behind (device w1)))
                4096 da sa 8
                (mkElementStatus da false false 0)
                (mkElementStatus sa false false 0))
      as (d & s & E); unfold PARSE_LEN_MAX; try lia.
    rewrite E in H. injection H as _ <- <- _.
    exists d, s. split; reflexivity.
Qed.

(* xl1b_changer.c: the older builder asks again, once, with an allocation
   of byte count + 8 when that lies strictly between 4096 and 65535 *)
Lemma xl1b_fetch_element_map_reissues w map buf w1 :
  execute_cdb w (read_element_status_cdb 0x00 0 0xFFFF 4096) 4096 = (0, buf, w1) ->
  4096 < rd24 buf 5 + 8 < 65535 ->
  exists rc m w',
    Xl1b.fetch_element_map w map = (rc, m, w')
    /\ issued w'
       = issued w
         ++ [EvCdb (read_element_status_cdb 0x00 0 0xFFFF 4096);
             EvCdb (read_element_status_cdb 0x00 0 0xFFFF (rd24 buf 5 + 8))].
Proof.
  intros E Hn. pose proof (rd24_range buf 5) as Hr.
  unfold Xl1b.fetch_element_map. rewrite E. cbn [negb Z.eqb].
  destruct (rd24 buf 5 =? 0) eqn:Z0; [apply Z.eqb_eq in Z0; lia|].
  rewrite (u32_small (rd24 buf 5 + 8)) by lia.
  rewrite (gtb_true (rd24 buf 5 + 8) 4096) by lia.
  rewrite (proj2 (Z.ltb_lt (rd24 buf 5 + 8) 65535)) by lia. cbn [andb].
  destruct (execute_cdb w1 (read_element_status_cdb 0 0 65535 (rd24 buf 5 + 8))
                        (rd24 buf 5 + 8)) as [[r2 b2] w2] eqn:E2.
  apply execute_cdb_issued in E, E2.
  assert (Hlog : issued w2
                 = issued w
                   ++ [EvCdb (read_element_status_cdb 0 0 65535 4096);
                       EvCdb (read_element_status_cdb 0 0 65535 (rd24 buf 5 + 8))]).
  { rewrite E2, E, <- app_assoc. reflexivity. }
  destruct (negb (r2 =? 0)); [eexists; eexists; eexists; split; [reflexivity|exact Hlog]|].
  destruct (parse_element_status_map b2 _ map) as [ok m1].
  eexists; eexists; eexists; split; [reflexivity|exact Hlog].
Qed.

End StatusReader.

(** * Further properties of the code *)

(** ** Command descriptor blocks *)

Lemma lo8_mod (x : Z) : lo8 x = x mod 256.
Proof. unfold lo8. change 255 with (Z.ones 8). rewrite Z.land_ones by lia. reflexivity. Qed.

Lemma hi8_mod (x : Z) : hi8 x = (x / 256) mod 256.
Proof.
  unfold hi8. change 255 with (Z.ones 8).
  rewrite Z.land_ones, Z.shiftr_div_pow2 by lia. reflexivity.
Qed.

Lemma top8_mod (x : Z) : top8 x = (x / 65536) mod 256.
Proof.
  unfold top8. change 255 with (Z.ones 8).
  rewrite Z.land_ones, Z.shiftr_div_pow2 by lia. reflexivity.
Qed.

Lemma hi_lo_u16 (x : Z) : hi8 x * 256 + lo8 x = u16 x.
Proof.
  rewrite hi8_mod, lo8_mod. unfold u16.
  change 65536 with (256 * 256). rewrite Z.rem_mul_r by lia. lia.
Qed.

Lemma top_hi_lo_u24 (x : Z) :
  top8 x * 65536 + hi8 x * 256 + lo8 x = x mod 16777216.
Proof.
  rewrite top8_mod, hi8_mod, lo8_mod.
  pose proof (Z.rem_mul_r x 256 65536) as H1.
  pose proof (Z.rem_mul_r (x / 256) 256 256) as H2.
  pose proof (Z.div_div x 256 256) as H3.
  change (256 * 65536) with 16777216 in H1.
  change (256 * 256) with 65536 in H2, H3.
  rewrite H1, H2, <- H3 by lia. lia.
Qed.

Lemma hi8_byte (x : Z) : is_byte (hi8 x).
Proof. unfold is_byte. rewrite hi8_mod. apply Z.mod_pos_bound. lia. Qed.

Lemma lo8_byte (x : Z) : is_byte (lo8 x).
Proof. unfold is_byte. rewrite lo8_mod. apply Z.mod_pos_bound. lia. Qed.

Lemma top8_byte (x : Z) : is_byte (top8 x).
Proof. unfold is_byte. rewrite top8_mod. apply Z.mod_pos_bound. lia. Qed.

Ltac all_bytes :=
  repeat (apply Forall_cons;
          [first [apply hi8_byte | apply lo8_byte | apply top8_byte
                 | (unfold is_byte; lia)]|]);
  apply Forall_nil.

(** X1: the MOVE MEDIUM command block is 12 bytes long, starts with opcode
    0xA5 and carries the transport, source and destination addresses as
    big-endian 16-bit fields at bytes 2-3, 4-5 and 6-7; every byte is a
    byte, so a 16-bit address reaches the device unchanged. *)
Theorem move_medium_cdb_fields (transport source dest : Z) :
  let cdb := move_medium_cdb transport source dest in
  length cdb = 12%nat
  /\ opcode cdb = 0xA5
  /\ Forall is_byte cdb
  /\ be16 cdb 2 = u16 transport
  /\ be16 cdb 4 = u16 source
  /\ be16 cdb 6 = u16 dest
  /\ (is_u16 transport -> is_u16 source -> is_u16 dest ->
      be16 cdb 2 = transport /\ be16 cdb 4 = source /\ be16 cdb 6 = dest).
Proof.
  cbv zeta. unfold move_medium_cdb, be16, opcode. cbn [nth length].
  rewrite !hi_lo_u16.
  repeat split; try reflexivity.
  - all_bytes.
  - apply u16_small; assumption.
  - apply u16_small; assumption.
  - apply u16_small; assumption.
Qed.

Section ReadElementStatusCommand.
Context {Device : Type} {T : Transport Device}.
Implicit Types (w : World Device).

(** X2: cmd_read_element_status sends the typed READ ELEMENT STATUS, whose
    command block carries the start address and the count as 16-bit fields
    and the allocation length modulo 2^24.  If that command fails and the
    requested type is not "all", it sends exactly one more READ ELEMENT
    STATUS, for all types, from address 0, for 0xFFFF elements and the same
    allocation, and returns that command's code; otherwise it returns the
    first command's code and sends nothing more. *)
Theorem cmd_read_element_status_retries_once w element_type start number alloc
        rc1 buf1 w1 :
  let first := read_element_status_cdb (Z.land element_type 0x0F) start number alloc in
  let again := read_element_status_cdb 0x00 0 0xFFFF alloc in
  execute_cdb w first alloc = (rc1, buf1, w1) ->
  be16 first 2 = u16 start
  /\ be16 first 4 = u16 number
  /\ be24 first 6 = alloc mod 16777216
  /\ Forall is_byte first
  /\ (rc1 = 0 \/ element_type = 0 ->
      cmd_read_element_status w element_type start number alloc = (rc1, w1)
      /\ issued w1 = issued w ++ [EvCdb first])
  /\ (rc1 <> 0 -> element_type <> 0 ->
      forall rc2 buf2 w2,
        execute_cdb w1 again alloc = (rc2, buf2, w2) ->
        cmd_read_element_status w element_type start number alloc = (rc2, w2)
        /\ issued w2 = issued w ++ [EvCdb first; EvCdb again]).
Proof.
  intros first again E.
  split; [unfold first, read_element_status_cdb, be16; cbn [nth]; apply hi_lo_u16|].
  split; [unfold first, read_element_status_cdb, be16; cbn [nth]; apply hi_lo_u16|].
  split; [unfold first, read_element_status_cdb, be24; cbn [nth];
          apply top_hi_lo_u24|].
  split.
  { unfold first, read_element_status_cdb.
    apply Forall_cons; [unfold is_byte; lia|].
    apply Forall_cons.
    { unfold is_byte. change 15 with (Z.ones 4). rewrite Z.land_ones by lia.
      pose proof (Z.mod_pos_bound element_type (2 ^ 4)). lia. }
    all_bytes. }
  pose proof (execute_cdb_issued _ _ _ _ _ _ E) as Hlog.
  unfold cmd_read_element_status. fold first again. rewrite E. split.
  - intros [-> | ->].
    + cbn [Z.eqb negb andb]. split; [reflexivity|exact Hlog].
    + cbn [Z.eqb negb]. rewrite andb_false_r. split; [reflexivity|exact Hlog].
  - intros H1 H2 rc2 buf2 w2 E2.
    apply Z.eqb_neq in H1, H2. rewrite H1, H2. cbn [negb andb]. rewrite E2.
    split; [reflexivity|].
    apply execute_cdb_issued in E2. rewrite E2, Hlog, <- app_assoc. reflexivity.
Qed.

End ReadElementStatusCommand.

(* A changer that rejects storage-only queries: the typed query is retried
   for all types. *)
Lemma cmd_read_element_status_retries_once_witness :
  cmd_read_element_status (fresh all_types_only_changer) 0x02 0x1000 3 4096
  = (0, mkWorld BACKEND_SCSITASK all_types_only_changer
                [EvCdb (read_element_status_cdb 0x02 0x1000 3 4096);
                 EvCdb (read_element_status_cdb 0x00 0 0xFFFF 4096)]).
Proof.
  pose (w := fresh all_types_only_changer).
  pose (x := execute_cdb w (read_element_status_cdb (Z.land 2 15) 0x1000 3 4096) 4096).
  pose (y := execute_cdb (snd x) (read_element_status_cdb 0 0 0xFFFF 4096) 4096).
  destruct (cmd_read_element_status_retries_once w 2 0x1000 3 4096
              (fst (fst x)) (snd (fst x)) (snd x))
    as (_ & _ & _ & _ & _ & Hretry); [concrete|].
  destruct (Hretry ltac:(concrete) ltac:(concrete)
                   (fst (fst y)) (snd (fst y)) (snd y)) as [Hc Hl]; [concrete|].
  fold w. rewrite Hc. concrete.
Defined.

(** ** The element-status parser: what it adds *)

Lemma extended_refl (l : list Z) : extended_by_u16 l l.
Proof. exists []. split; [now rewrite app_nil_r|constructor]. Qed.

Lemma extended_trans (l1 l2 l3 : list Z) :
  extended_by_u16 l1 l2 -> extended_by_u16 l2 l3 -> extended_by_u16 l1 l3.
Proof.
  intros (a & -> & Fa) (b & -> & Fb). exists (a ++ b). split.
  - now rewrite app_assoc.
  - apply Forall_app. split; assumption.
Qed.

Lemma extended_push (l : list Z) (a : Z) :
  is_u16 a -> extended_by_u16 l (element_list_push l a).
Proof. intros H. exists [a]. split; [reflexivity|]. constructor; [exact H|constructor]. Qed.

Lemma map_extended_refl (m : ElementMap) : map_extended m m.
Proof. repeat split; apply extended_refl. Qed.

Lemma map_extended_trans (m1 m2 m3 : ElementMap) :
  map_extended m1 m2 -> map_extended m2 m3 -> map_extended m1 m3.
Proof.
  intros (A1 & A2 & A3 & A4) (B1 & B2 & B3 & B4).
  repeat split; eapply extended_trans; eassumption.
Qed.

Lemma push_by_type_extended (type a : Z) (m : ElementMap) :
  is_u16 a -> map_extended m (push_by_type type a m).
Proof.
  intros H. unfold push_by_type.
  repeat match goal with
         | |- context [if ?c then _ else _] => destruct c
         end;
    repeat split; cbn [transports slots drives ie];
    first [apply extended_refl | apply extended_push; exact H].
Qed.

(* the number of elements push_by_type adds: at most one *)
Lemma push_by_type_total (type a : Z) (m : ElementMap) :
  total_count m <= total_count (push_by_type type a m) <= total_count m + 1.
Proof.
  unfold push_by_type, total_count, element_list_push.
  repeat match goal with
         | |- context [if ?c then _ else _] => destruct c
         end;
    cbn [transports slots drives ie]; rewrite ?count_app;
    unfold count; cbn [length]; lia.
Qed.

Lemma descriptors_loop_extended (fuel : nat) (buf : Buffer) (type desc_len page_end : Z) :
  forall offset map o m,
    descriptors_loop fuel buf type desc_len page_end offset map = Some (o, m) ->
    map_extended map m.
Proof.
  induction fuel as [|fuel IH]; intros offset map o m H; [discriminate|].
  cbn [descriptors_loop] in H.
  destruct (u32 (offset + desc_len) <=? page_end).
  - destruct (desc_len <? 2).
    + injection H as _ <-. apply map_extended_refl.
    + destruct ((type =? 2) && (rd16 buf offset =? 0) && all_zero buf offset desc_len).
      * eapply IH; eassumption.
      * apply IH in H. eapply map_extended_trans; [|exact H].
        apply push_by_type_extended. apply rd16_range.
  - injection H as _ <-. apply map_extended_refl.
Qed.

Lemma pages_loop_extended (fuel : nat) (buf : Buffer) (len : Z) :
  forall offset map m,
    pages_loop fuel buf len offset map = Some m -> map_extended map m.
Proof.
  induction fuel as [|fuel IH]; intros offset map m H; [discriminate|].
  cbn [pages_loop] in H.
  destruct (u32 (offset + 8) <=? len);
    [|injection H as <-; apply map_extended_refl].
  destruct ((rd16 buf (u32 (offset + 2)) =? 0) || (rd24 buf (u32 (offset + 5)) =? 0));
    [injection H as <-; apply map_extended_refl|].
  match type of H with
  | match ?d with _ => _ end = _ => destruct d as [[o m1]|] eqn:D; [|discriminate]
  end.
  apply descriptors_loop_extended in D. apply IH in H.
  eapply map_extended_trans; eassumption.
Qed.

(** X3: parse_element_status_map only appends.  Whatever the buffer holds,
    each of the four lists of the resulting map is the list it was given
    followed by the newly parsed addresses, all of them 16-bit values; the
    returned flag tells whether the resulting map holds any element (and is
    false, with the map untouched, for a buffer shorter than the 8-byte
    header). *)
Theorem parse_element_status_map_appends (buf : Buffer) (len : Z) (map : ElementMap) :
  map_extended map (snd (parse_element_status_map buf len map))
  /\ (fst (parse_element_status_map buf len map) = true
      -> total_count (snd (parse_element_status_map buf len map)) > 0)
  /\ (8 <= len ->
      total_count (snd (parse_element_status_map buf len map)) > 0
      -> fst (parse_element_status_map buf len map) = true)
  /\ (len < 8 -> parse_element_status_map buf len map = (false, map)).
Proof.
  unfold parse_element_status_map.
  destruct (len <? 8) eqn:L.
  - apply Z.ltb_lt in L. cbn [fst snd]. repeat split.
    + apply extended_refl. + apply extended_refl.
    + apply extended_refl. + apply extended_refl.
    + discriminate.
    + lia.
  - apply Z.ltb_ge in L. cbn [fst snd].
    destruct (pages_loop (S (Z.to_nat len)) buf len 8 map) as [m|] eqn:P.
    + split; [eapply pages_loop_extended; exact P|].
      split; [intros H; rewrite Z.gtb_ltb in H; apply Z.ltb_lt in H; lia|].
      split; [intros _ H; apply gtb_true; lia|lia].
    + split; [apply map_extended_refl|].
      split; [intros H; rewrite Z.gtb_ltb in H; apply Z.ltb_lt in H; lia|].
      split; [intros _ H; apply gtb_true; lia|lia].
Qed.

(* A one-slot report: the slot is appended to a map that holds a drive. *)
Lemma parse_element_status_map_appends_witness :
  parse_element_status_map short_report 28 (mkElementMap [] [] [0x0100] [])
  = (true, mkElementMap [] [0x1000] [0x0100] [])
  /\ parse_element_status_map short_report 7 empty_map = (false, empty_map).
Proof.
  split.
  - destruct (parse_element_status_map_appends
                short_report 28 (mkElementMap [] [] [0x0100] []))
      as (_ & _ & Hflag & _).
    rewrite (surjective_pairing (parse_element_status_map _ _ _)).
    rewrite Hflag; [reflexivity|concrete|concrete].
  - apply (parse_element_status_map_appends short_report 7 empty_map). concrete.
Defined.

Lemma move_medium_cdb_fields_witness :
  be16 (move_medium_cdb 0x0000 0x1005 0x0100) 4 = 0x1005
  /\ be16 (move_medium_cdb 0x0000 0x1005 0x0100) 6 = 0x0100.
Proof.
  destruct (move_medium_cdb_fields 0x0000 0x1005 0x0100)
    as (_ & _ & _ & _ & _ & _ & H).
  destruct H as (_ & Hs & Hd); [unfold is_u16; lia ..|].
  split; assumption.
Defined.

Section ParserBound.
Variables (buf : Buffer) (len : Z).
Hypothesis len_in_range : len <= PARSE_LEN_MAX.

Lemma descriptors_loop_consumes (fuel : nat) (type desc_len page_end : Z) :
  forall offset map o m,
    0 <= desc_len < 65536 -> page_end <= len -> 0 <= offset <= len ->
    descriptors_loop fuel buf type desc_len page_end offset map = Some (o, m) ->
    offset <= o <= len
    /\ 2 * (total_count m - total_count map) <= o - offset.
Proof.
  induction fuel as [|fuel IH]; intros offset map o m Hd Hp Ho H; [discriminate|].
  cbn [descriptors_loop] in H. unfold PARSE_LEN_MAX in *.
  rewrite (u32_small (offset + desc_len)) in H by lia.
  destruct (offset + desc_len <=? page_end) eqn:Hin.
  - apply Z.leb_le in Hin.
    destruct (desc_len <? 2) eqn:Hsmall.
    + injection H as <- <-. lia.
    + apply Z.ltb_ge in Hsmall.
      destruct ((type =? 2) && (rd16 buf offset =? 0) && all_zero buf offset desc_len).
      * apply IH in H; lia.
      * apply IH in H; try lia.
        pose proof (push_by_type_total type (rd16 buf offset) map). lia.
  - injection H as <- <-. lia.
Qed.

Lemma pages_loop_consumes (fuel : nat) :
  forall offset map m,
    0 <= offset <= len ->
    pages_loop fuel buf len offset map = Some m ->
    2 * (total_count m - total_count map) <= Z.max 0 (len - offset - 8).
Proof.
  induction fuel as [|fuel IH]; intros offset map m Ho H; [discriminate|].
  cbn [pages_loop] in H. unfold PARSE_LEN_MAX in *.
  rewrite (u32_small (offset + 8)), (u32_small (offset + 2)),
    (u32_small (offset + 5)) in H by lia.
  destruct (offset + 8 <=? len) eqn:Hin; [|injection H as <-; lia].
  apply Z.leb_le in Hin.
  destruct ((rd16 buf (offset + 2) =? 0) || (rd24 buf (offset + 5) =? 0));
    [injection H as <-; lia|].
  set (page_end := if u32 (offset + 8 + rd24 buf (offset + 5)) >? len then len
                   else u32 (offset + 8 + rd24 buf (offset + 5))) in H.
  assert (Hpe : page_end <= len).
  { subst page_end.
    destruct (u32 (offset + 8 + rd24 buf (offset + 5)) >? len) eqn:G; [lia|].
    rewrite Z.gtb_ltb in G. apply Z.ltb_ge in G. exact G. }
  match type of H with
  | match ?d with _ => _ end = _ => destruct d as [[o m1]|] eqn:D; [|discriminate]
  end.
  apply descriptors_loop_consumes in D;
    [|apply rd16_range|exact Hpe|lia].
  apply IH in H; destruct (o <? page_end) eqn:G;
    try apply Z.ltb_lt in G; try apply Z.ltb_ge in G; lia.
Qed.

End ParserBound.

(** X4: parse_element_status_map never reports more elements than the
    buffer can hold: after the 8-byte report header and the first 8-byte
    page header every element costs at least two bytes, so a parse of len
    bytes adds at most (len - 16) / 2 elements to the map (none when
    len <= 16).  With the 65535-byte buffers of the builder one response
    adds fewer than 32768 elements. *)
Theorem parse_element_status_map_bounded (buf : Buffer) (len : Z) (map : ElementMap) :
  len <= PARSE_LEN_MAX ->
  2 * (total_count (snd (parse_element_status_map buf len map)) - total_count map)
  <= Z.max 0 (len - 16).
Proof.
  intros Hlen. unfold parse_element_status_map.
  destruct (len <? 8) eqn:L; cbn [snd]; [lia|]. apply Z.ltb_ge in L.
  destruct (pages_loop (S (Z.to_nat len)) buf len 8 map) as [m|] eqn:P; [|lia].
  apply pages_loop_consumes in P; try assumption; lia.
Qed.

Lemma parse_element_status_map_bounded_witness :
  2 * (total_count (snd (parse_element_status_map short_report 28 empty_map)) - 0)
  <= 12.
Proof.
  apply (parse_element_status_map_bounded short_report 28 empty_map). concrete.
Defined.

(** ** Big-endian fields *)

Lemma land_shifted_byte (x y : Z) : 0 <= y < 256 -> Z.land (x * 2 ^ 8) y = 0.
Proof.
  intros Hy. apply Z.bits_inj'. intros n Hn.
  rewrite Z.land_spec, Z.bits_0.
  destruct (Z.ltb_spec n 8) as [Hlt|Hge].
  - rewrite Z.mul_pow2_bits_low by lia. reflexivity.
  - assert (Hbit : Z.testbit y n = false).
    { apply Z.testbit_false; [lia|].
      rewrite Z.div_small; [reflexivity|].
      split; [lia|]. apply Z.lt_le_trans with (2 ^ 8); [lia|].
      apply Z.pow_le_mono_r; lia. }
    rewrite Hbit. apply andb_false_r.
Qed.

Lemma rd16_big_endian (buf : Buffer) (off : Z) :
  0 <= off < 4294967295 -> rd16 buf off = be_pair buf off.
Proof.
  intros Hoff. unfold rd16, be_pair. rewrite (u32_small (off + 1)) by lia.
  pose proof (byte_at_range buf off) as B0.
  pose proof (byte_at_range buf (off + 1)) as B1.
  rewrite Z.shiftl_mul_pow2 by lia.
  pose proof (Z.add_lor_land (byte_at buf off * 2 ^ 8) (byte_at buf (off + 1))) as H.
  rewrite land_shifted_byte in H by lia.
  rewrite u16_small; lia.
Qed.

(** ** The status reader and MODE SENSE *)

Section StatusReaderFacts.
Context {Device : Type} {T : Transport Device}.
Implicit Types (w : World Device).

Lemma update_status_pair (da sa a : Z) (f sv : bool) (src : Z) (d s : ElementStatus) :
  is_u16 src -> status_pair_ok da sa d s ->
  exists d' s',
    update_status (Some d) da a f sv src = Some d'
    /\ update_status (Some s) sa a f sv src = Some s'
    /\ status_pair_ok da sa d' s'.
Proof.
  intros Hsrc (Hd & Hs & Rd & Rs & Hsame). unfold update_status.
  destruct (a =? da) eqn:Ed; destruct (a =? sa) eqn:Es;
    eexists; eexists; (split; [reflexivity|]); (split; [reflexivity|]);
    unfold status_pair_ok; cbn [addr full valid_src src_addr].
  - split; [exact Hd|]. split; [exact Hs|]. split; [exact Hsrc|].
    split; [exact Hsrc|]. intros _. split; [|split]; reflexivity.
  - split; [exact Hd|]. split; [exact Hs|]. split; [exact Hsrc|].
    split; [exact Rs|]. intros ->. rewrite Ed in Es. discriminate.
  - split; [exact Hd|]. split; [exact Hs|]. split; [exact Rd|].
    split; [exact Hsrc|]. intros ->. rewrite Ed in Es. discriminate.
  - split; [exact Hd|]. split; [exact Hs|]. split; [exact Rd|].
    split; [exact Rs|]. exact Hsame.
Qed.

Lemma info_descriptors_loop_pair (fuel : nat) (buf : Buffer)
      (desc_len page_end da sa : Z) :
  forall offset d s o ds ss,
    status_pair_ok da sa d s ->
    info_descriptors_loop fuel buf desc_len page_end da sa offset (Some d) (Some s)
    = Some (o, ds, ss) ->
    exists d' s', ds = Some d' /\ ss = Some s' /\ status_pair_ok da sa d' s'.
Proof.
  induction fuel as [|fuel IH]; intros offset d s o ds ss Hok H; [discriminate|].
  cbn [info_descriptors_loop] in H.
  destruct (u32 (offset + desc_len) <=? page_end).
  - match type of H with
    | context [update_status (Some d) da ?a ?f ?sv ?src] =>
      destruct (update_status_pair da sa a f sv src d s) as (d1 & s1 & E1 & E2 & Hok1);
        [|exact Hok|]
    end.
    + destruct (desc_len >=? 12); [apply rd16_range|unfold is_u16; lia].
    + rewrite E1, E2 in H. eapply IH; eassumption.
  - injection H as _ <- <-. exists d, s.
    split; [reflexivity|]. split; [reflexivity|exact Hok].
Qed.

Lemma info_pages_loop_pair (fuel : nat) (buf : Buffer) (len da sa : Z) :
  forall offset d s ds ss,
    status_pair_ok da sa d s ->
    info_pages_loop fuel buf len da sa offset (Some d) (Some s) = Some (ds, ss) ->
    exists d' s', ds = Some d' /\ ss = Some s' /\ status_pair_ok da sa d' s'.
Proof.
  induction fuel as [|fuel IH]; intros offset d s ds ss Hok H; [discriminate|].
  cbn [info_pages_loop] in H.
  destruct (u32 (offset + 8) <=? len);
    [|injection H as <- <-; exists d, s;
      split; [reflexivity|]; split; [reflexivity|exact Hok]].
  destruct ((rd16 buf (u32 (offset + 2)) =? 0) || (rd24 buf (u32 (offset + 5)) =? 0));
    [injection H as <- <-; exists d, s;
     split; [reflexivity|]; split; [reflexivity|exact Hok]|].
  match type of H with
  | match ?x with _ => _ end = _ => destruct x as [[[o d1] s1]|] eqn:D; [|discriminate]
  end.
  apply info_descriptors_loop_pair in D; [|exact Hok].
  destruct D as (d' & s' & -> & -> & Hok').
  eapply IH; eassumption.
Qed.

(** X5: read_element_status_info issues exactly one command, an all-types
    READ ELEMENT STATUS with a 4096-byte allocation, and returns the code of
    that command: a failure code as it is, with the two status structures
    left as they were, and 0 when the command succeeds.  In that case each
    structure carries the address it was asked for and a 16-bit source
    address, whatever bytes were read; when the drive and the slot address
    are the same, the two structures report the same occupancy and
    source. *)
Theorem read_element_status_info_reports_requested
        w da d0 sa s0 rc ds ss w' r buf w1 :
  read_element_status_info w da (Some d0) sa (Some s0) = (rc, ds, ss, w') ->
  execute_cdb w (read_element_status_cdb 0x00 0 0xFFFF 4096) 4096 = (r, buf, w1) ->
  rc = r
  /\ w' = w1
  /\ issued w' = issued w ++ [EvCdb (read_element_status_cdb 0x00 0 0xFFFF 4096)]
  /\ (r <> 0 -> ds = Some d0 /\ ss = Some s0)
  /\ (r = 0 ->
      exists d s, ds = Some d /\ ss = Some s /\ status_pair_ok da sa d s).
Proof.
  intros H E.
  pose proof (execute_cdb_issued _ _ _ _ _ _ E) as Hlog.
  unfold read_element_status_info in H. cbv zeta in H. rewrite E in H.
  remember (with_memory_behind buf 4096 (memory_behind (device w1))) as mem
    eqn:Em. clear Em.
  destruct (r =? 0) eqn:R; cbn [negb] in H.
  - apply Z.eqb_eq in R. subst r. cbn [init_status] in H.
    assert (Hinit : status_pair_ok da sa (mkElementStatus da false false 0)
                                   (mkElementStatus sa false false 0)).
    { unfold status_pair_ok, is_u16. cbn [addr full valid_src src_addr].
      split; [reflexivity|]. split; [reflexivity|]. split; [lia|]. split; [lia|].
      intros _. split; [|split]; reflexivity. }
    destruct (info_pages_loop _ _ _ _ _ _ _ _) as [[x y]|] eqn:P.
    + injection H as <- <- <- <-.
      split; [reflexivity|]. split; [reflexivity|]. split; [exact Hlog|].
      split; [intros N; contradiction N; reflexivity|].
      intros _. eapply info_pages_loop_pair; eassumption.
    + injection H as <- <- <- <-.
      split; [reflexivity|]. split; [reflexivity|]. split; [exact Hlog|].
      split; [intros N; contradiction N; reflexivity|].
      intros _. eexists. eexists.
      split; [reflexivity|]. split; [reflexivity|exact Hinit].
  - apply Z.eqb_neq in R. injection H as <- <- <- <-.
    split; [reflexivity|]. split; [reflexivity|]. split; [exact Hlog|].
    split; [intros _; split; reflexivity|]. intros E0. contradiction.
Qed.

(** X6: read_mode_sense_element issues exactly one MODE SENSE(10) for page
    0x1D.  The caller's assignment is changed only when the command
    succeeds and the response holds page 0x1D with a page length of at
    least 16: a failed command returns its code, a page offset beyond the
    256-byte buffer returns 1, an unrecognised page returns 0, all three
    with the assignment untouched.  A recognised page that lies within the
    buffer is decoded as eight big-endian 16-bit fields, in the order
    transport, storage, import/export, drive (first address, then count). *)
Theorem read_mode_sense_element_decodes w out rc a w' r buf w1 :
  read_mode_sense_element w out = (rc, a, w') ->
  execute_cdb w mode_sense_cdb 256 = (r, buf, w1) ->
  let page_offset := 8 + be_pair buf 6 in
  let recognised :=
    (Z.land (byte_at buf page_offset) 0x3F =? 0x1D)
    && (16 <=? byte_at buf (page_offset + 1)) in
  w' = w1
  /\ issued w1 = issued w ++ [EvCdb mode_sense_cdb]
  /\ (r <> 0 -> rc = r /\ a = out)
  /\ (r = 0 -> page_offset + 2 > 256 -> rc = 1 /\ a = out)
  /\ (r = 0 -> page_offset + 2 <= 256 -> recognised = false -> rc = 0 /\ a = out)
  /\ (r = 0 -> page_offset + 18 <= 256 -> recognised = true ->
      rc = 0
      /\ a = mkAssign (be_pair buf (page_offset + 2)) (be_pair buf (page_offset + 4))
                      (be_pair buf (page_offset + 6)) (be_pair buf (page_offset + 8))
                      (be_pair buf (page_offset + 10)) (be_pair buf (page_offset + 12))
                      (be_pair buf (page_offset + 14)) (be_pair buf (page_offset + 16))).
Proof.
  intros H E page_offset recognised.
  pose proof (execute_cdb_issued _ _ _ _ _ _ E) as Hlog.
  unfold read_mode_sense_element in H. rewrite E in H.
  pose proof (rd16_range buf 6) as Hb.
  rewrite (rd16_big_endian buf 6) in H, Hb by lia. fold page_offset in H.
  rewrite (u32_small page_offset) in H by (unfold page_offset; lia).
  assert (Hw : w' = w1).
  { repeat match type of H with
           | (if ?c then _ else _) = _ => destruct c
           end; injection H as _ _ <-; reflexivity. }
  split; [exact Hw|]. split; [exact Hlog|].
  destruct (r =? 0) eqn:R; cbn [negb] in H.
  - apply Z.eqb_eq in R. subst r.
    split; [intros N; contradiction N; reflexivity|].
    destruct (Z.leb_spec (page_offset + 2) 256) as [Hfit|Hbig].
    + rewrite (u32_small (page_offset + 2)), (u32_small (page_offset + 1)) in H
        by (unfold page_offset in *; lia).
      rewrite (gtb_false (page_offset + 2) 256) in H by lia.
      split; [intros _ G; lia|].
      assert (Hrec : negb (Z.land (byte_at buf page_offset) 63 =? 29)
                     || (byte_at buf (page_offset + 1) <? 16) = negb recognised).
      { unfold recognised. rewrite negb_andb. f_equal.
        rewrite Z.leb_antisym, negb_involutive. reflexivity. }
      rewrite Hrec in H.
      split.
      * intros _ _ Hr. rewrite Hr in H. cbn [negb] in H.
        injection H as <- <- _. split; reflexivity.
      * intros _ Hin Hr. rewrite Hr in H. cbn [negb] in H.
        injection H as <- <- _. split; [reflexivity|].
        unfold page_offset in *.
        rewrite !rd16_within by lia.
        rewrite !rd16_big_endian by lia.
        f_equal; f_equal; lia.
    + rewrite (u32_small (page_offset + 2)) in H by (unfold page_offset in *; lia).
      rewrite (gtb_true (page_offset + 2) 256) in H by lia.
      injection H as <- <- _.
      split; [intros _ _; split; reflexivity|].
      split; intros _ G; lia.
  - apply Z.eqb_neq in R. injection H as <- <- _.
    split; [intros _; split; reflexivity|].
    split; [intros E0; contradiction|].
    split; intros E0; contradiction.
Qed.

End StatusReaderFacts.

(* The drive of a jukebox that holds the medium of slot 2. *)
Lemma read_element_status_info_reports_requested_witness :
  exists d s w',
    read_element_status_info (fresh foreign_jukebox) 0x0100 (Some status_zero)
                             0x1005 (Some status_zero)
    = (0, Some d, Some s, w')
    /\ addr d = 0x0100 /\ addr s = 0x1005.
Proof.
  pose (w := fresh foreign_jukebox).
  pose (r := read_element_status_info w 0x0100 (Some status_zero)
                                      0x1005 (Some status_zero)).
  pose (x := execute_cdb w (read_element_status_cdb 0x00 0 0xFFFF 4096) 4096).
  destruct (read_element_status_info_reports_requested
              w 0x0100 status_zero 0x1005 status_zero
              (fst (fst (fst r))) (snd (fst (fst r))) (snd (fst r)) (snd r)
              (fst (fst x)) (snd (fst x)) (snd x))
    as (Hrc & _ & _ & _ & Hok); [concrete|concrete|].
  destruct (Hok ltac:(concrete)) as (d & s & Ed & Es & Ad & As & _).
  exists d, s, (snd r).
  split; [|split; assumption].
  rewrite <- Ed, <- Es.
  change (read_element_status_info (fresh foreign_jukebox) 256 (Some status_zero)
                                   4101 (Some status_zero)) with r.
  rewrite (surjective_pairing r), (surjective_pairing (fst r)),
    (surjective_pairing (fst (fst r))).
  rewrite Hrc. reflexivity.
Defined.

(* MODE SENSE declaring 50 slots from 0x1000. *)
Lemma read_mode_sense_element_decodes_witness :
  exists w',
    read_mode_sense_element (fresh under_reporting_changer) assign_zero
    = (0, mkAssign 0 1 0x1000 50 0x0010 1 0x0100 1, w').
Proof.
  pose (w := fresh under_reporting_changer).
  pose (x := execute_cdb w mode_sense_cdb 256).
  pose (y := read_mode_sense_element w assign_zero).
  destruct (read_mode_sense_element_decodes
              w assign_zero (fst (fst y)) (snd (fst y)) (snd y)
              (fst (fst x)) (snd (fst x)) (snd x))
    as (_ & _ & _ & _ & _ & Hdec); [concrete|concrete|].
  destruct Hdec as [Hrc Ha]; [concrete|concrete|concrete|].
  exists (snd y).
  rewrite (surjective_pairing y), (surjective_pairing (fst y)).
  rewrite Hrc, Ha. reflexivity.
Defined.

(** ** The element map builder: outcome, pagination, what it keeps *)

Lemma addr_range_u16 (lo hi : Z) :
  0 <= lo -> hi < 65536 -> Forall is_u16 (addr_range lo hi).
Proof.
  intros Hlo Hhi. unfold addr_range. apply Forall_forall. intros a Ha.
  apply in_map_iff in Ha. destruct Ha as (i & <- & Hi).
  apply in_seq in Hi. unfold is_u16. lia.
Qed.

Lemma fill_missing_slots_extended (a : ElementAddrAssignment) (l : list Z) :
  extended_by_u16 l (fill_missing_slots a l).
Proof.
  unfold fill_missing_slots.
  destruct (count l <? num_storage a); [|apply extended_refl].
  pose proof (u16_range (first_storage a + num_storage a)) as He.
  pose proof (u16_range (first_storage a + u16 (count l))) as Hs.
  rewrite fill_loop_spec by lia.
  eexists. split; [reflexivity|]. apply addr_range_u16; lia.
Qed.

Lemma parse_element_status_map_extended (buf : Buffer) (len : Z) (map : ElementMap) :
  map_extended map (snd (parse_element_status_map buf len map)).
Proof.
  unfold parse_element_status_map.
  destruct (len <? 8); [apply map_extended_refl|]. cbn [snd].
  destruct (pages_loop (S (Z.to_nat len)) buf len 8 map) as [m|] eqn:P.
  - eapply pages_loop_extended. exact P.
  - apply map_extended_refl.
Qed.

Lemma asks_for_rest_shift (first number added : Z) (e : Event) :
  0 < added < number ->
  asks_for_rest (u16 (first + u16 added)) (u16 (number - u16 added)) e ->
  is_u16 number ->
  asks_for_rest first number e.
Proof.
  intros Ha (s & r & -> & Hr & Hsum) Hn. unfold is_u16 in Hn.
  rewrite (u16_small added) in * by lia.
  rewrite (u16_small (number - added)) in * by lia.
  exists s, r. split; [reflexivity|]. split; [lia|].
  rewrite Hsum. unfold u16.
  rewrite Zplus_mod_idemp_l. f_equal. lia.
Qed.

Section BuilderOutcome.
Context {Device : Type} {T : Transport Device}.
Implicit Types (w : World Device) (map : ElementMap).

Lemma paginate_loop_extended (fuel : nat) (alloc : Z) :
  forall w start remaining map m w',
    paginate_loop fuel alloc w start remaining map = Some (m, w') ->
    map_extended map m.
Proof.
  induction fuel as [|fuel IH]; intros w start remaining map m w' H; [discriminate|].
  cbn [paginate_loop] in H.
  destruct (remaining >? 0); [|injection H as <- _; apply map_extended_refl].
  destruct (execute_cdb w (read_element_status_cdb 2 start remaining alloc) alloc)
    as [[r b] w1].
  destruct (negb (r =? 0)); [injection H as <- _; apply map_extended_refl|].
  destruct (rd24 b 5 =? 0); [injection H as <- _; apply map_extended_refl|].
  pose proof (parse_element_status_map_extended
                b (parse_len_of (rd24 b 5) alloc) map) as Hp.
  repeat match type of H with
         | (if ?c then _ else _) = _ => destruct c
         end;
    try (injection H as <- _; exact Hp).
  apply IH in H. eapply map_extended_trans; eassumption.
Qed.

(* every page of the pagination asks for what is left of the declared range *)
Lemma paginate_loop_asks (fuel : nat) :
  forall w start remaining map m w',
    is_u16 remaining ->
    paginate_loop fuel 65535 w start remaining map = Some (m, w') ->
    exists l,
      issued w' = issued w ++ l
      /\ Forall (asks_for_rest start remaining) l
      /\ Z.of_nat (length l) <= remaining.
Proof.
  induction fuel as [|fuel IH]; intros w start remaining map m w' Hr H; [discriminate|].
  unfold is_u16 in Hr. cbn [paginate_loop] in H.
  destruct (remaining >? 0) eqn:G.
  2:{ injection H as _ <-. exists []. split; [now rewrite app_nil_r|].
      split; [constructor|cbn; lia]. }
  rewrite Z.gtb_ltb in G. apply Z.ltb_lt in G.
  destruct (execute_cdb w (read_element_status_cdb 2 start remaining 65535) 65535)
    as [[r b] w1] eqn:E.
  apply execute_cdb_issued in E.
  assert (Hone : asks_for_rest start remaining
                   (EvCdb (read_element_status_cdb 2 start remaining 65535))).
  { exists start, remaining. split; [reflexivity|]. split; [lia|reflexivity]. }
  assert (Hstop : exists l,
             issued w1 = issued w ++ l
             /\ Forall (asks_for_rest start remaining) l
             /\ Z.of_nat (length l) <= remaining).
  { eexists. split; [exact E|]. split; [constructor; [exact Hone|constructor]|].
    cbn. lia. }
  destruct (negb (r =? 0)); [injection H as _ <-; exact Hstop|].
  destruct (rd24 b 5 =? 0); [injection H as _ <-; exact Hstop|].
  destruct (parse_element_status_map_slots b (parse_len_of (rd24 b 5) 65535) map)
    as [ls Hls].
  rewrite Hls, count_app in H.
  replace (count (slots map) + count ls - count (slots map)) with (count ls) in H
    by lia.
  pose proof (count_nonneg ls) as Hn.
  destruct (count ls =? 0) eqn:E0; [injection H as _ <-; exact Hstop|].
  apply Z.eqb_neq in E0.
  destruct (count ls >=? remaining) eqn:Ege; [injection H as _ <-; exact Hstop|].
  rewrite Z.geb_leb in Ege. apply Z.leb_gt in Ege.
  pose proof H as H'. apply IH in H'.
  2:{ unfold is_u16. rewrite (u16_small (count ls)) by lia.
      rewrite (u16_small (remaining - count ls)) by lia. lia. }
  destruct H' as (l & Hl & Fl & Len).
  rewrite (u16_small (count ls)) in Len by lia.
  rewrite (u16_small (remaining - count ls)) in Len by lia.
  exists (EvCdb (read_element_status_cdb 2 start remaining 65535) :: l).
  split; [rewrite Hl, E, <- app_assoc; reflexivity|].
  split.
  - constructor; [exact Hone|].
    eapply Forall_impl; [|exact Fl].
    intros e He.
    apply (asks_for_rest_shift start remaining (count ls));
      [lia|exact He|unfold is_u16; lia].
  - cbn [length]. lia.
Qed.

End BuilderOutcome.

Lemma extended_all_u16 (l l' : list Z) :
  extended_by_u16 l l' -> Forall is_u16 l -> Forall is_u16 l'.
Proof. intros (a & -> & Fa) Fl. apply Forall_app. split; assumption. Qed.

Section BuilderLaws.
Context {Device : Type} {T : Transport Device}.
Implicit Types (w : World Device) (map : ElementMap).

Lemma storage_phase_code alloc w1 map1 rc m w' :
  storage_phase alloc w1 map1 = (rc, m, w') ->
  (rc = 0 /\ total_count m > 0) \/ (rc = 1 /\ total_count m <= 0).
Proof.
  unfold storage_phase. intros H.
  destruct (read_mode_sense_element w1 assign_zero) as [[rc_ms a] w2].
  destruct ((rc_ms =? 0) && (num_storage a >? 0)).
  - destruct (rebuild_storage alloc w2 a map1) as [m2 w3].
    injection H as <- <- _.
    destruct (total_count m2 >? 0) eqn:G; rewrite Z.gtb_ltb in G;
      [apply Z.ltb_lt in G; left|apply Z.ltb_ge in G; right]; split; lia.
  - injection H as <- <- _.
    destruct (total_count map1 >? 0) eqn:G; rewrite Z.gtb_ltb in G;
      [apply Z.ltb_lt in G; left|apply Z.ltb_ge in G; right]; split; lia.
Qed.

(** X7: the outcome of fetch_element_map.  A failed all-types query returns
    the transport's code, a response announcing zero bytes returns 1, both
    leaving the caller's map untouched and issuing nothing further.
    Otherwise the result is 0 or 1, and it is 0 exactly when the final map
    holds at least one element: a successful discovery never hands back an
    empty map. *)
Theorem fetch_element_map_outcome w map rc m w' r buf w1 :
  fetch_element_map w map = (rc, m, w') ->
  execute_cdb w all_types_cdb 65535 = (r, buf, w1) ->
  (r <> 0 -> rc = r /\ m = map /\ w' = w1)
  /\ (r = 0 -> rd24 buf 5 = 0 -> rc = 1 /\ m = map /\ w' = w1)
  /\ (r = 0 -> rd24 buf 5 <> 0 ->
      (rc = 0 /\ total_count m > 0) \/ (rc = 1 /\ total_count m = 0))
  /\ (rc = 0 -> r = 0 /\ total_count m > 0).
Proof.
  intros H E. unfold fetch_element_map in H. fold all_types_cdb in H.
  rewrite E in H.
  assert (Hnn : 0 <= total_count m).
  { unfold total_count, count. lia. }
  destruct (r =? 0) eqn:R; cbn [negb] in H.
  - apply Z.eqb_eq in R. subst r.
    split; [intros N; contradiction N; reflexivity|].
    destruct (rd24 buf 5 =? 0) eqn:Z0.
    + apply Z.eqb_eq in Z0. injection H as <- <- <-.
      split; [intros _ _; repeat split|].
      split; [intros _ N; contradiction|]. intros N. discriminate N.
    + apply Z.eqb_neq in Z0.
      apply storage_phase_code in H.
      split; [intros _ N; contradiction|].
      split; [intros _ _; destruct H as [[-> G]|[-> G]]; [left|right]; split; lia|].
      intros ->. destruct H as [[_ G]|[N _]]; [split; [reflexivity|exact G]|discriminate N].
  - apply Z.eqb_neq in R. injection H as <- <- <-.
    split; [intros _; repeat split|].
    split; [intros N; contradiction|].
    split; [intros N; contradiction|].
    intros N. contradiction.
Qed.

(** X8: the pagination of the builder.  When MODE SENSE declares N > 0
    storage elements from first address F, the builder follows it with at
    least one and at most N storage-only READ ELEMENT STATUS commands and
    nothing else; each of them asks, with a 65535-byte allocation, for
    exactly what is left of the declared range: its count is between 1 and
    N and its start address plus its count is F + N (modulo 2^16). *)
Theorem fetch_element_map_pagination w map buf w1 assign w2 rc m w' :
  builder_reads w map buf w1 0 assign w2 ->
  0 < num_storage assign ->
  fetch_element_map w map = (rc, m, w') ->
  exists l,
    issued w' = issued w2 ++ l
    /\ Forall (asks_for_rest (first_storage assign) (num_storage assign)) l
    /\ (1 <= length l)%nat
    /\ Z.of_nat (length l) <= num_storage assign.
Proof.
  intros (E & Hrb & M) HN H.
  rewrite (fetch_element_map_unfold w map buf w1 E Hrb) in H.
  unfold storage_phase in H. rewrite M in H. cbn [Z.eqb andb] in H.
  rewrite (gtb_true (num_storage assign) 0) in H by lia.
  destruct (read_mode_sense_element_range _ _ _ _ M) as [HF HNr].
  unfold rebuild_storage in H.
  match type of H with
  | context [paginate_loop ?f ?a ?w0 ?s ?r ?m0] =>
    destruct (paginate_loop_total f a w0 s r m0) as [[paged wp] P]; [lia|lia|]
  end.
  rewrite P in H. injection H as _ _ <-.
  destruct (paginate_loop_asks _ _ _ _ _ _ _ HNr P) as (l & Hl & Fl & Len).
  exists l. split; [exact Hl|]. split; [exact Fl|]. split; [|exact Len].
  destruct (paginate_loop_first _ _ _ _ _ _ _ _ HN P) as [l' Hl'].
  rewrite Hl in Hl'. apply app_inv_head in Hl'. subst l. cbn [length]. lia.
Qed.

(** X9: what fetch_element_map keeps.  Whatever the device answers, the
    transport, drive and import/export lists of the resulting map are the
    lists of the map it was given followed by 16-bit addresses (a rebuild
    discards the storage list only), and when the given storage list holds
    16-bit addresses so does the resulting one. *)
Theorem fetch_element_map_keeps_other_roles w map rc m w' :
  fetch_element_map w map = (rc, m, w') ->
  extended_by_u16 (transports map) (transports m)
  /\ extended_by_u16 (drives map) (drives m)
  /\ extended_by_u16 (ie map) (ie m)
  /\ (Forall is_u16 (slots map) -> Forall is_u16 (slots m)).
Proof.
  unfold fetch_element_map. intros H.
  destruct (execute_cdb w (read_element_status_cdb 0 0 65535 65535) 65535)
    as [[r b] w1].
  assert (Hsame : extended_by_u16 (transports map) (transports map)
                  /\ extended_by_u16 (drives map) (drives map)
                  /\ extended_by_u16 (ie map) (ie map)
                  /\ (Forall is_u16 (slots map) -> Forall is_u16 (slots map))).
  { split; [apply extended_refl|]. split; [apply extended_refl|].
    split; [apply extended_refl|]. intros X. exact X. }
  destruct (negb (r =? 0)); [injection H as _ <- _; exact Hsame|].
  destruct (rd24 b 5 =? 0); [injection H as _ <- _; exact Hsame|].
  clear Hsame.
  destruct (parse_element_status_map_extended
              b (parse_len_of (rd24 b 5) 65535) map) as (A1 & A2 & A3 & A4).
  set (map1 := snd (parse_element_status_map b (parse_len_of (rd24 b 5) 65535) map))
    in *.
  unfold storage_phase in H.
  destruct (read_mode_sense_element w1 assign_zero) as [[rc_ms a] w2].
  destruct ((rc_ms =? 0) && (num_storage a >? 0)).
  - destruct (rebuild_storage 65535 w2 a map1) as [m2 w3] eqn:R.
    injection H as _ <- _.
    unfold rebuild_storage in R.
    assert (Hp : exists mp, map_extended (clear_slots map1) mp
                            /\ m2 = set_slots mp (fill_missing_slots a (slots mp))).
    { destruct (paginate_loop _ _ _ _ _ _) as [[mp wp]|] eqn:P.
      - exists mp. split; [eapply paginate_loop_extended; exact P|].
        injection R as <- _. reflexivity.
      - exists (clear_slots map1). split; [apply map_extended_refl|].
        injection R as <- _. reflexivity. }
    destruct Hp as (mp & (B1 & B2 & B3 & B4) & ->).
    cbn [clear_slots transports slots drives ie] in B1, B2, B3, B4.
    cbn [set_slots transports slots drives ie].
    split; [eapply extended_trans; eassumption|].
    split; [eapply extended_trans; eassumption|].
    split; [eapply extended_trans; eassumption|].
    intros _.
    apply (extended_all_u16 (slots mp)); [apply fill_missing_slots_extended|].
    apply (extended_all_u16 []); [exact B2|constructor].
  - injection H as _ <- _.
    split; [exact A1|]. split; [exact A3|]. split; [exact A4|].
    intros Hs. apply (extended_all_u16 (slots map)); assumption.
Qed.

End BuilderLaws.

(* A changer that answers the all-types query and rejects MODE SENSE. *)
Lemma fetch_element_map_outcome_witness :
  fst (fst (fetch_element_map (fresh no_mode_sense_changer) empty_map)) = 0
  /\ total_count (snd (fst (fetch_element_map (fresh no_mode_sense_changer)
                                              empty_map))) > 0.
Proof.
  pose (w := fresh no_mode_sense_changer).
  pose (x := execute_cdb w all_types_cdb 65535).
  pose (f := fetch_element_map w empty_map).
  split; [reflexivity|].
  destruct (fetch_element_map_outcome w empty_map
              (fst (fst f)) (snd (fst f)) (snd f)
              (fst (fst x)) (snd (fst x)) (snd x))
    as (_ & _ & _ & Hok); [concrete|concrete|].
  apply Hok. concrete.
Defined.

(* 50 declared slots, 40 found by the first page: two storage-only queries. *)
Lemma fetch_element_map_pagination_witness :
  exists l,
    issued (snd (fetch_element_map (fresh under_reporting_changer) empty_map))
    = [EvCdb all_types_cdb; EvCdb mode_sense_cdb] ++ l
    /\ Forall (asks_for_rest 0x1000 50) l
    /\ (length l <= 50)%nat.
Proof.
  pose (w := fresh under_reporting_changer).
  pose (x := execute_cdb w all_types_cdb 65535).
  pose (y := read_mode_sense_element (snd x) assign_zero).
  pose (f := fetch_element_map w empty_map).
  destruct (fetch_element_map_pagination
              w empty_map (snd (fst x)) (snd x) (snd (fst y)) (snd y)
              (fst (fst f)) (snd (fst f)) (snd f))
    as (l & Hl & Fl & _ & Len); [concrete_builder|concrete|concrete|].
  exists l. split; [exact Hl|]. split; [exact Fl|].
  change (num_storage (snd (fst y))) with 50 in Len. lia.
Defined.

(* A map that already lists transport 7 keeps it in front. *)
Lemma fetch_element_map_keeps_other_roles_witness :
  transports (snd (fst (fetch_element_map (fresh empty_jukebox)
                                          (mkElementMap [7] [] [] []))))
  = [7; 0].
Proof.
  pose (w := fresh empty_jukebox).
  pose (f := fetch_element_map w (mkElementMap [7] [] [] [])).
  destruct (fetch_element_map_keeps_other_roles
              w (mkElementMap [7] [] [] []) (fst (fst f)) (snd (fst f)) (snd f))
    as ((added & Ht & _) & _ & _ & Hs); [concrete|].
  pose proof (Hs (Forall_nil _)) as _.
  concrete.
Defined.

(** ** The library operations: what they issue *)

Section ApiLaws.
Context {Device : Type} {T : Transport Device}.
Implicit Types (w : World Device) (map : ElementMap).

(** X10: mchanger_unload_drive does not look at the occupancy.  With both
    indices in range, right after the discovery it triggers the host-OS
    eject and issues one MOVE MEDIUM from the drive to the slot, through
    the first discovered transport element (address 0 if there is none);
    it reads no element status, and it returns success exactly when that
    move succeeds. *)
Theorem mchanger_unload_drive_unconditional w slot drive map w1 :
  fetch_element_map w empty_map = (0, map, w1) ->
  1 <= slot <= count (slots map) ->
  1 <= drive <= count (drives map) ->
  let t := first_or_zero (transports map) in
  let slot_addr := addr_at (slots map) slot in
  let drive_addr := addr_at (drives map) drive in
  exists rc w2,
    cmd_move_medium (eject_optical_media w1) t drive_addr slot_addr = (rc, w2)
    /\ mchanger_unload_drive w slot drive
       = (if rc =? 0 then MCHANGER_OK else MCHANGER_ERR_SCSI, w2)
    /\ issued w2
       = issued w1 ++ [EvHostEject; EvCdb (move_medium_cdb t drive_addr slot_addr)].
Proof.
  intros F Hs Hd t slot_addr drive_addr.
  destruct (cmd_move_medium (eject_optical_media w1) t drive_addr slot_addr)
    as [rc w2] eqn:M.
  exists rc, w2. split; [reflexivity|]. split.
  - unfold mchanger_unload_drive.
    rewrite (proj2 (Z.ltb_ge slot 1)), (proj2 (Z.ltb_ge drive 1)) by lia.
    rewrite F. reduce_call.
    rewrite (gtb_false slot), (gtb_false drive) by lia. reduce_call.
    fold t slot_addr drive_addr. rewrite M. reflexivity.
  - apply cmd_move_medium_issued in M. rewrite M.
    cbn [eject_optical_media issued]. rewrite <- app_assoc. reflexivity.
Qed.

(** X11: the moves of mchanger_eject.  With the statuses read and an
    import/export element present: if the slot reports full or the drive
    reports empty, the only command that follows is one MOVE MEDIUM from
    the slot to the first import/export element, without a host-OS eject.
    If the slot reports empty and the drive full, the host-OS eject and a
    MOVE MEDIUM from the drive to the slot come first; when that move fails
    the result is ScsiError and nothing follows, otherwise the move from
    the slot to the import/export element follows.  The result is success
    exactly when the last move issued succeeds. *)
Theorem mchanger_eject_moves w slot drive map drive_st slot_st w2 :
  reads_status w slot drive map drive_st slot_st w2 ->
  count (ie map) > 0 ->
  let t := first_or_zero (transports map) in
  let slot_addr := addr_at (slots map) slot in
  let drive_addr := addr_at (drives map) drive in
  let ie_addr := nth 0 (ie map) 0 in
  let to_slot := EvCdb (move_medium_cdb t drive_addr slot_addr) in
  let to_ie := EvCdb (move_medium_cdb t slot_addr ie_addr) in
  exists rc w',
    mchanger_eject w slot drive = (rc, w')
    /\ (negb (full slot_st) && full drive_st = false ->
        issued w' = issued w2 ++ [to_ie]
        /\ exists r, cmd_move_medium w2 t slot_addr ie_addr = (r, w')
                     /\ rc = if r =? 0 then MCHANGER_OK else MCHANGER_ERR_SCSI)
    /\ (negb (full slot_st) && full drive_st = true ->
        exists r_u w3,
          cmd_move_medium (eject_optical_media w2) t drive_addr slot_addr = (r_u, w3)
          /\ (r_u <> 0 ->
              rc = MCHANGER_ERR_SCSI /\ w' = w3
              /\ issued w' = issued w2 ++ [EvHostEject; to_slot])
          /\ (r_u = 0 ->
              issued w' = issued w2 ++ [EvHostEject; to_slot; to_ie]
              /\ exists r, cmd_move_medium w3 t slot_addr ie_addr = (r, w')
                           /\ rc = if r =? 0 then MCHANGER_OK
                                   else MCHANGER_ERR_SCSI)).
Proof.
  intros (w1 & F & [Hs1 Hs2] & [Hd1 Hd2] & R) Hie t slot_addr drive_addr ie_addr
         to_slot to_ie.
  unfold mchanger_eject.
  rewrite (proj2 (Z.ltb_ge slot 1)), (proj2 (Z.ltb_ge drive 1)) by lia.
  rewrite F. reduce_call.
  rewrite (gtb_false slot), (gtb_false drive) by lia.
  rewrite (proj2 (Z.eqb_neq (count (ie map)) 0)) by lia.
  reduce_call. rewrite R. reduce_call.
  fold t slot_addr drive_addr ie_addr.
  destruct (negb (full slot_st) && full drive_st) eqn:U.
  - destruct (cmd_move_medium (eject_optical_media w2) t drive_addr slot_addr)
      as [r_u w3] eqn:MU.
    pose proof (cmd_move_medium_issued _ _ _ _ _ _ MU) as Hu.
    cbn [eject_optical_media issued] in Hu. rewrite <- app_assoc in Hu.
    cbn [app] in Hu.
    destruct (r_u =? 0) eqn:RU; cbn [negb].
    + apply Z.eqb_eq in RU. subst r_u.
      destruct (cmd_move_medium w3 t slot_addr ie_addr) as [r w4] eqn:MI.
      pose proof (cmd_move_medium_issued _ _ _ _ _ _ MI) as Hi.
      eexists. eexists. split; [reflexivity|].
      split; [intros N; discriminate N|]. intros _.
      exists 0, w3. split; [reflexivity|].
      split; [intros N; contradiction N; reflexivity|]. intros _.
      split; [rewrite Hi, Hu, <- app_assoc; reflexivity|].
      exists r. split; [exact MI|reflexivity].
    + apply Z.eqb_neq in RU.
      eexists. eexists. split; [reflexivity|].
      split; [intros N; discriminate N|]. intros _.
      exists r_u, w3. split; [reflexivity|].
      split; [intros _; split; [reflexivity|split; [reflexivity|exact Hu]]|].
      intros N. contradiction.
  - cbn [Z.eqb negb].
    destruct (cmd_move_medium w2 t slot_addr ie_addr) as [r w4] eqn:MI.
    pose proof (cmd_move_medium_issued _ _ _ _ _ _ MI) as Hi.
    eexists. eexists. split; [reflexivity|].
    split; [|intros N; discriminate N]. intros _.
    split; [exact Hi|]. exists r. split; reflexivity.
Qed.

(** X12: mchanger_eject needs an import/export element.  With both indices
    in range but no import/export element discovered it returns
    InvalidArgument right after the discovery: no element status is read
    and nothing is moved. *)
Theorem mchanger_eject_needs_ie w slot drive map w1 :
  fetch_element_map w empty_map = (0, map, w1) ->
  1 <= slot -> 1 <= drive ->
  ie map = [] ->
  mchanger_eject w slot drive = (MCHANGER_ERR_INVALID, w1)
  /\ moves (issued w1) = moves (issued w).
Proof.
  intros F Hs Hd Hie. split; [|eapply fetch_element_map_no_moves; exact F].
  unfold mchanger_eject.
  rewrite (proj2 (Z.ltb_ge slot 1)), (proj2 (Z.ltb_ge drive 1)) by lia.
  rewrite F. reduce_call. rewrite Hie. cbn [count length Z.of_nat Z.eqb].
  rewrite !orb_true_r. reflexivity.
Qed.

(** X13: a load into an empty drive.  When the target slot reports full and
    the drive reports empty, mchanger_load_slot_verbose issues exactly one
    MOVE MEDIUM, from the slot to the drive, without a host-OS eject, and
    returns success exactly when that move succeeds; the wait for the
    mounted volume happens only on success and only with a callback. *)
Theorem mchanger_load_slot_into_empty_drive
        w slot drive callback map drive_st slot_st w2 :
  reads_status w slot drive map drive_st slot_st w2 ->
  full slot_st = true ->
  full drive_st = false ->
  let t := first_or_zero (transports map) in
  let slot_addr := addr_at (slots map) slot in
  let drive_addr := addr_at (drives map) drive in
  exists r w3,
    cmd_move_medium w2 t slot_addr drive_addr = (r, w3)
    /\ issued w3 = issued w2 ++ [EvCdb (move_medium_cdb t slot_addr drive_addr)]
    /\ mchanger_load_slot_verbose w slot drive callback
       = if r =? 0
         then (MCHANGER_OK, if callback then wait_for_mount w3 else w3)
         else (MCHANGER_ERR_SCSI, w3).
Proof.
  intros (w1 & F & [Hs1 Hs2] & [Hd1 Hd2] & R) Hslot Hdrive t slot_addr drive_addr.
  destruct (cmd_move_medium w2 t slot_addr drive_addr) as [r w3] eqn:M.
  exists r, w3. split; [reflexivity|].
  split; [eapply cmd_move_medium_issued; exact M|].
  unfold mchanger_load_slot_verbose.
  rewrite (proj2 (Z.ltb_ge slot 1)), (proj2 (Z.ltb_ge drive 1)) by lia.
  rewrite F. reduce_call.
  rewrite (gtb_false slot), (gtb_false drive) by lia.
  rewrite R. reduce_call.
  rewrite Hslot, Hdrive. reduce_call.
  fold t slot_addr drive_addr. rewrite M.
  destruct (r =? 0); reflexivity.
Qed.

Lemma storage_phase_is_status_query (l : list Event) :
  only_storage_phase l -> status_queries_only l.
Proof.
  unfold only_storage_phase, status_queries_only. apply Forall_impl.
  intros [cdb| |] He; cbn in He |- *; try discriminate.
  destruct (opcode cdb =? 0xB8); [reflexivity|].
  destruct (opcode cdb =? 0x5A); [reflexivity|discriminate].
Qed.

Lemma fetch_element_map_queries_only w map rc m w' :
  fetch_element_map w map = (rc, m, w') ->
  exists l, issued w' = issued w ++ l /\ status_queries_only l.
Proof.
  intros F. apply fetch_element_map_issued in F. destruct F as (l & E & Hl).
  eexists. split; [exact E|].
  apply Forall_cons; [reflexivity|apply storage_phase_is_status_query; exact Hl].
Qed.

Lemma read_element_status_info_queries_only w da ds sa ss rc ds' ss' w' :
  read_element_status_info w da ds sa ss = (rc, ds', ss', w') ->
  exists l, issued w' = issued w ++ l /\ status_queries_only l.
Proof.
  intros R. apply read_element_status_info_issued in R.
  eexists. split; [exact R|]. apply Forall_cons; [reflexivity|apply Forall_nil].
Qed.

Lemma queries_only_trans (a b c l1 l2 : list Event) :
  b = a ++ l1 -> c = b ++ l2 ->
  status_queries_only l1 -> status_queries_only l2 ->
  exists l, c = a ++ l /\ status_queries_only l.
Proof.
  intros -> -> H1 H2. exists (l1 ++ l2). rewrite app_assoc.
  split; [reflexivity|apply Forall_app; split; assumption].
Qed.

Lemma discovery_and_status_queries_only w map w1 da ds sa ss rc ds' ss' w2 :
  fetch_element_map w empty_map = (0, map, w1) ->
  read_element_status_info w1 da ds sa ss = (rc, ds', ss', w2) ->
  exists l, issued w2 = issued w ++ l /\ status_queries_only l.
Proof.
  intros F R.
  apply fetch_element_map_queries_only in F. destruct F as (l1 & E1 & H1).
  apply read_element_status_info_queries_only in R. destruct R as (l2 & E2 & H2).
  eapply queries_only_trans; eassumption.
Qed.

(** X14: a load from an empty slot.  When the target slot reports empty and
    the drive does not hold that slot's medium (it is empty, or its source
    is unknown or another address), mchanger_load_slot_verbose returns
    Empty; everything it has issued is READ ELEMENT STATUS and MODE SENSE
    commands: no MOVE MEDIUM and no host-OS eject. *)
Theorem mchanger_load_slot_empty w slot drive callback map drive_st slot_st w2 :
  reads_status w slot drive map drive_st slot_st w2 ->
  full slot_st = false ->
  sourced_from drive_st (addr_at (slots map) slot) = false ->
  mchanger_load_slot_verbose w slot drive callback = (MCHANGER_ERR_EMPTY, w2)
  /\ exists l, issued w2 = issued w ++ l /\ status_queries_only l.
Proof.
  intros (w1 & F & [Hs1 Hs2] & [Hd1 Hd2] & R) Hslot Hsrc.
  split; [|eapply discovery_and_status_queries_only; eassumption].
  unfold sourced_from in Hsrc.
  unfold mchanger_load_slot_verbose.
  rewrite (proj2 (Z.ltb_ge slot 1)), (proj2 (Z.ltb_ge drive 1)) by lia.
  rewrite F. reduce_call.
  rewrite (gtb_false slot), (gtb_false drive) by lia.
  rewrite R. reduce_call.
  rewrite Hslot. reduce_call. rewrite Hsrc. reflexivity.
Qed.

(** X15: a failed status read.  When the discovery succeeds and the indices
    are in range but the READ ELEMENT STATUS that fetches the two statuses
    fails, mchanger_load_slot_verbose returns ScsiError, and so does
    mchanger_eject when an import/export element exists; everything issued
    is READ ELEMENT STATUS and MODE SENSE commands, nothing is moved. *)
Theorem status_read_failure_is_scsi_error
        w slot drive callback map w1 rc ds ss w2 :
  fetch_element_map w empty_map = (0, map, w1) ->
  1 <= slot <= count (slots map) ->
  1 <= drive <= count (drives map) ->
  read_element_status_info w1 (addr_at (drives map) drive) (Some status_zero)
                           (addr_at (slots map) slot) (Some status_zero)
  = (rc, ds, ss, w2) ->
  rc <> 0 ->
  mchanger_load_slot_verbose w slot drive callback = (MCHANGER_ERR_SCSI, w2)
  /\ (count (ie map) > 0 -> mchanger_eject w slot drive = (MCHANGER_ERR_SCSI, w2))
  /\ exists l, issued w2 = issued w ++ l /\ status_queries_only l.
Proof.
  intros F [Hs1 Hs2] [Hd1 Hd2] R Hrc. apply Z.eqb_neq in Hrc.
  split; [|split; [|eapply discovery_and_status_queries_only; eassumption]].
  - unfold mchanger_load_slot_verbose.
    rewrite (proj2 (Z.ltb_ge slot 1)), (proj2 (Z.ltb_ge drive 1)) by lia.
    rewrite F. reduce_call.
    rewrite (gtb_false slot), (gtb_false drive) by lia.
    rewrite R. reduce_call. rewrite Hrc. reflexivity.
  - intros Hie. unfold mchanger_eject.
    rewrite (proj2 (Z.ltb_ge slot 1)), (proj2 (Z.ltb_ge drive 1)) by lia.
    rewrite F. reduce_call.
    rewrite (gtb_false slot), (gtb_false drive) by lia.
    rewrite (proj2 (Z.eqb_neq (count (ie map)) 0)) by lia.
    reduce_call. rewrite R. reduce_call. rewrite Hrc. reflexivity.
Qed.

Lemma moves_wait_for_mount w :
  moves (issued (wait_for_mount w)) = moves (issued w).
Proof.
  cbn [wait_for_mount issued]. rewrite moves_app. cbn. apply app_nil_r.
Qed.

Ltac no_more_moves H :=
  exists []; rewrite app_nil_r; split; [exact H|cbn; lia].

Ltac in_codes := cbn; intuition reflexivity.

(** X16: result codes and number of moves of the three media operations,
    whatever the indices and whatever the device answers.
    mchanger_load_slot_verbose returns Ok, InvalidArgument, ScsiError or
    Empty and issues at most two MOVE MEDIUM commands; mchanger_unload_drive
    returns Ok, InvalidArgument or ScsiError and issues at most one;
    mchanger_eject returns Ok, InvalidArgument or ScsiError and issues at
    most two. *)
Theorem media_operations_codes_and_moves w slot drive callback :
  (In (fst (mchanger_load_slot_verbose w slot drive callback)) load_codes
   /\ exists l,
       moves (issued (snd (mchanger_load_slot_verbose w slot drive callback)))
       = moves (issued w) ++ l /\ (length l <= 2)%nat)
  /\ (In (fst (mchanger_unload_drive w slot drive)) move_codes
      /\ exists l,
          moves (issued (snd (mchanger_unload_drive w slot drive)))
          = moves (issued w) ++ l /\ (length l <= 1)%nat)
  /\ (In (fst (mchanger_eject w slot drive)) move_codes
      /\ exists l,
          moves (issued (snd (mchanger_eject w slot drive)))
          = moves (issued w) ++ l /\ (length l <= 2)%nat).
Proof.
  split; [|split].
  - unfold mchanger_load_slot_verbose.
    destruct ((slot <? 1) || (drive <? 1));
      [split; [in_codes|no_more_moves (eq_refl (moves (issued w)))]|].
    destruct (fetch_element_map w empty_map) as [[rc map] w1] eqn:F.
    apply fetch_element_map_no_moves in F.
    destruct (negb (rc =? 0)); [split; [in_codes|no_more_moves F]|].
    destruct ((slot >? count (slots map)) || (drive >? count (drives map)));
      [split; [in_codes|no_more_moves F]|].
    destruct (read_element_status_info _ _ _ _ _) as [[[r ds] ss] w2] eqn:R.
    apply read_element_status_info_no_moves in R. rewrite F in R.
    destruct (negb (r =? 0)); [split; [in_codes|no_more_moves R]|].
    reduce_call.
    destruct (negb (full (deref ss)) && full (deref ds) && valid_src (deref ds)
              && (src_addr (deref ds) =? addr_at (slots map) slot));
      [split; [in_codes|no_more_moves R]|].
    destruct (negb (full (deref ss)) && _);
      [split; [in_codes|no_more_moves R]|].
    destruct (full (deref ds)).
    + destruct (cmd_move_medium (eject_optical_media w2) _ _ _) as [r1 w3] eqn:M1.
      apply move_after_host_eject in M1. rewrite R in M1.
      destruct (negb (r1 =? 0)).
      { split; [in_codes|]. eexists. split; [exact M1|cbn; lia]. }
      destruct (cmd_move_medium w3 _ _ _) as [r2 w4] eqn:M2.
      apply move_appends in M2. rewrite M1, <- app_assoc in M2.
      destruct (negb (r2 =? 0)).
      { split; [in_codes|]. eexists. split; [exact M2|cbn; lia]. }
      split; [in_codes|]. eexists. cbn [snd].
      split; [destruct callback; [rewrite moves_wait_for_mount|]; exact M2|cbn; lia].
    + reduce_call.
      destruct (cmd_move_medium w2 _ _ _) as [r2 w4] eqn:M2.
      apply move_appends in M2. rewrite R in M2.
      destruct (negb (r2 =? 0)).
      { split; [in_codes|]. eexists. split; [exact M2|cbn; lia]. }
      split; [in_codes|]. eexists. cbn [snd].
      split; [destruct callback; [rewrite moves_wait_for_mount|]; exact M2|cbn; lia].
  - unfold mchanger_unload_drive.
    destruct ((slot <? 1) || (drive <? 1));
      [split; [in_codes|no_more_moves (eq_refl (moves (issued w)))]|].
    destruct (fetch_element_map w empty_map) as [[rc map] w1] eqn:F.
    apply fetch_element_map_no_moves in F.
    destruct (negb (rc =? 0)); [split; [in_codes|no_more_moves F]|].
    destruct ((slot >? count (slots map)) || (drive >? count (drives map)));
      [split; [in_codes|no_more_moves F]|].
    destruct (cmd_move_medium (eject_optical_media w1) _ _ _) as [r1 w3] eqn:M1.
    apply move_after_host_eject in M1. rewrite F in M1.
    split; [destruct (r1 =? 0); in_codes|].
    eexists. split; [exact M1|cbn; lia].
  - unfold mchanger_eject.
    destruct ((slot <? 1) || (drive <? 1));
      [split; [in_codes|no_more_moves (eq_refl (moves (issued w)))]|].
    destruct (fetch_element_map w empty_map) as [[rc map] w1] eqn:F.
    apply fetch_element_map_no_moves in F.
    destruct (negb (rc =? 0)); [split; [in_codes|no_more_moves F]|].
    destruct ((slot >? count (slots map)) || (drive >? count (drives map))
              || (count (ie map) =? 0));
      [split; [in_codes|no_more_moves F]|].
    destruct (read_element_status_info _ _ _ _ _) as [[[r ds] ss] w2] eqn:R.
    apply read_element_status_info_no_moves in R. rewrite F in R.
    destruct (negb (r =? 0)); [split; [in_codes|no_more_moves R]|].
    reduce_call.
    destruct (negb (full (deref ss)) && full (deref ds)).
    + destruct (cmd_move_medium (eject_optical_media w2) _ _ _) as [r1 w3] eqn:M1.
      apply move_after_host_eject in M1. rewrite R in M1.
      destruct (negb (r1 =? 0)).
      { split; [in_codes|]. eexists. split; [exact M1|cbn; lia]. }
      destruct (cmd_move_medium w3 _ _ _) as [r2 w4] eqn:M2.
      apply move_appends in M2. rewrite M1, <- app_assoc in M2.
      split; [destruct (r2 =? 0); in_codes|].
      eexists. split; [exact M2|cbn; lia].
    + reduce_call.
      destruct (cmd_move_medium w2 _ _ _) as [r2 w4] eqn:M2.
      apply move_appends in M2. rewrite R in M2.
      split; [destruct (r2 =? 0); in_codes|].
      eexists. split; [exact M2|cbn; lia].
Qed.













(** X18: the status queries only read.  Whatever the index and whatever the
    device answers, mchanger_get_slot_status and mchanger_get_drive_status
    return Ok, InvalidArgument or ScsiError; unless the result is Ok the
    caller's structure is left as it was; an index below 1 is refused
    without any command; and everything they issue is READ ELEMENT STATUS
    and MODE SENSE commands. *)
Theorem status_queries_read_only w index out code st w' :
  mchanger_get_slot_status w index out = (code, st, w')
  \/ mchanger_get_drive_status w index out = (code, st, w') ->
  In code move_codes
  /\ (code <> MCHANGER_OK -> st = out)
  /\ (index < 1 -> code = MCHANGER_ERR_INVALID /\ w' = w)
  /\ exists l, issued w' = issued w ++ l /\ status_queries_only l.
Proof.
  assert (Hnil : exists l, issued w = issued w ++ l /\ status_queries_only l).
  { exists []. rewrite app_nil_r. split; [reflexivity|apply Forall_nil]. }
  intros [H|H].
  - unfold mchanger_get_slot_status in H.
    destruct (index <? 1) eqn:I.
    { injection H as <- <- <-. split; [in_codes|].
      split; [reflexivity|]. split; [split; reflexivity|exact Hnil]. }
    apply Z.ltb_ge in I.
    destruct (fetch_element_map w empty_map) as [[rc map] w1] eqn:F.
    pose proof (fetch_element_map_queries_only _ _ _ _ _ F) as Q1.
    destruct (negb (rc =? 0)) eqn:N.
    { injection H as <- <- <-. split; [in_codes|].
      split; [reflexivity|]. split; [lia|exact Q1]. }
    apply negb_false_iff, Z.eqb_eq in N. subst rc.
    destruct (index >? count (slots map)).
    { injection H as <- <- <-. split; [in_codes|].
      split; [reflexivity|]. split; [lia|exact Q1]. }
    destruct (read_element_status_info _ _ _ _ _) as [[[r ds] ss] w2] eqn:R.
    pose proof (discovery_and_status_queries_only _ _ _ _ _ _ _ _ _ _ _ F R) as Q2.
    destruct (negb (r =? 0)); injection H as <- <- <-.
    + split; [in_codes|]. split; [reflexivity|]. split; [lia|exact Q2].
    + split; [in_codes|].
      split; [intros N; contradiction N; reflexivity|]. split; [lia|exact Q2].
  - unfold mchanger_get_drive_status in H.
    destruct (index <? 1) eqn:I.
    { injection H as <- <- <-. split; [in_codes|].
      split; [reflexivity|]. split; [split; reflexivity|exact Hnil]. }
    apply Z.ltb_ge in I.
    destruct (fetch_element_map w empty_map) as [[rc map] w1] eqn:F.
    pose proof (fetch_element_map_queries_only _ _ _ _ _ F) as Q1.
    destruct (negb (rc =? 0)) eqn:N.
    { injection H as <- <- <-. split; [in_codes|].
      split; [reflexivity|]. split; [lia|exact Q1]. }
    apply negb_false_iff, Z.eqb_eq in N. subst rc.
    destruct (index >? count (drives map)).
    { injection H as <- <- <-. split; [in_codes|].
      split; [reflexivity|]. split; [lia|exact Q1]. }
    destruct (read_element_status_info _ _ _ _ _) as [[[r ds] ss] w2] eqn:R.
    pose proof (discovery_and_status_queries_only _ _ _ _ _ _ _ _ _ _ _ F R) as Q2.
    destruct (negb (r =? 0)); injection H as <- <- <-.
    + split; [in_codes|]. split; [reflexivity|]. split; [lia|exact Q2].
    + split; [in_codes|].
      split; [intros N; contradiction N; reflexivity|]. split; [lia|exact Q2].
Qed.

End ApiLaws.

(* Unloading an empty drive still triggers the move. *)
Lemma mchanger_unload_drive_unconditional_witness :
  fst (mchanger_unload_drive (fresh empty_jukebox) 6 1) = MCHANGER_OK
  /\ moves (issued (snd (mchanger_unload_drive (fresh empty_jukebox) 6 1)))
     = [EvCdb (move_medium_cdb 0 0x0100 0x1005)].
Proof.
  pose (w := fresh empty_jukebox).
  pose (f := fetch_element_map w empty_map).
  destruct (mchanger_unload_drive_unconditional w 6 1 (snd (fst f)) (snd f))
    as (rc & w2 & M & E & Hi);
    [concrete|split; concrete|split; concrete|].
  fold w. rewrite E. cbn [fst snd]. rewrite Hi.
  vm_compute in M. injection M as <- _.
  split; concrete.
Defined.

(* Slot 6 empty, its medium in the drive: eject(6, 1) unloads, then moves
   the medium to the import/export element. *)
Lemma mchanger_eject_moves_witness :
  fst (mchanger_eject (fresh loaded_jukebox) 6 1) = MCHANGER_OK
  /\ moves (issued (snd (mchanger_eject (fresh loaded_jukebox) 6 1)))
     = [EvCdb (move_medium_cdb 0 0x0100 0x1005);
        EvCdb (move_medium_cdb 0 0x1005 0x0010)].
Proof.
  pose (w := fresh loaded_jukebox).
  pose (f := fetch_element_map w empty_map).
  pose (map := snd (fst f)).
  pose (r := read_element_status_info (snd f)
               (addr_at (drives map) 1) (Some status_zero)
               (addr_at (slots map) 6) (Some status_zero)).
  destruct (mchanger_eject_moves w 6 1 map
              (deref (snd (fst (fst r)))) (deref (snd (fst r))) (snd r))
    as (rc & w' & E & _ & Hu); [concrete_reads f|concrete|].
  destruct (Hu ltac:(concrete)) as (r_u & w3 & MU & _ & Hok).
  vm_compute in MU. injection MU as <- <-.
  destruct (Hok eq_refl) as (Hi & r0 & MI & ->).
  vm_compute in MI. injection MI as <- _.
  fold w. rewrite E. cbn [fst snd]. rewrite Hi.
  split; concrete.
Defined.

(* A changer without import/export element: eject is refused. *)
Lemma mchanger_eject_needs_ie_witness :
  fst (mchanger_eject (fresh no_mode_sense_changer) 1 1) = MCHANGER_ERR_INVALID.
Proof.
  pose (w := fresh no_mode_sense_changer).
  pose (f := fetch_element_map w empty_map).
  destruct (mchanger_eject_needs_ie w 1 1 (snd (fst f)) (snd f)) as [E _];
    [concrete|lia|lia|concrete|].
  fold w. rewrite E. reflexivity.
Defined.

(* Slot 1 full and the drive empty: one move, slot 1 to the drive. *)
Lemma mchanger_load_slot_into_empty_drive_witness :
  fst (mchanger_load_slot_verbose (fresh empty_jukebox) 1 1 true) = MCHANGER_OK
  /\ issued (snd (mchanger_load_slot_verbose (fresh empty_jukebox) 1 1 true))
     = [EvCdb (read_element_status_cdb 0x00 0 0xFFFF 65535);
        EvCdb mode_sense_cdb;
        EvCdb (read_element_status_cdb 0x00 0 0xFFFF 4096);
        EvCdb (move_medium_cdb 0 0x1000 0x0100);
        EvWaitForMount].
Proof.
  pose (w := fresh empty_jukebox).
  pose (f := fetch_element_map w empty_map).
  pose (map := snd (fst f)).
  pose (r := read_element_status_info (snd f)
               (addr_at (drives map) 1) (Some status_zero)
               (addr_at (slots map) 1) (Some status_zero)).
  destruct (mchanger_load_slot_into_empty_drive w 1 1 true map
              (deref (snd (fst (fst r)))) (deref (snd (fst r))) (snd r))
    as (r0 & w3 & M & _ & E); [concrete_reads f|concrete|concrete|].
  vm_compute in M. injection M as <- <-.
  fold w. rewrite E. split; concrete.
Defined.

(* Slot 6 empty and the drive empty: load(6, 1) answers Empty. *)
Lemma mchanger_load_slot_empty_witness :
  fst (mchanger_load_slot_verbose (fresh empty_jukebox) 6 1 false)
  = MCHANGER_ERR_EMPTY.
Proof.
  pose (w := fresh empty_jukebox).
  pose (f := fetch_element_map w empty_map).
  pose (map := snd (fst f)).
  pose (r := read_element_status_info (snd f)
               (addr_at (drives map) 1) (Some status_zero)
               (addr_at (slots map) 6) (Some status_zero)).
  destruct (mchanger_load_slot_empty w 6 1 false map
              (deref (snd (fst (fst r)))) (deref (snd (fst r))) (snd r))
    as [E _]; [concrete_reads f|concrete|concrete|].
  fold w. rewrite E. reflexivity.
Defined.

(* A changer that stops answering after the discovery: load and eject
   report ScsiError. *)
Lemma status_read_failure_is_scsi_error_witness :
  fst (mchanger_load_slot_verbose (fresh_fading 2 loaded_jukebox) 6 1 false)
  = MCHANGER_ERR_SCSI
  /\ fst (mchanger_eject (fresh_fading 2 loaded_jukebox) 6 1) = MCHANGER_ERR_SCSI.
Proof.
  pose (w := fresh_fading 2 loaded_jukebox).
  pose (f := fetch_element_map w empty_map).
  pose (map := snd (fst f)).
  pose (r := read_element_status_info (snd f)
               (addr_at (drives map) 1) (Some status_zero)
               (addr_at (slots map) 6) (Some status_zero)).
  destruct (status_read_failure_is_scsi_error w 6 1 false map (snd f)
              (fst (fst (fst r))) (snd (fst (fst r))) (snd (fst r)) (snd r))
    as (El & Ee & _);
    [concrete|split; concrete|split; concrete|concrete|concrete|].
  fold w. rewrite El, (Ee ltac:(concrete)). split; reflexivity.
Defined.


(* The changer stops answering after the discovery: the caller's structure
   comes back as it was. *)
Lemma status_queries_read_only_witness :
  mchanger_get_slot_status (fresh_fading 2 loaded_jukebox) 6
                           (Api.mkStatus 9 true true false 9)
  = (MCHANGER_ERR_SCSI, Api.mkStatus 9 true true false 9,
     snd (mchanger_get_slot_status (fresh_fading 2 loaded_jukebox) 6
                                   (Api.mkStatus 9 true true false 9))).
Proof.
  pose (w := fresh_fading 2 loaded_jukebox).
  pose (out := Api.mkStatus 9 true true false 9).
  pose (x := mchanger_get_slot_status w 6 out).
  destruct (status_queries_read_only w 6 out (fst (fst x)) (snd (fst x)) (snd x))
    as (_ & Hout & _); [left; concrete|].
  fold w out x. rewrite <- (Hout ltac:(concrete)). concrete.
Defined.

(** ** The rest of the library: element map and INQUIRY *)

Section LibraryQueries.
Context {Device : Type} {T : Transport Device}.
Implicit Types (w : World Device) (map : ElementMap).

Lemma fetch_element_map_success_nonempty w map m w' :
  fetch_element_map w map = (0, m, w') -> total_count m > 0.
Proof.
  unfold fetch_element_map. intros H.
  destruct (execute_cdb w (read_element_status_cdb 0 0 65535 65535) 65535)
    as [[r b] w1].
  destruct (negb (r =? 0)) eqn:N; [injection H as -> _ _; discriminate N|].
  destruct (rd24 b 5 =? 0); [injection H as E _ _; discriminate E|].
  apply storage_phase_code in H.
  destruct H as [[_ G]|[E _]]; [exact G|discriminate E].
Qed.

Lemma copy_list_id (l : list Z) : copy_list l = l.
Proof.
  unfold copy_list, count. destruct l as [|a l]; [reflexivity|].
  rewrite gtb_true by (cbn [length]; lia). reflexivity.
Qed.

(** X19: mchanger_get_element_map hands out the builder's map.  It fails
    with ScsiError exactly when fetch_element_map does not return 0, and
    then the caller's structure is zeroed whatever it held; on success the
    four address lists are those of the builder (allocation succeeding), at
    least one of them is not empty, and everything issued is READ ELEMENT
    STATUS and MODE SENSE commands. *)
Theorem mchanger_get_element_map_copies w out rc m w1 :
  fetch_element_map w empty_map = (rc, m, w1) ->
  (rc <> 0 ->
   mchanger_get_element_map w out
   = (MCHANGER_ERR_SCSI, mkPublicMap [] [] [] [], w1))
  /\ (rc = 0 ->
      mchanger_get_element_map w out
      = (MCHANGER_OK,
         mkPublicMap (slots m) (drives m) (transports m) (ie m), w1)
      /\ total_count m > 0)
  /\ exists l, issued w1 = issued w ++ l /\ status_queries_only l.
Proof.
  intros F. unfold mchanger_get_element_map. rewrite F.
  split; [|split; [|eapply fetch_element_map_queries_only; exact F]].
  - intros N. apply Z.eqb_neq in N. rewrite N. reflexivity.
  - intros ->. rewrite !copy_list_id.
    split; [reflexivity|eapply fetch_element_map_success_nonempty; exact F].
Qed.

End LibraryQueries.

Lemma firstn_snoc (v : list Z) : forall n,
  (n < length v)%nat -> firstn (S n) v = firstn n v ++ [nth n v 0].
Proof.
  induction v as [|a v IH]; intros n Hn; [cbn in Hn; lia|].
  destruct n as [|n]; [reflexivity|].
  cbn [firstn nth app]. f_equal. apply IH. cbn [length] in Hn. lia.
Qed.

Lemma trim_trailing_spaces_spec (v : list Z) : forall len,
  (len <= length v)%nat ->
  exists k,
    firstn len v = firstn (trim_trailing_spaces v len) v ++ repeat 32 k
    /\ last (firstn (trim_trailing_spaces v len) v) 0 <> 32
    /\ (trim_trailing_spaces v len <= len)%nat.
Proof.
  induction len as [|n IH]; intros Hlen.
  - exists 0%nat. cbn. split; [reflexivity|]. split; [discriminate|lia].
  - cbn [trim_trailing_spaces].
    destruct (nth n v 0 =? 32) eqn:E.
    + apply Z.eqb_eq in E.
      destruct IH as (k & Hk & Hlast & Hle); [lia|].
      exists (S k). rewrite firstn_snoc by lia. rewrite Hk, E, <- app_assoc.
      split; [f_equal; symmetry; apply repeat_cons|].
      split; [exact Hlast|lia].
    + apply Z.eqb_neq in E. exists 0%nat. cbn [repeat]. rewrite app_nil_r.
      split; [reflexivity|]. split; [|lia].
      rewrite firstn_snoc by lia. rewrite last_last. exact E.
Qed.

Lemma bytes_at_length (buf : Buffer) (off : Z) (n : nat) :
  length (bytes_at buf off n) = n.
Proof. unfold bytes_at. rewrite length_map, length_seq. reflexivity. Qed.

Lemma fill_field_trimmed (buf : Buffer) (off width : Z)
      (out : option (list Z)) (out_len : Z) :
  0 <= width ->
  trimmed_copy buf off width out out_len (fill_field buf off width out out_len).
Proof.
  intros Hw. unfold trimmed_copy, fill_field. destruct out as [old|]; [|reflexivity].
  rewrite Z.gtb_ltb. destruct (out_len <=? 0) eqn:L.
  - apply Z.leb_le in L. rewrite (proj2 (Z.ltb_ge 0 out_len)) by lia. reflexivity.
  - apply Z.leb_gt in L. rewrite (proj2 (Z.ltb_lt 0 out_len)) by lia.
    unfold inquiry_field.
    assert (Hmin : (if out_len - 1 <? width then out_len - 1 else width)
                   = Z.min (out_len - 1) width).
    { destruct (out_len - 1 <? width) eqn:C;
        [apply Z.ltb_lt in C|apply Z.ltb_ge in C]; lia. }
    rewrite Hmin. set (len := Z.to_nat (Z.min (out_len - 1) width)).
    set (v := bytes_at buf off len).
    assert (Hv : length v = len) by apply bytes_at_length.
    destruct (trim_trailing_spaces_spec v len) as (k & Hk & Hlast & Hle); [lia|].
    exists (firstn (trim_trailing_spaces v len) v), k.
    split; [reflexivity|].
    split; [rewrite <- Hk, <- Hv; symmetry; apply firstn_all|].
    split; [exact Hlast|].
    rewrite length_firstn. unfold len in Hle |- *. lia.
Qed.

(** X20: the strings of mchanger_inquiry.  One INQUIRY command with a
    96-byte allocation is issued.  If it fails the result is ScsiError and
    the three arrays are left as they were.  If it succeeds the result is
    Ok and each array that is not NULL and has room for a character holds
    its field (vendor: bytes 8-15, product: bytes 16-31, revision: bytes
    32-35), cut to the array's size less one, with every trailing space
    removed and nothing else; the terminating NUL fits. *)
Theorem mchanger_inquiry_trims {Device : Type} {T : Transport Device}
        (w : World Device) vendor vendor_len product product_len
        revision revision_len rc buf w1 :
  execute_cdb w inquiry_cdb 96 = (rc, buf, w1) ->
  issued w1 = issued w ++ [EvCdb [0x12; 0; 0; 0; 96; 0]]
  /\ (rc <> 0 ->
      mchanger_inquiry w vendor vendor_len product product_len
                       revision revision_len
      = (MCHANGER_ERR_SCSI, vendor, product, revision, w1))
  /\ (rc = 0 ->
      exists v p r,
        mchanger_inquiry w vendor vendor_len product product_len
                         revision revision_len
        = (MCHANGER_OK, v, p, r, w1)
        /\ trimmed_copy buf 8 8 vendor vendor_len v
        /\ trimmed_copy buf 16 16 product product_len p
        /\ trimmed_copy buf 32 4 revision revision_len r).
Proof.
  intros E. unfold mchanger_inquiry. rewrite E.
  split; [apply execute_cdb_issued in E; exact E|]. split.
  - intros N. apply Z.eqb_neq in N. rewrite N. reflexivity.
  - intros ->. cbn [Z.eqb negb].
    eexists. eexists. eexists. split; [reflexivity|].
    split; [apply fill_field_trimmed; lia|].
    split; apply fill_field_trimmed; lia.
Qed.

(* "ACME    " in an array of 64 characters becomes "ACME"; the product in
   an array of 5 is cut to "DISC"; a NULL revision pointer stays NULL. *)
Lemma mchanger_inquiry_trims_witness :
  mchanger_inquiry (fresh_oracle acme_changer)
                   (Some []) 64 (Some []) 5 None 16
  = (MCHANGER_OK, Some [65; 67; 77; 69], Some [68; 73; 83; 67], None,
     mkWorld BACKEND_SCSITASK acme_changer [EvCdb inquiry_cdb]).
Proof.
  pose (w := fresh_oracle acme_changer).
  pose (x := execute_cdb w inquiry_cdb 96).
  destruct (mchanger_inquiry_trims w (Some []) 64 (Some []) 5 None 16
              (fst (fst x)) (snd (fst x)) (snd x))
    as (_ & _ & Hok); [concrete|].
  destruct (Hok ltac:(concrete)) as (v & p & r & E & _).
  fold w. rewrite E. vm_compute in E. injection E as <- <- <-.
  concrete.
Defined.

(* A six-slot jukebox: the public map carries the four lists. *)
Lemma mchanger_get_element_map_copies_witness :
  mchanger_get_element_map (fresh empty_jukebox) (mkPublicMap [1] [2] [3] [4])
  = (MCHANGER_OK,
     mkPublicMap [0x1000; 0x1001; 0x1002; 0x1003; 0x1004; 0x1005]
                 [0x0100] [0] [0x0010],
     snd (fetch_element_map (fresh empty_jukebox) empty_map)).
Proof.
  pose (w := fresh empty_jukebox).
  pose (f := fetch_element_map w empty_map).
  destruct (mchanger_get_element_map_copies w (mkPublicMap [1] [2] [3] [4])
              (fst (fst f)) (snd (fst f)) (snd f))
    as (_ & Hok & _); [concrete|].
  destruct (Hok ltac:(concrete)) as [E _].
  fold w f. rewrite E. concrete.
Defined.

(** ** The diagnostics commands: probe-storage and list-map *)

Section DiagnosticsLaws.
Context {Device : Type} {T : Transport Device}.
Implicit Types (w : World Device) (map : ElementMap).

Lemma probe_loop_run (assign : ElementAddrAssignment) (step : Z) :
  0 < step ->
  0 <= num_storage assign < 65536 ->
  (forall j, 0 <= j -> step * j < num_storage assign -> step * (j + 1) < 65536) ->
  forall m j fuel w,
    (j + m = Z.to_nat ((num_storage assign + step - 1) / step))%nat ->
    (m < fuel)%nat ->
    exists w',
      probe_loop fuel w assign step (step * Z.of_nat j) = Some w'
      /\ issued w'
         = issued w
           ++ map (fun k =>
                     let offset := step * Z.of_nat k in
                     EvCdb (read_element_status_cdb
                              0x02 (u16 (first_storage assign + offset))
                              (if num_storage assign - offset >? step
                               then step else num_storage assign - offset)
                              4096))
                  (seq j m).
Proof.
  intros Hstep HN Hwrap.
  set (N := num_storage assign) in *.
  set (total := (N + step - 1) / step).
  assert (Hlo : step * total <= N + step - 1)
    by (apply Z.mul_div_le; lia).
  assert (Hhi : N + step - 1 < step * total + step).
  { pose proof (Z.mul_succ_div_gt (N + step - 1) step Hstep) as G.
    unfold Z.succ in G. fold total in G. lia. }
  assert (Ht : 0 <= total) by (apply Z.div_pos; lia).
  induction m as [|m IH]; intros j fuel w Hj Hf.
  - destruct fuel as [|fuel]; [lia|]. cbn [probe_loop]. fold N.
    assert (Ej : Z.of_nat j = total) by lia.
    rewrite (proj2 (Z.ltb_ge (step * Z.of_nat j) N)) by (rewrite Ej; lia).
    exists w. split; [reflexivity|]. cbn. now rewrite app_nil_r.
  - destruct fuel as [|fuel]; [lia|]. cbn [probe_loop]. fold N.
    assert (Hj1 : Z.of_nat j + 1 <= total) by lia.
    assert (Hm : step * (Z.of_nat j + 1) <= step * total)
      by (apply Z.mul_le_mono_nonneg_l; lia).
    assert (Hoff : 0 <= step * Z.of_nat j < N).
    { split; [apply Z.mul_nonneg_nonneg; lia|].
      rewrite Z.mul_add_distr_l in Hm. lia. }
    rewrite (proj2 (Z.ltb_lt (step * Z.of_nat j) N)) by lia.
    rewrite (u16_small (N - step * Z.of_nat j)) by lia.
    destruct (execute_cdb w _ 4096) as [[rc buf] w1] eqn:E.
    apply execute_cdb_issued in E.
    assert (Hnext : u16 (step * Z.of_nat j + step) = step * Z.of_nat (S j)).
    { pose proof (Hwrap (Z.of_nat j) ltac:(lia) ltac:(lia)) as G.
      rewrite Nat2Z.inj_succ. unfold Z.succ.
      rewrite Z.mul_add_distr_l, Z.mul_1_r in G |- *.
      apply u16_small. lia. }
    rewrite Hnext.
    destruct (IH (S j) fuel w1) as (w' & P & Hi); [lia|lia|].
    exists w'. split; [exact P|].
    rewrite Hi, E, <- app_assoc. reflexivity.
Qed.

Lemma probe_loop_never_exits (assign : ElementAddrAssignment) :
  65529 <= num_storage assign ->
  forall fuel w q, 0 <= q < 8192 -> probe_loop fuel w assign 40 (8 * q) = None.
Proof.
  intros HN. induction fuel as [|fuel IH]; intros w q Hq; [reflexivity|].
  cbn [probe_loop].
  rewrite (proj2 (Z.ltb_lt (8 * q) (num_storage assign))) by lia.
  destruct (execute_cdb w _ 4096) as [[rc buf] w1].
  destruct (Z_lt_le_dec (8 * q + 40) 65536) as [Hs|Hb].
  - rewrite (u16_small (8 * q + 40)) by lia.
    replace (8 * q + 40) with (8 * (q + 5)) by lia. apply IH. lia.
  - assert (Hw : u16 (8 * q + 40) = 8 * (q + 5 - 8192)).
    { unfold u16.
      replace (8 * q + 40) with (8 * (q + 5 - 8192) + 1 * 65536) by lia.
      rewrite Z_mod_plus_full. apply Z.mod_small. lia. }
    rewrite Hw. apply IH. lia.
Qed.

(** X21: the queries of cmd_probe_storage.  A failed MODE SENSE returns its
    code and a declared storage count of 0 returns 1, both without any
    further command.  With a declared count N between 1 and 65520 the
    command sends ceil(N / step) storage-only READ ELEMENT STATUS commands,
    step being min(N, 40): the k-th asks, with a 4096-byte allocation, for
    min(step, N - k * step) elements from address F + k * step (modulo
    2^16); then it returns 0, whatever the device answered to them. *)
Theorem cmd_probe_storage_queries fuel w rc assign w1 :
  read_mode_sense_element w assign_zero = (rc, assign, w1) ->
  let N := num_storage assign in
  let step := if N >? 40 then 40 else N in
  (rc <> 0 -> cmd_probe_storage fuel w = Some (rc, w1))
  /\ (rc = 0 -> N = 0 -> cmd_probe_storage fuel w = Some (1, w1))
  /\ (rc = 0 -> 0 < N <= 65520 ->
      (Z.to_nat ((N + step - 1) / step) < fuel)%nat ->
      exists w2,
        cmd_probe_storage fuel w = Some (0, w2)
        /\ issued w2
           = issued w1 ++ probe_queries (first_storage assign) N step).
Proof.
  intros M N step. unfold cmd_probe_storage. rewrite M. fold N step.
  split; [|split].
  - intros R. apply Z.eqb_neq in R. rewrite R. reflexivity.
  - intros -> ->. reflexivity.
  - intros -> HN Hf. cbn [Z.eqb negb].
    rewrite (proj2 (Z.eqb_neq N 0)) by lia.
    assert (Hstep : 0 < step <= 40).
    { unfold step. destruct (N >? 40) eqn:G; [lia|].
      rewrite Z.gtb_ltb in G. apply Z.ltb_ge in G. lia. }
    assert (Hwrap : forall j, 0 <= j -> step * j < N -> step * (j + 1) < 65536).
    { intros j Hj Hlt. unfold step in *. destruct (N >? 40) eqn:G; [lia|].
      rewrite Z.gtb_ltb in G. apply Z.ltb_ge in G.
      assert (j = 0) by nia. subst j. lia. }
    destruct (probe_loop_run assign step ltac:(lia) ltac:(fold N; lia) Hwrap
                (Z.to_nat ((N + step - 1) / step)) 0%nat fuel w1)
      as (w2 & P & Hi); [reflexivity|exact Hf|].
    change (Z.of_nat 0) with 0 in P. rewrite Z.mul_0_r in P. rewrite P.
    exists w2. split; [reflexivity|exact Hi].
Qed.

(** X22: cmd_probe_storage with a declared count of 65529 or more.  The
    loop counter is a uint16_t advanced by 40, so it stays a multiple of 8
    and wraps around before it can reach the declared count: the loop never
    exits, and for no number of iterations does the command return. *)
Theorem cmd_probe_storage_never_returns fuel w assign w1 :
  read_mode_sense_element w assign_zero = (0, assign, w1) ->
  65529 <= num_storage assign ->
  cmd_probe_storage fuel w = None.
Proof.
  intros M HN. unfold cmd_probe_storage. rewrite M. cbn [Z.eqb negb].
  rewrite (proj2 (Z.eqb_neq (num_storage assign) 0)) by lia.
  rewrite (gtb_true (num_storage assign) 40) by lia.
  pose proof (probe_loop_never_exits assign HN fuel w1 0 ltac:(lia)) as P.
  change (8 * 0) with 0 in P. rewrite P. reflexivity.
Qed.

Lemma fill_missing_slots_at_least (a : ElementAddrAssignment) (l : list Z) :
  0 <= first_storage a -> first_storage a + num_storage a <= 65535 ->
  num_storage a <= count (fill_missing_slots a l).
Proof.
  intros HF HN. pose proof (count_nonneg l) as Hl.
  destruct (Z_lt_le_dec (count l) (num_storage a)) as [Hlt|Hge].
  - rewrite fill_missing_slots_spec by lia.
    rewrite count_app, addr_range_count by lia. lia.
  - rewrite fill_missing_slots_enough by lia. lia.
Qed.

(** X23: list-map after the compensation.  When the builder's MODE SENSE
    declares N > 0 storage elements from F with F + N <= 65535 and the
    device answers the MODE SENSE of warn_if_slot_mismatch in the same way,
    the map has at least N slots, so the "missing magazines" warning is
    never printed: list-map succeeds and prints no message when the map has
    exactly N slots, and the capacity note when it has more. *)
Theorem main_list_map_after_compensation w buf w1 assign w2 rc m w3 w4 :
  builder_reads w empty_map buf w1 0 assign w2 ->
  0 < num_storage assign ->
  first_storage assign + num_storage assign <= 65535 ->
  fetch_element_map w empty_map = (rc, m, w3) ->
  read_mode_sense_element w3 assign_zero = (0, assign, w4) ->
  rc = 0
  /\ num_storage assign <= count (slots m)
  /\ main_list_map w
     = (0,
        if count (slots m) =? num_storage assign then NoMismatch else CapacityNote,
        w4).
Proof.
  intros (E & Hrb & M) HN HFN F M2.
  destruct (read_mode_sense_element_range _ _ _ _ M) as [HF HNr].
  assert (Hc : num_storage assign <= count (slots m) /\ rc = 0).
  { rewrite (fetch_element_map_unfold w empty_map buf w1 E Hrb) in F.
    unfold storage_phase in F. rewrite M in F. cbn [Z.eqb andb] in F.
    rewrite (gtb_true (num_storage assign) 0) in F by lia.
    unfold rebuild_storage in F.
    destruct (match paginate_loop _ _ _ _ _ _ with Some r => r | None => _ end)
      as [map1 wp].
    assert (G : num_storage assign
                <= count (fill_missing_slots assign (slots map1)))
      by (apply fill_missing_slots_at_least; lia).
    pose proof (count_nonneg (transports map1)).
    pose proof (count_nonneg (drives map1)).
    pose proof (count_nonneg (ie map1)).
    rewrite (gtb_true (total_count _) 0) in F
      by (unfold total_count; cbn [transports slots drives ie set_slots]; lia).
    injection F as <- <- _. cbn [slots set_slots]. split; [exact G|reflexivity]. }
  destruct Hc as [Hc ->]. split; [reflexivity|]. split; [exact Hc|].
  unfold main_list_map. rewrite F. cbn [Z.eqb].
  unfold warn_if_slot_mismatch. rewrite M2. cbn [Z.eqb negb].
  rewrite (gtb_true (num_storage assign) 0) by lia.
  rewrite (gtb_true (count (slots m)) 0) by lia. cbn [andb].
  rewrite (Z.eqb_sym (count (slots m))).
  destruct (num_storage assign =? count (slots m)) eqn:Q; cbn [negb]; [reflexivity|].
  assert (Hhalf : num_storage assign / 2 <= num_storage assign)
    by (apply Z.div_le_upper_bound; lia).
  rewrite (proj2 (Z.ltb_ge (count (slots m)) (num_storage assign / 2))) by lia.
  reflexivity.
Qed.

End DiagnosticsLaws.

(* 50 declared slots: two probes, 40 elements from 0x1000 and 10 from
   0x1028. *)
Lemma cmd_probe_storage_queries_witness :
  exists w2,
    cmd_probe_storage 3 (fresh under_reporting_changer) = Some (0, w2)
    /\ issued w2
       = [EvCdb mode_sense_cdb;
          EvCdb (read_element_status_cdb 0x02 0x1000 40 4096);
          EvCdb (read_element_status_cdb 0x02 0x1028 10 4096)].
Proof.
  pose (w := fresh under_reporting_changer).
  pose (x := read_mode_sense_element w assign_zero).
  destruct (cmd_probe_storage_queries 3 w (fst (fst x)) (snd (fst x)) (snd x))
    as (_ & _ & Hq); [concrete|].
  destruct (Hq ltac:(concrete) ltac:(split; concrete) ltac:(vm_compute; lia))
    as (w2 & P & Hi).
  exists w2. split; [exact P|]. rewrite Hi. concrete.
Defined.

(* 65535 declared slots: a thousand iterations do not end the loop. *)
Lemma cmd_probe_storage_never_returns_witness :
  cmd_probe_storage 1000 (fresh boundless_changer) = None.
Proof.
  pose (w := fresh boundless_changer).
  pose (x := read_mode_sense_element w assign_zero).
  apply (cmd_probe_storage_never_returns 1000 w (snd (fst x)) (snd x)).
  - concrete.
  - concrete.
Defined.

(* The changer that lists 40 of its 50 declared slots: after compensation
   the map has 50 slots and list-map prints no message. *)
Lemma main_list_map_after_compensation_witness :
  fst (main_list_map (fresh under_reporting_changer)) = (0, NoMismatch).
Proof.
  pose (w := fresh under_reporting_changer).
  pose (x := execute_cdb w all_types_cdb 65535).
  pose (y := read_mode_sense_element (snd x) assign_zero).
  pose (f := fetch_element_map w empty_map).
  pose (z := read_mode_sense_element (snd f) assign_zero).
  destruct (main_list_map_after_compensation w (snd (fst x)) (snd x)
              (snd (fst y)) (snd y) (fst (fst f)) (snd (fst f)) (snd f) (snd z))
    as (_ & _ & E);
    [concrete_builder|concrete|concrete|concrete|concrete|].
  fold w. rewrite E. concrete.
Defined.

(** ** The growable address list *)

Lemma element_list_push_invariant (el : Growable.ElementList) (addr : Z) :
  list_invariant el ->
  Growable.count el < 2 ^ 62 ->
  list_invariant (Growable.element_list_push true el addr)
  /\ Growable.addrs (Growable.element_list_push true el addr)
     = element_list_push (Growable.addrs el) addr.
Proof.
  intros (Hc & Hle & Hcap & Hmax) Hb.
  assert (H0 : 0 <= Growable.count el) by lia.
  assert (Hu : u64 (Growable.count el + 1) = Growable.count el + 1)
    by (unfold u64; apply Z.mod_small; lia).
  unfold Growable.element_list_push, element_list_push.
  destruct (Growable.count el =? Growable.cap el) eqn:E.
  - apply Z.eqb_eq in E. split; [|reflexivity]. unfold list_invariant.
    cbn [Growable.addrs Growable.count Growable.cap].
    rewrite Hu, length_app, Nat2Z.inj_add, <- Hc. cbn [length Z.of_nat Pos.of_succ_nat].
    split; [reflexivity|].
    destruct (Growable.cap el =? 0) eqn:C.
    + apply Z.eqb_eq in C. split; [lia|].
      split; [right; exists 0%nat; reflexivity|lia].
    + apply Z.eqb_neq in C.
      assert (Hd : u64 (Growable.cap el * 2) = 2 * Growable.cap el)
        by (unfold u64; rewrite Z.mod_small; lia).
      rewrite Hd. split; [lia|]. split; [|lia].
      destruct Hcap as [Z0|[k Hk]]; [contradiction|].
      right. exists (S k). rewrite Hk, Nat2Z.inj_succ, Z.pow_succ_r by lia. ring.
  - apply Z.eqb_neq in E. split; [|reflexivity]. unfold list_invariant.
    cbn [Growable.addrs Growable.count Growable.cap].
    rewrite Hu, length_app, Nat2Z.inj_add, <- Hc. cbn [length Z.of_nat Pos.of_succ_nat].
    split; [reflexivity|]. split; [lia|]. split; [exact Hcap|lia].
Qed.

(** X24: element_list_push with its capacity.  A push onto a full
    allocation whose realloc fails leaves the list exactly as it was: the
    address is dropped.  With realloc succeeding, pushing a sequence of
    addresses onto a well-formed list of fewer than 2^62 cells appends
    exactly these addresses in order, which is the plain list the builder
    is modelled with, and keeps the shape: the count is the number of
    cells written, it fits the allocation, and the allocation is 0 or
    32 * 2^k and at most the larger of 32 and twice the count. *)
Theorem element_list_push_appends (l : list Z) :
  forall el : Growable.ElementList,
    list_invariant el ->
    Growable.count el + Z.of_nat (length l) < 2 ^ 62 ->
    list_invariant (Growable.push_all el l)
    /\ Growable.addrs (Growable.push_all el l)
       = fold_left element_list_push l (Growable.addrs el)
    /\ Growable.addrs (Growable.push_all el l) = Growable.addrs el ++ l
    /\ forall addr,
        Growable.count el = Growable.cap el ->
        Growable.element_list_push false el addr = el.
Proof.
  induction l as [|a l IH]; intros el Hinv Hb.
  - cbn [Growable.push_all fold_left]. split; [exact Hinv|].
    split; [reflexivity|]. split; [now rewrite app_nil_r|].
    intros addr E. unfold Growable.element_list_push.
    rewrite (proj2 (Z.eqb_eq _ _) E). reflexivity.
  - cbn [length] in Hb. rewrite Nat2Z.inj_succ in Hb.
    destruct (element_list_push_invariant el a Hinv) as [Hinv' Ha]; [lia|].
    assert (Hcount : Growable.count (Growable.element_list_push true el a)
                     = Growable.count el + 1).
    { destruct Hinv as (Hc & _). destruct Hinv' as (Hc' & _).
      rewrite Hc', Ha, Hc. unfold element_list_push.
      rewrite length_app, Nat2Z.inj_add. reflexivity. }
    destruct (IH (Growable.element_list_push true el a) Hinv') as (I1 & I2 & I3 & _);
      [rewrite Hcount; lia|].
    unfold Growable.push_all in *. cbn [fold_left].
    split; [exact I1|]. split; [rewrite I2, Ha; reflexivity|].
    split; [rewrite I3, Ha; unfold element_list_push;
            rewrite <- app_assoc; reflexivity|].
    intros addr E. unfold Growable.element_list_push.
    rewrite (proj2 (Z.eqb_eq _ _) E). reflexivity.
Qed.

(* 33 pushes onto the empty list: the allocation has doubled once. *)
Lemma element_list_push_appends_witness :
  Growable.addrs (Growable.push_all Growable.empty (map Z.of_nat (seq 0 33)))
  = map Z.of_nat (seq 0 33)
  /\ Growable.cap (Growable.push_all Growable.empty (map Z.of_nat (seq 0 33))) = 64.
Proof.
  destruct (element_list_push_appends (map Z.of_nat (seq 0 33)) Growable.empty)
    as (_ & _ & Ha & _).
  - unfold list_invariant. cbn. split; [reflexivity|]. split; [lia|].
    split; [left; reflexivity|lia].
  - vm_compute. reflexivity.
  - split; [rewrite Ha; reflexivity|vm_compute; reflexivity].
Defined.

(** ** Names of the element types *)

(* The names printed for the four element types are read back by
   parse_element_type with the same code, except the import/export type,
   which is printed "import/export" and read "ie". *)
Lemma element_type_name_round_trip (type : Z) :
  parse_element_type (element_type_name type) = Some type
  <-> type = 0x01 \/ type = 0x02 \/ type = 0x04.
Proof.
  unfold element_type_name.
  destruct (type =? 1) eqn:E1; [apply Z.eqb_eq in E1; subst; cbn; intuition lia|].
  destruct (type =? 2) eqn:E2; [apply Z.eqb_eq in E2; subst; cbn; intuition lia|].
  destruct (type =? 3) eqn:E3;
    [apply Z.eqb_eq in E3; subst; cbn; intuition (try discriminate; lia)|].
  destruct (type =? 4) eqn:E4; [apply Z.eqb_eq in E4; subst; cbn; intuition lia|].
  apply Z.eqb_neq in E1, E2, E4. cbn. intuition (try discriminate; lia).
Qed.

(** ** The media commands of main() *)

Section CommandLineLaws.
Context {Device : Type} {T : Transport Device}.
Implicit Types (w : World Device) (map : ElementMap) (cl : CommandLine).

Lemma only_queried_refl w : only_queried w w.
Proof. exists []. rewrite app_nil_r. split; [reflexivity|apply Forall_nil]. Qed.

Lemma only_queried_trans w w1 w2 :
  only_queried w w1 -> only_queried w1 w2 -> only_queried w w2.
Proof.
  intros (l1 & E1 & H1) (l2 & E2 & H2).
  eapply queries_only_trans; eassumption.
Qed.

Lemma fetch_element_map_only_queried w map rc m w' :
  fetch_element_map w map = (rc, m, w') -> only_queried w w'.
Proof. apply fetch_element_map_queries_only. Qed.

Lemma read_element_status_info_only_queried w da ds sa ss rc ds' ss' w' :
  read_element_status_info w da ds sa ss = (rc, ds', ss', w') -> only_queried w w'.
Proof. apply read_element_status_info_queries_only. Qed.

Ltac step_command :=
  match goal with
  | |- context [fetch_element_map ?w ?m] =>
    let F := fresh "F" in
    destruct (fetch_element_map w m) as [[? ?] ?] eqn:F;
    apply fetch_element_map_only_queried in F
  | |- context [read_element_status_info ?w ?a ?b ?c ?d] =>
    let R := fresh "R" in
    destruct (read_element_status_info w a b c d) as [[[? ?] ?] ?] eqn:R;
    apply read_element_status_info_only_queried in R
  | |- context [if ?c then _ else _] => destruct c
  end;
  cbv beta iota zeta; cbn [negb andb orb snd fst Z.eqb]; rewrite ?andb_false_r;
  cbn [andb].

Ltac close_queries :=
  first [ apply only_queried_refl
        | assumption
        | eapply only_queried_trans; eassumption ].

Ltac walk_command := repeat step_command; close_queries.

(* The branches with --dry-run or a declined --confirm: none of them
   issues anything but READ ELEMENT STATUS and MODE SENSE commands, and the
   branch of "move" issues nothing. *)
Lemma branches_never_move
        cl w have_slot slot have_drive drive have_transport transport
        have_source source have_dest dest :
  dry_run cl || declined cl = true ->
  snd (main_move cl w have_transport transport have_source source have_dest dest)
  = w
  /\ only_queried w (snd (main_load cl w have_slot slot drive
                                    have_transport transport))
  /\ only_queried w (snd (main_unload cl w have_slot slot drive
                                      have_transport transport))
  /\ only_queried w (snd (main_eject cl w have_slot slot have_drive drive
                                     have_transport transport))
  /\ only_queried w (snd (main_insert cl w have_slot slot
                                      have_transport transport))
  /\ only_queried w (snd (main_retrieve cl w have_slot slot
                                        have_transport transport)).
Proof.
  intros H.
  unfold main_move, main_load, main_unload, main_eject, main_insert, main_retrieve.
  destruct (dry_run cl); [|destruct (declined cl); [|discriminate H]];
    cbn [negb andb orb]; rewrite ?andb_false_r;
    (split; [repeat step_command; reflexivity|]);
    (split; [walk_command|]);
    (split; [walk_command|]);
    (split; [walk_command|]);
    (split; walk_command).
Qed.


Lemma find_slot_index_missing (l : list Z) (a : Z) :
  ~ In a l -> forall i, find_slot_index l a i = 0.
Proof.
  induction l as [|x l IH]; intros Hin i; [reflexivity|].
  cbn [find_slot_index]. destruct (x =? a) eqn:E.
  - apply Z.eqb_eq in E. contradiction Hin. left. exact E.
  - apply IH. intros Hl. apply Hin. right. exact Hl.
Qed.

Lemma nonempty_count (l : list Z) : l <> [] -> 0 < count l.
Proof. destruct l; [congruence|]. intros _. unfold count. cbn [length]. lia. Qed.

(* the common prologue of load, unload and eject once the indices are in
   range and a transport element is known *)
Ltac enter_command F Hs1 Hs2 Hd1 Hd2 :=
  rewrite F; reduce_call;
  rewrite ?(proj2 (Z.eqb_neq _ 0)) by lia;
  rewrite ?(gtb_false _ _ Hs2), ?(gtb_false _ _ Hd2);
  reduce_call.

(** X26: the load command needs to know where the drive's medium came from.
    When the target slot is full and the drive is full but its source
    address is not valid, is 0, or is not the address of a discovered slot,
    the load command of main() exits with status 1 right after reading the
    statuses, with or without --dry-run: it issues no MOVE MEDIUM.  (The
    library's load unloads into the recorded source whatever it is, and
    into the target slot when none is recorded.) *)
Theorem main_load_needs_known_source
        cl w slot drive have_transport transport map drive_st slot_st w2 :
  reads_status w slot drive map drive_st slot_st w2 ->
  have_transport = true \/ transports map <> [] ->
  full slot_st = true ->
  full drive_st = true ->
  valid_src drive_st = false \/ src_addr drive_st = 0
  \/ ~ In (src_addr drive_st) (slots map) ->
  main_load cl w true slot drive have_transport transport = (1, w2).
Proof.
  intros (w1 & F & [Hs1 Hs2] & [Hd1 Hd2] & R) Ht Hslot Hdrive Hsrc.
  unfold main_load. reduce_call. enter_command F Hs1 Hs2 Hd1 Hd2.
  assert (Hgo : negb have_transport && (count (transports map) =? 0) = false).
  { destruct Ht as [->|Ht]; [reflexivity|].
    apply nonempty_count in Ht.
    rewrite (proj2 (Z.eqb_neq (count (transports map)) 0)) by lia.
    apply andb_false_r. }
  rewrite Hgo, R. reduce_call. rewrite Hslot, Hdrive. reduce_call.
  assert (Hno : ((if valid_src drive_st then src_addr drive_st else 0) =? 0)
                || ((if valid_src drive_st
                     then find_slot_index (slots map) (src_addr drive_st) 0
                     else 0) =? 0) = true).
  { destruct (valid_src drive_st); [|reflexivity].
    destruct Hsrc as [N|[Z0|Hin]]; [discriminate N| |].
    - rewrite Z0. reflexivity.
    - rewrite (find_slot_index_missing _ _ Hin). apply orb_true_r. }
  rewrite Hno. reduce_call. rewrite andb_false_r. reflexivity.
Qed.



(** X29: the commands of main() need a transport element.  When the map
    holds no medium transport element and no --transport option is given,
    load, unload, eject, insert and retrieve exit with status 1 right after
    the discovery, whatever the other options.  The library does not
    refuse: mchanger_unload_drive triggers the host-OS eject and issues its
    MOVE MEDIUM with transport address 0. *)
Theorem main_needs_transport cl w slot drive have_drive transport map w1 :
  fetch_element_map w empty_map = (0, map, w1) ->
  transports map = [] ->
  1 <= slot <= count (slots map) ->
  1 <= drive <= count (drives map) ->
  count (ie map) > 0 ->
  main_load cl w true slot drive false transport = (1, w1)
  /\ main_unload cl w true slot drive false transport = (1, w1)
  /\ (have_drive = true \/ drive = 1 ->
      main_eject cl w true slot have_drive drive false transport = (1, w1))
  /\ main_insert cl w true slot false transport = (1, w1)
  /\ main_retrieve cl w true slot false transport = (1, w1)
  /\ moves (issued (snd (mchanger_unload_drive w slot drive)))
     = moves (issued w)
       ++ [EvCdb (move_medium_cdb 0 (addr_at (drives map) drive)
                                  (addr_at (slots map) slot))].
Proof.
  intros F Ht [Hs1 Hs2] [Hd1 Hd2] Hie.
  unfold main_load, main_unload, main_eject, main_insert, main_retrieve,
    mchanger_unload_drive, first_or_zero.
  reduce_call.
  rewrite (proj2 (Z.ltb_ge slot 1)), (proj2 (Z.ltb_ge drive 1)) by lia.
  enter_command F Hs1 Hs2 Hd1 Hd2.
  rewrite ?(proj2 (Z.eqb_neq (count (ie map)) 0)) by lia.
  rewrite Ht. cbn [count length Z.of_nat Z.eqb Z.gtb Z.compare negb andb].
  split; [reflexivity|]. split; [reflexivity|].
  split.
  { intros Hd.
    assert (E : (if negb have_drive then 1 else drive) = drive)
      by (destruct Hd as [-> | ->]; [reflexivity|destruct have_drive; reflexivity]).
    rewrite E. rewrite (proj2 (Z.eqb_neq drive 0)) by lia.
    rewrite (gtb_false _ _ Hd2). reflexivity. }
  split; [reflexivity|]. split; [reflexivity|].
  destruct (cmd_move_medium (eject_optical_media w1) _ _ _) as [r w3] eqn:M.
  cbn [snd]. apply move_after_host_eject in M. rewrite M.
  rewrite (fetch_element_map_no_moves _ _ _ _ _ F). reflexivity.
Qed.

Lemma cmd_test_unit_ready_issued w tur w1 :
  cmd_test_unit_ready w = (tur, w1) ->
  issued w1 = issued w ++ [EvCdb test_unit_ready_cdb].
Proof.
  unfold cmd_test_unit_ready. intros H.
  destruct (execute_cdb w test_unit_ready_cdb 0) as [[r b] w'] eqn:E.
  injection H as _ <-. eapply execute_cdb_issued. exact E.
Qed.

Lemma main_stops (o : StartupOptions) w ws (branch : World Device -> Z * World Device) :
  prelude_stops o w ws ->
  main o w branch = (1, ws)
  /\ issued ws = issued w ++ [EvCdb test_unit_ready_cdb].
Proof.
  intros (Hs & Hf & tur & E & Hn). unfold main. rewrite Hs, Hf, E.
  apply Z.eqb_neq in Hn. rewrite Hn.
  split; [reflexivity|eapply cmd_test_unit_ready_issued; exact E].
Qed.

Lemma main_passes (o : StartupOptions) w wb (branch : World Device -> Z * World Device) :
  prelude_passes o w wb ->
  main o w branch = branch wb
  /\ issued wb = issued w ++ prelude_events o.
Proof.
  unfold main, prelude_events.
  intros [[Hs Hw] | (Hs & tur & E & Hgo)]; [subst wb|]; rewrite Hs; cbn [negb].
  - split; [reflexivity|now rewrite app_nil_r].
  - rewrite E.
    assert (G : negb (tur =? 0) && negb (force o) = false).
    { destruct Hgo as [-> | ->]; [reflexivity|apply andb_false_r]. }
    rewrite G.
    split; [reflexivity|eapply cmd_test_unit_ready_issued; exact E].
Qed.

(* main() either stops after TEST UNIT READY or runs its branch from the
   world the prelude leaves *)
Lemma main_cases (o : StartupOptions) w (branch : World Device -> Z * World Device) :
  (exists ws, prelude_stops o w ws /\ main o w branch = (1, ws))
  \/ (exists wb, prelude_passes o w wb /\ main o w branch = branch wb).
Proof.
  unfold main, prelude_stops, prelude_passes.
  destruct (skip_tur o) eqn:Hs; cbn [negb].
  - right. exists w. split; [left; split; reflexivity|reflexivity].
  - destruct (cmd_test_unit_ready w) as [tur w1] eqn:E.
    destruct (tur =? 0) eqn:Z0; cbn [negb andb].
    + apply Z.eqb_eq in Z0. right. exists w1.
      split; [|reflexivity]. right. split; [reflexivity|].
      exists tur. split; [reflexivity|left; exact Z0].
    + apply Z.eqb_neq in Z0. destruct (force o) eqn:Hf; cbn [negb].
      * right. exists w1. split; [|reflexivity]. right. split; [reflexivity|].
        exists tur. split; [reflexivity|right; reflexivity].
      * left. exists w1. split; [|reflexivity].
        split; [reflexivity|]. split; [reflexivity|].
        exists tur. split; [reflexivity|exact Z0].
Qed.

Lemma main_only_queried (o : StartupOptions) w
      (branch : World Device -> Z * World Device) :
  (forall w0, only_queried w0 (snd (branch w0))) ->
  exists l,
    issued (snd (main o w branch)) = issued w ++ prelude_events o ++ l
    /\ status_queries_only l.
Proof.
  intros Hb. destruct (main_cases o w branch) as [(ws & St & E)|(wb & Pa & E)].
  - destruct (main_stops o w ws branch St) as [_ Hi].
    destruct St as (Hs & _). exists []. rewrite E. cbn [snd].
    unfold prelude_events. rewrite Hs, Hi.
    split; [reflexivity|apply Forall_nil].
  - destruct (main_passes o w wb branch Pa) as [_ Hi].
    destruct (Hb wb) as (l & Hl & Hq). exists l. rewrite E, Hl, Hi.
    split; [now rewrite app_assoc|exact Hq].
Qed.

(** X25: --dry-run and a declined --confirm.  With --dry-run, or with
    --confirm when the operator does not type "yes", none of the commands
    move, load, unload, eject, insert and retrieve of main() issues a MOVE
    MEDIUM or triggers a host-OS eject or a mount wait, whatever the other
    options and whatever the device answers.  What main() issues is the
    TEST UNIT READY of its prelude (nothing with --no-tur) followed by READ
    ELEMENT STATUS and MODE SENSE commands only; for "move" nothing follows
    the prelude. *)
Theorem dry_run_or_declined_never_moves
        o cl w have_slot slot have_drive drive have_transport transport
        have_source source have_dest dest :
  dry_run cl || declined cl = true ->
  let queries_only (r : Z * World Device) :=
    exists l, issued (snd r) = issued w ++ prelude_events o ++ l
              /\ status_queries_only l in
  issued (snd (main o w (fun w0 =>
                 main_move cl w0 have_transport transport
                           have_source source have_dest dest)))
  = issued w ++ prelude_events o
  /\ queries_only (main o w (fun w0 =>
                     main_load cl w0 have_slot slot drive
                               have_transport transport))
  /\ queries_only (main o w (fun w0 =>
                     main_unload cl w0 have_slot slot drive
                                 have_transport transport))
  /\ queries_only (main o w (fun w0 =>
                     main_eject cl w0 have_slot slot have_drive drive
                                have_transport transport))
  /\ queries_only (main o w (fun w0 =>
                     main_insert cl w0 have_slot slot
                                 have_transport transport))
  /\ queries_only (main o w (fun w0 =>
                     main_retrieve cl w0 have_slot slot
                                   have_transport transport)).
Proof.
  intros H queries_only.
  pose proof (fun w0 =>
                branches_never_move cl w0 have_slot slot have_drive drive
                  have_transport transport have_source source have_dest dest H)
    as B.
  split.
  - destruct (main_cases o w (fun w0 =>
                main_move cl w0 have_transport transport
                          have_source source have_dest dest))
      as [(ws & St & E)|(wb & Pa & E)]; rewrite E.
    + destruct (main_stops o w ws (fun w0 => (0, w0)) St) as [_ Hi].
      destruct St as (Hs & _). cbn [snd]. unfold prelude_events.
      rewrite Hs. exact Hi.
    + destruct (main_passes o w wb (fun w0 => (0, w0)) Pa) as [_ Hi].
      rewrite (proj1 (B wb)). exact Hi.
  - split; [apply main_only_queried; intros w0; apply (B w0)|].
    split; [apply main_only_queried; intros w0; apply (B w0)|].
    split; [apply main_only_queried; intros w0; apply (B w0)|].
    split; apply main_only_queried; intros w0; apply (B w0).
Qed.



End CommandLineLaws.

(* --force --dry-run load of slot 6 while the drive holds another medium
   and the unit is not ready: TEST UNIT READY, then status queries only. *)
Lemma dry_run_or_declined_never_moves_witness :
  issued (snd (main (mkStartup true false) (fresh (busy_jukebox moves_succeed))
                    (fun w0 => main_load (mkCommandLine true false false false)
                                         w0 true 6 1 false 0)))
  = [EvCdb test_unit_ready_cdb;
     EvCdb (read_element_status_cdb 0x00 0 0xFFFF 65535);
     EvCdb mode_sense_cdb;
     EvCdb (read_element_status_cdb 0x00 0 0xFFFF 4096)].
Proof.
  destruct (dry_run_or_declined_never_moves
              (mkStartup true false) (mkCommandLine true false false false)
              (fresh (busy_jukebox moves_succeed))
              true 6 true 1 false 0 false 0 false 0)
    as (_ & (l & Hl & _) & _); [reflexivity|].
  pose proof Hl as C. vm_compute in C. injection C as <-.
  rewrite Hl. reflexivity.
Defined.

(* Slot 6 full and the drive full without a recorded source: the load
   command gives up. *)
Lemma main_load_needs_known_source_witness :
  fst (main_load (mkCommandLine false false false false)
                 (fresh (jukebox (plain 0x1005 1) (plain 0x0100 1) moves_succeed))
                 true 6 1 false 0) = 1.
Proof.
  pose (w := fresh (jukebox (plain 0x1005 1) (plain 0x0100 1) moves_succeed)).
  pose (f := fetch_element_map w empty_map).
  pose (map := snd (fst f)).
  pose (r := read_element_status_info (snd f)
               (addr_at (drives map) 1) (Some status_zero)
               (addr_at (slots map) 6) (Some status_zero)).
  fold w.
  rewrite (main_load_needs_known_source
             (mkCommandLine false false false false) w 6 1 false 0 map
             (deref (snd (fst (fst r)))) (deref (snd (fst r))) (snd r)).
  - reflexivity.
  - concrete_reads f.
  - right. concrete.
  - concrete.
  - concrete.
  - left. concrete.
Defined.



(* No transport element in the report: the unload command refuses, the
   library moves with transport address 0. *)
Lemma main_needs_transport_witness :
  fst (main_unload (mkCommandLine false false false false)
                   (fresh no_transport_jukebox) true 1 1 false 0) = 1
  /\ moves (issued (snd (mchanger_unload_drive (fresh no_transport_jukebox) 1 1)))
     = [EvCdb (move_medium_cdb 0 0x0100 0x1000)].
Proof.
  pose (w := fresh no_transport_jukebox).
  pose (f := fetch_element_map w empty_map).
  destruct (main_needs_transport
              (mkCommandLine false false false false) w 1 1 true 0
              (snd (fst f)) (snd f))
    as (_ & Hu & _ & _ & _ & Hm).
  - concrete.
  - concrete.
  - split; concrete.
  - split; concrete.
  - concrete.
  - fold w. rewrite Hu, Hm. split; concrete.
Defined.

(** ** The element map builder of xl1b_changer.c *)

(** X30: the older builder.  Xl1b's fetch_element_map issues one all-types
    READ ELEMENT STATUS with a 4096-byte allocation; a failure returns the
    command's code and a reply announcing zero bytes returns 1, both with
    the map untouched.  Exactly when the announced byte count plus 8 lies
    strictly between 4096 and 65535 it issues the query once more, with
    that allocation, and a failure of this one returns its code with the
    map untouched.  Nothing else is ever issued: no MODE SENSE, no
    storage-only query, so nothing is synthesised.  The resulting map is
    what parse_element_status_map makes of the last reply, up to the
    announced length or the allocation, from the map given: every list is
    the given list followed by 16-bit addresses, and 0 is returned exactly
    when the parser reports an element, which needs a non-empty map. *)
Theorem xl1b_fetch_element_map_outcome {Device : Type} {T : Transport Device}
        (w : World Device) (map : ElementMap) rc m w' r buf w1 :
  Xl1b.fetch_element_map w map = (rc, m, w') ->
  execute_cdb w (read_element_status_cdb 0x00 0 0xFFFF 4096) 4096 = (r, buf, w1) ->
  let needed := rd24 buf 5 + 8 in
  let parsed (b : Buffer) (len : Z) := parse_element_status_map b len map in
  let first := EvCdb (read_element_status_cdb 0x00 0 0xFFFF 4096) in
  let again := EvCdb (read_element_status_cdb 0x00 0 0xFFFF needed) in
  (r <> 0 ->
   rc = r /\ m = map /\ w' = w1 /\ issued w' = issued w ++ [first])
  /\ (r = 0 -> rd24 buf 5 = 0 ->
      rc = 1 /\ m = map /\ w' = w1 /\ issued w' = issued w ++ [first])
  /\ (r = 0 -> rd24 buf 5 <> 0 -> needed <= 4096 \/ 65535 <= needed ->
      rc = (if fst (parsed buf (Z.min needed 4096)) then 0 else 1)
      /\ m = snd (parsed buf (Z.min needed 4096))
      /\ w' = w1 /\ issued w' = issued w ++ [first])
  /\ (r = 0 -> 4096 < needed < 65535 ->
      forall r2 buf2 w2,
        execute_cdb w1 (read_element_status_cdb 0x00 0 0xFFFF needed) needed
        = (r2, buf2, w2) ->
        w' = w2 /\ issued w' = issued w ++ [first; again]
        /\ (r2 <> 0 -> rc = r2 /\ m = map)
        /\ (r2 = 0 ->
            rc = (if fst (parsed buf2 needed) then 0 else 1)
            /\ m = snd (parsed buf2 needed)))
  /\ map_extended map m
  /\ (rc = 0 -> total_count m > 0).
Proof.
  intros H E needed parsed first again.
  pose proof (execute_cdb_issued _ _ _ _ _ _ E) as Hlog.
  pose proof (rd24_range buf 5) as Hrd.
  assert (Hparse : forall b len,
             map_extended map (snd (parsed b len))
             /\ (fst (parsed b len) = true -> total_count (snd (parsed b len)) > 0)).
  { intros b len. split; [apply parse_element_status_map_extended|].
    unfold parsed, parse_element_status_map.
    destruct (len <? 8); [discriminate|]. cbn [fst snd].
    intros G. rewrite Z.gtb_ltb in G. apply Z.ltb_lt in G. lia. }
  unfold Xl1b.fetch_element_map in H. cbv zeta in H. rewrite E in H.
  destruct (r =? 0) eqn:R; cbn [negb] in H.
  2:{ apply Z.eqb_neq in R. injection H as <- <- <-.
      split; [intros _; repeat split; exact Hlog|].
      split; [intros N; contradiction|]. split; [intros N; contradiction|].
      split; [intros N; contradiction|].
      split; [apply map_extended_refl|]. intros N. contradiction. }
  apply Z.eqb_eq in R. subst r.
  split; [intros N; contradiction N; reflexivity|].
  destruct (rd24 buf 5 =? 0) eqn:Z0.
  { apply Z.eqb_eq in Z0. injection H as <- <- <-.
    split; [intros _ _; repeat split; exact Hlog|].
    split; [intros _ N; contradiction|].
    split; [intros _ N; unfold needed in N; lia|].
    split; [apply map_extended_refl|]. discriminate. }
  apply Z.eqb_neq in Z0.
  split; [intros _ N; contradiction|].
  rewrite (u32_small (rd24 buf 5 + 8)) in H by lia. fold needed in H.
  destruct ((needed >? 4096) && (needed <? 65535)) eqn:Again.
  - apply andb_true_iff in Again. destruct Again as [G1 G2].
    rewrite Z.gtb_ltb in G1. apply Z.ltb_lt in G1. apply Z.ltb_lt in G2.
    destruct (execute_cdb w1 (read_element_status_cdb 0 0 65535 needed) needed)
      as [[r2 b2] w2] eqn:E2.
    pose proof (execute_cdb_issued _ _ _ _ _ _ E2) as Hlog2.
    unfold parse_len_of in H.
    rewrite (u32_small (rd24 buf 5 + 8)) in H by lia. fold needed in H.
    rewrite Z.leb_refl in H.
    split; [intros _ _ N; lia|].
    destruct (r2 =? 0) eqn:R2; cbn [negb] in H.
    + apply Z.eqb_eq in R2. subst r2.
      fold (parsed b2 needed) in H.
      destruct (Hparse b2 needed) as [Hext Hpos].
      destruct (parsed b2 needed) as [ok m1] eqn:P. cbn [fst snd] in *.
      injection H as <- <- <-.
      split.
      { intros _ _ r2 buf2 w2' X. injection X as <- <- <-.
        split; [reflexivity|].
        split; [rewrite Hlog2, Hlog, <- app_assoc; reflexivity|].
        split; [intros N; contradiction N; reflexivity|].
        intros _. rewrite P. split; reflexivity. }
      split; [exact Hext|]. destruct ok; [intros _; apply Hpos; reflexivity|discriminate].
    + apply Z.eqb_neq in R2. injection H as <- <- <-.
      split.
      { intros _ _ r2' buf2 w2' X. injection X as <- <- <-.
        split; [reflexivity|].
        split; [rewrite Hlog2, Hlog, <- app_assoc; reflexivity|].
        split; [intros _; split; reflexivity|]. intros N. contradiction. }
      split; [apply map_extended_refl|]. intros N. contradiction.
  - apply andb_false_iff in Again. cbn [negb Z.eqb] in H.
    unfold parse_len_of in H.
    rewrite (u32_small (rd24 buf 5 + 8)) in H by lia. fold needed in H.
    assert (Hmin : (if needed <=? 4096 then needed else 4096) = Z.min needed 4096).
    { destruct (needed <=? 4096) eqn:C;
        [apply Z.leb_le in C|apply Z.leb_gt in C]; lia. }
    rewrite Hmin in H. fold (parsed buf (Z.min needed 4096)) in H.
    destruct (Hparse buf (Z.min needed 4096)) as [Hext Hpos].
    destruct (parsed buf (Z.min needed 4096)) as [ok m1]. cbn [fst snd] in *.
    injection H as <- <- <-.
    split; [intros _ _ _; repeat split; exact Hlog|].
    split.
    { intros _ [N1 N2]. exfalso.
      destruct Again as [G|G];
        [rewrite Z.gtb_ltb in G; apply Z.ltb_ge in G|apply Z.ltb_ge in G]; lia. }
    split; [exact Hext|]. destruct ok; [intros _; apply Hpos; reflexivity|discriminate].
Qed.

(* 350 slots: the first reply announces 4208 + 8 bytes, the query is
   issued again with an allocation of 4216 bytes and all 350 slots are
   found. *)
Lemma xl1b_fetch_element_map_outcome_witness :
  exists w',
    Xl1b.fetch_element_map (fresh large_changer) empty_map
    = (0, mkElementMap [] (addr_range 0x1000 0x115D) [] [], w')
    /\ issued w'
       = [EvCdb (read_element_status_cdb 0x00 0 0xFFFF 4096);
          EvCdb (read_element_status_cdb 0x00 0 0xFFFF 4216)].
Proof.
  pose (w := fresh large_changer).
  pose (f := Xl1b.fetch_element_map w empty_map).
  pose (x := execute_cdb w (read_element_status_cdb 0x00 0 0xFFFF 4096) 4096).
  pose (y := execute_cdb (snd x) (read_element_status_cdb 0x00 0 0xFFFF 4216) 4216).
  destruct (xl1b_fetch_element_map_outcome w empty_map
              (fst (fst f)) (snd (fst f)) (snd f)
              (fst (fst x)) (snd (fst x)) (snd x))
    as (_ & _ & _ & Hagain & _); [concrete|concrete|].
  destruct (Hagain ltac:(concrete) ltac:(split; concrete)
                   (fst (fst y)) (snd (fst y)) (snd y))
    as (Hw & Hi & _ & Hok); [concrete|].
  destruct (Hok ltac:(concrete)) as [Hrc Hm].
  exists (snd f). split; [|rewrite Hi; concrete].
  fold w. change (Xl1b.fetch_element_map w empty_map) with f.
  rewrite (surjective_pairing f), (surjective_pairing (fst f)).
  rewrite Hrc, Hm. concrete.
Defined.

(** ** The settled claims on the storage list of the builder *)

(* past alloc the view is the memory behind the buffer *)
Lemma byte_at_behind (buf : Buffer) (alloc : Z) (behind : list Z) (i : Z) :
  0 <= alloc <= i ->
  byte_at (with_memory_behind buf alloc behind) i = byte_at behind (i - alloc).
Proof.
  intros Hi. unfold byte_at, with_memory_behind.
  rewrite (proj2 (Z.ltb_ge i 0)), (proj2 (Z.ltb_ge (i - alloc) 0)) by lia.
  f_equal.
  assert (Hlen : length (firstn (Z.to_nat alloc)
                                (buf ++ repeat 0 (Z.to_nat alloc)))
                 = Z.to_nat alloc)
    by (rewrite length_firstn, length_app, repeat_length; lia).
  rewrite app_nth2 by lia. rewrite Hlen. f_equal. lia.
Qed.

Section StorageListClaims.
Context {Device : Type} {T : Transport Device}.
Implicit Types (w : World Device) (map : ElementMap).

(* read_mode_sense_element on a reply whose mode page lies inside the
   256-byte buffer: the code of the command, and the assignment the reply
   declares if it holds page 0x1D with its 16 bytes *)
Lemma read_mode_sense_element_in_buffer w out r reply w1 :
  execute_cdb w mode_sense_cdb 256 = (r, reply, w1) ->
  let page_offset := 8 + be_pair reply 6 in
  (r = 0 -> page_offset + 18 <= 256) ->
  read_mode_sense_element w out
  = (r,
     if (r =? 0) && (Z.land (byte_at reply page_offset) 0x3F =? 0x1D)
        && (16 <=? byte_at reply (page_offset + 1))
     then mkAssign (be_pair reply (page_offset + 2)) (be_pair reply (page_offset + 4))
                   (be_pair reply (page_offset + 6)) (be_pair reply (page_offset + 8))
                   (be_pair reply (page_offset + 10)) (be_pair reply (page_offset + 12))
                   (be_pair reply (page_offset + 14)) (be_pair reply (page_offset + 16))
     else out,
     w1).
Proof.
  intros E page_offset Hin.
  unfold read_mode_sense_element. cbv zeta. rewrite E.
  pose proof (rd16_range reply 6) as Hb.
  rewrite (rd16_big_endian reply 6) in Hb |- * by lia. fold page_offset.
  destruct (r =? 0) eqn:R; cbn [negb andb]; [|reflexivity].
  apply Z.eqb_eq in R. subst r. specialize (Hin eq_refl).
  rewrite (u32_small page_offset) by (unfold page_offset; lia).
  rewrite (u32_small (page_offset + 2)), (u32_small (page_offset + 1))
    by (unfold page_offset in *; lia).
  rewrite (gtb_false (page_offset + 2) 256) by lia.
  destruct (Z.land (byte_at reply page_offset) 63 =? 29); cbn [negb orb andb];
    [|reflexivity].
  rewrite Z.leb_antisym.
  destruct (byte_at reply (page_offset + 1) <? 16); cbn [negb]; [reflexivity|].
  unfold page_offset in *.
  rewrite !rd16_within by lia.
  rewrite !rd16_big_endian by lia.
  f_equal. f_equal. f_equal; f_equal; lia.
Qed.

(* ... and on a reply whose page 0x1D starts so late that its storage count
   lies past buf[255]: the count is read from the memory behind the buffer *)
Lemma read_mode_sense_element_past_buffer w out reply w1 :
  execute_cdb w mode_sense_cdb 256 = (0, reply, w1) ->
  let page_offset := 8 + be_pair reply 6 in
  248 <= page_offset <= 254 ->
  Z.land (byte_at reply page_offset) 0x3F = 0x1D ->
  16 <= byte_at reply (page_offset + 1) ->
  exists a,
    read_mode_sense_element w out = (0, a, w1)
    /\ num_storage a
       = be_pair (memory_behind (device w1)) (page_offset + 8 - 256).
Proof.
  intros E page_offset Hpo Hcode Hlen.
  unfold read_mode_sense_element. cbv zeta. rewrite E. cbn [Z.eqb negb].
  rewrite (rd16_big_endian reply 6) by lia. fold page_offset.
  rewrite (u32_small page_offset), (u32_small (page_offset + 2)),
    (u32_small (page_offset + 1)) by lia.
  rewrite (gtb_false (page_offset + 2) 256) by lia.
  rewrite (proj2 (Z.eqb_eq _ _) Hcode), (proj2 (Z.ltb_ge _ _) Hlen).
  cbn [negb orb]. eexists. split; [reflexivity|]. cbn [num_storage].
  rewrite rd16_big_endian by lia. unfold be_pair.
  rewrite !byte_at_behind by lia.
  f_equal; [f_equal; f_equal; lia|f_equal; lia].
Qed.

Lemma be_pair_range (buf : Buffer) (off : Z) : 0 <= be_pair buf off < 65536.
Proof.
  unfold be_pair.
  pose proof (byte_at_range buf off). pose proof (byte_at_range buf (off + 1)).
  lia.
Qed.

(** C6 (amended): the rebuild rule.  Provided the mode page of a
    successful MODE SENSE reply lies inside the 256-byte buffer (page
    offset + 18 <= 256; past that the code reads its fields behind the
    buffer), the storage
    list of the all-types query is discarded and rebuilt by storage-only
    paginated queries if and only if MODE SENSE succeeds and its reply
    declares, in a page 0x1D of at least 16 bytes, a storage count above
    zero, whatever number of storage elements the all-types query returned:
    the result then does not depend on that list, and the first command
    after MODE SENSE is a storage-only READ ELEMENT STATUS at the declared
    first address for the declared count.  Otherwise the all-types storage
    list is kept unchanged and nothing is issued after MODE SENSE. *)
Theorem fetch_element_map_rebuilds_storage w map buf w1 r reply w2 :
  execute_cdb w all_types_cdb 65535 = (0, buf, w1) ->
  rd24 buf 5 <> 0 ->
  execute_cdb w1 mode_sense_cdb 256 = (r, reply, w2) ->
  let page_offset := 8 + be_pair reply 6 in
  (r = 0 -> page_offset + 18 <= 256) ->
  let F := be_pair reply (page_offset + 6) in
  let N := be_pair reply (page_offset + 8) in
  let declares_storage :=
    r = 0
    /\ Z.land (byte_at reply page_offset) 0x3F = 0x1D
    /\ 16 <= byte_at reply (page_offset + 1)
    /\ 0 < N in
  let map1 := all_types_map buf map in
  (declares_storage ->
   exists m w' evs,
     fetch_element_map w map = (if total_count m >? 0 then 0 else 1, m, w')
     /\ rebuild_storage 65535 w2 (storage_assignment F N) map1 = (m, w')
     /\ (forall l,
           rebuild_storage 65535 w2 (storage_assignment F N) (set_slots map1 l)
           = (m, w'))
     /\ issued w'
        = issued w2 ++ EvCdb (read_element_status_cdb 0x02 F N 65535) :: evs)
  /\ (~ declares_storage ->
      fetch_element_map w map
      = (if total_count map1 >? 0 then 0 else 1, map1, w2)
      /\ issued w2 = issued w ++ [EvCdb all_types_cdb; EvCdb mode_sense_cdb]).
Proof.
  intros E Hrb EM page_offset Hin F N declares_storage map1.
  pose proof (read_mode_sense_element_in_buffer w1 assign_zero r reply w2 EM Hin)
    as M. cbv zeta in M. fold page_offset in M.
  rewrite (fetch_element_map_unfold w map buf w1 E Hrb).
  fold (all_types_map buf map). fold map1.
  unfold storage_phase. rewrite M.
  pose proof (be_pair_range reply (page_offset + 6)) as HF. fold F in HF.
  pose proof (be_pair_range reply (page_offset + 8)) as HN. fold N in HN.
  split.
  - intros (-> & Hcode & Hlen & Hpos).
    rewrite (proj2 (Z.eqb_eq _ _) Hcode), (proj2 (Z.leb_le _ _) Hlen).
    cbn [Z.eqb andb num_storage]. fold N.
    rewrite (gtb_true N 0) by lia.
    set (assign := mkAssign _ _ _ _ _ _ _ _).
    assert (Hsame : forall m0 : ElementMap,
               rebuild_storage 65535 w2 (storage_assignment F N) m0
               = rebuild_storage 65535 w2 assign m0) by reflexivity.
    destruct (rebuild_storage 65535 w2 assign map1) as [m w'] eqn:R.
    exists m, w'.
    unfold rebuild_storage in R.
    change (num_storage assign) with N in R.
    change (first_storage assign) with F in R.
    destruct (paginate_loop_total (S (Z.to_nat N)) 65535 w2 F N (clear_slots map1))
      as [[paged wp] P]; [lia|lia|].
    rewrite P in R.
    destruct (paginate_loop_first _ _ _ _ _ _ _ _ Hpos P) as [evs Hevs].
    exists evs. injection R as <- <-.
    split; [reflexivity|].
    split; [rewrite Hsame; unfold rebuild_storage;
            change (num_storage assign) with N;
            change (first_storage assign) with F; rewrite P; reflexivity|].
    split; [|exact Hevs].
    intros l. rewrite Hsame. unfold rebuild_storage.
    change (num_storage assign) with N. change (first_storage assign) with F.
    change (clear_slots (set_slots map1 l)) with (clear_slots map1).
    rewrite P. reflexivity.
  - intros Hn.
    split.
    + assert (G : (r =? 0)
                  && (num_storage
                        (if (r =? 0)
                            && (Z.land (byte_at reply page_offset) 63 =? 29)
                            && (16 <=? byte_at reply (page_offset + 1))
                         then mkAssign (be_pair reply (page_offset + 2))
                                (be_pair reply (page_offset + 4))
                                (be_pair reply (page_offset + 6))
                                (be_pair reply (page_offset + 8))
                                (be_pair reply (page_offset + 10))
                                (be_pair reply (page_offset + 12))
                                (be_pair reply (page_offset + 14))
                                (be_pair reply (page_offset + 16))
                         else assign_zero) >? 0) = false).
      { destruct (r =? 0) eqn:R; [|reflexivity]. apply Z.eqb_eq in R.
        destruct (Z.land (byte_at reply page_offset) 63 =? 29) eqn:C;
          [|reflexivity]. apply Z.eqb_eq in C.
        destruct (16 <=? byte_at reply (page_offset + 1)) eqn:L;
          [|reflexivity]. apply Z.leb_le in L.
        cbn [andb num_storage]. fold N. apply gtb_false.
        destruct (Z_lt_le_dec 0 N) as [Hp|Hz]; [|exact Hz].
        exfalso. apply Hn. repeat split; assumption. }
      rewrite G. reflexivity.
    + apply execute_cdb_issued in E, EM. rewrite EM, E, <- app_assoc.
      reflexivity.
Qed.

End StorageListClaims.

(* The changer whose all-types reply lists three slots while MODE SENSE
   declares two is rebuilt to two slots; with MODE SENSE rejected the
   all-types list stands. *)
Lemma fetch_element_map_rebuilds_storage_witness :
  slots (snd (fst (fetch_element_map (fresh all_types_only_changer) empty_map)))
  = [0x1000; 0x1001]
  /\ fetch_element_map (fresh no_mode_sense_changer) empty_map
     = (0, mkElementMap [] [0x1000; 0x1001] [] [],
        mkWorld BACKEND_SCSITASK no_mode_sense_changer
                [EvCdb all_types_cdb; EvCdb mode_sense_cdb]).
Proof.
  split.
  - pose (w := fresh all_types_only_changer).
    pose (x := execute_cdb w all_types_cdb 65535).
    pose (y := execute_cdb (snd x) mode_sense_cdb 256).
    destruct (fetch_element_map_rebuilds_storage
                w empty_map (snd (fst x)) (snd x) (fst (fst y)) (snd (fst y)) (snd y))
      as [Hyes _]; [concrete|concrete|concrete|concrete|].
    destruct Hyes as (m & w' & evs & F & R & _).
    { split; [concrete|]. split; [concrete|]. split; concrete. }
    fold w. rewrite F. cbn [fst snd].
    vm_compute in R. injection R as <- _. reflexivity.
  - pose (w := fresh no_mode_sense_changer).
    pose (x := execute_cdb w all_types_cdb 65535).
    pose (y := execute_cdb (snd x) mode_sense_cdb 256).
    destruct (fetch_element_map_rebuilds_storage
                w empty_map (snd (fst x)) (snd x) (fst (fst y)) (snd (fst y)) (snd y))
      as [_ Hno]; [concrete|concrete|concrete|concrete|].
    destruct Hno as [Hf _].
    { intros [Hrc _]. vm_compute in Hrc. discriminate Hrc. }
    fold w. rewrite Hf. reflexivity.
Defined.

Lemma NoDup_app_disjoint (l r : list Z) (x : Z) :
  NoDup (l ++ r) -> In x l -> ~ In x r.
Proof.
  induction l as [|a l IH]; intros ND Hx Hr; [contradiction|].
  cbn [app] in ND. inversion ND as [|? ? Hn ND']; subst.
  destruct Hx as [->|Hx].
  - apply Hn. apply in_or_app. right. exact Hr.
  - exact (IH ND' Hx Hr).
Qed.

(* the compensation starts at F + d whatever was discovered: a discovered
   address at or above F + d is appended a second time *)
Lemma fill_missing_slots_repeats (a : ElementAddrAssignment) (l : list Z) (x : Z) :
  0 <= first_storage a -> first_storage a + num_storage a <= 65535 ->
  count l < num_storage a ->
  In x l ->
  first_storage a + count l <= x < first_storage a + num_storage a ->
  ~ NoDup (fill_missing_slots a l).
Proof.
  intros HF HN Hc Hx Hr ND.
  rewrite fill_missing_slots_spec in ND by assumption.
  apply (NoDup_app_disjoint _ _ x ND Hx). unfold addr_range. apply in_map_iff.
  exists (Z.to_nat (x - (first_storage a + count l))).
  split; [lia|]. apply in_seq. lia.
Qed.

(** C1 (the builder at the failing input): MODE SENSE declares 4 storage
    elements from 0x1000 and the storage-only query lists 0x1000 and 0x1002.
    The compensation starts at first + count = 0x1002 instead of filling
    what is missing: the final storage list is 0x1000, 0x1002, 0x1002,
    0x1003, in which 0x1002 occurs twice and the declared address 0x1001
    never, and it is not the list the claim describes. *)
Theorem fetch_element_map_fill_repeats_address :
  fill_missing_slots (storage_assignment 0x1000 4) [0x1000; 0x1002]
  = [0x1000; 0x1002; 0x1002; 0x1003]
  /\ slots (snd (fst (fetch_element_map (fresh gap_changer) empty_map)))
     = [0x1000; 0x1002; 0x1002; 0x1003]
  /\ ~ NoDup (slots (snd (fst (fetch_element_map (fresh gap_changer) empty_map))))
  /\ ~ In 0x1001
         (slots (snd (fst (fetch_element_map (fresh gap_changer) empty_map))))
  /\ ~ quirk_claim_as_stated (storage_assignment 0x1000 4) [0x1000; 0x1002]
         (slots (snd (fst (fetch_element_map (fresh gap_changer) empty_map)))).
Proof.
  assert (E : slots (snd (fst (fetch_element_map (fresh gap_changer) empty_map)))
              = [0x1000; 0x1002; 0x1002; 0x1003]) by (vm_compute; reflexivity).
  split; [vm_compute; reflexivity|]. split; [exact E|]. rewrite E.
  split.
  - change [4096; 4098; 4098; 4099]
      with (fill_missing_slots (storage_assignment 0x1000 4) [0x1000; 0x1002]).
    apply (fill_missing_slots_repeats _ _ 0x1002); cbn; lia.
  - split.
    + intros [H|[H|[H|[H|[]]]]]; discriminate H.
    + intros H. destruct H as (synth & _ & E2 & E3 & _); [concrete|].
      rewrite E3 in E2. vm_compute in E2. discriminate E2.
Qed.
